(** * Crypto options trading: volatility-arbitrage engine and position manager

    A shallow embedding of [volatility_analyzer.py] and [options_trader.py].

    Modelling conventions.
    - A Python [float] is an exact rational ([Q]): no rounding, no overflow.
      The one place where the program can divide by zero (the IV/HV ratio,
      a NumPy division) yields an extended value, see [Py.ratio].
    - An API answer is a record whose fields are the dictionary keys the
      program reads; a key read with [.get] is an [option] field, [None]
      standing for an absent key.
    - The exchange is an oracle consulted through a state monad whose state
      is the history of the requests made so far, with their answers.
    - The pandas/NumPy kernel (rolling standard deviation of log returns,
      annualised) is a parameter of the analyzer. *)

From Stdlib Require Import ZArith QArith Qabs Lia Lqa String Ascii List Bool.
From Stdlib Require Import DecimalString Sorted Permutation.
Import ListNotations.

Set Implicit Arguments.

(** ** Python strings, truthiness and float text *)

Module Py.

Local Open Scope string_scope.

(** [s.split(sep)] for a one-character separator. *)
Fixpoint split (sep : ascii) (s : string) : list string :=
  match s with
  | EmptyString => [EmptyString]
  | String c s' =>
      if Ascii.eqb c sep then EmptyString :: split sep s'
      else match split sep s' with
           | [] => [String c EmptyString]
           | p :: ps => String c p :: ps
           end
  end.

(** [s.endswith(suffix)]. *)
Definition endswith (s suffix : string) : bool :=
  let n := String.length s in
  let k := String.length suffix in
  (k <=? n)%nat && String.eqb (substring (n - k) k s) suffix.

(** Truthiness of a value read with [dict.get]: [None], [0] and the empty
    string are falsy. *)
Definition truthy_num (x : option Q) : bool :=
  match x with
  | Some q => negb (Qeq_bool q 0)
  | None => false
  end.

Definition truthy_str (x : option string) : bool :=
  match x with
  | Some s => negb (String.eqb s "")
  | None => false
  end.

(** [x or default] on an optional number. *)
Definition num_or (x : option Q) (default : Q) : Q :=
  match x with
  | Some q => if Qeq_bool q 0 then default else q
  | None => default
  end.

(** Comparisons of Python numbers, as booleans. *)
Definition Qltb (a b : Q) : bool := negb (Qle_bool b a).
Definition Qgtb (a b : Q) : bool := Qltb b a.
Definition Qgeb (a b : Q) : bool := Qle_bool b a.

(** *** Decimal text of integers *)

Definition digit_of (c : ascii) : option Z :=
  let n := Z.of_nat (nat_of_ascii c) in
  if (48 <=? n)%Z && (n <=? 57)%Z then Some (n - 48)%Z else None.

(** Value of a string made of decimal digits only; the empty string has the
    value of the accumulator. *)
Fixpoint digits_val (acc : Z) (s : string) : option Z :=
  match s with
  | EmptyString => Some acc
  | String c s' =>
      match digit_of c with
      | Some d => digits_val (10 * acc + d) s'
      | None => None
      end
  end.

Definition str_of_nonneg (z : Z) : string :=
  NilZero.string_of_uint (N.to_uint (Z.to_N z)).

Fixpoint zeros (n : nat) : string :=
  match n with
  | O => ""
  | S n' => String "0" (zeros n')
  end.

(** *** [float(s)]

    Signed decimal literals [ddd], [ddd.ddd], [ddd.] and [.ddd].  The other
    spellings Python accepts (exponents, [inf], [nan], blanks, underscores)
    have no counterpart here and are answered with [None], like the
    [ValueError] of a malformed literal. *)
Definition unsigned_float (s : string) : option Q :=
  match split "." s with
  | [ip] =>
      match ip, digits_val 0 ip with
      | String _ _, Some n => Some (inject_Z n)
      | _, _ => None
      end
  | [ip; fp] =>
      match digits_val 0 ip, digits_val 0 fp with
      | Some n, Some f =>
          if (String.length ip + String.length fp =? 0)%nat then None
          else
            let scale := (10 ^ Z.of_nat (String.length fp))%Z in
            Some (Qmake (n * scale + f) (Z.to_pos scale))
      | _, _ => None
      end
  | _ => None
  end.

Definition float_of_str (s : string) : option Q :=
  match s with
  | String "-" s' => option_map Qopp (unsigned_float s')
  | String "+" s' => unsigned_float s'
  | _ => unsigned_float s
  end.

(** *** [str(x)] of a float, as an f-string inserts it

    The shortest-digits [repr]: at most 17 significant digits, fixed notation
    when the decimal point position [decpt] satisfies [-4 < decpt <= 16],
    with [.0] added to an integral value, exponent notation otherwise.  A
    rational with a longer expansion is rounded to 17 digits, half to even,
    where the binary float prints the 15 to 17 digits that identify it. *)

Fixpoint ndigits (fuel : nat) (z : Z) : Z :=
  match fuel with
  | O => 1
  | S f => if (z <? 10)%Z then 1 else (1 + ndigits f (z / 10))%Z
  end.

(** For [0 < n/d < 1]: the number of zeros between the point and the first
    significant digit. *)
Fixpoint leading_zeros (fuel : nat) (n d : Z) : Z :=
  match fuel with
  | O => 0
  | S f => if (d <=? 10 * n)%Z then 0 else (1 + leading_zeros f (10 * n) d)%Z
  end.

(** [decpt] with [10^(decpt-1) <= n/d < 10^decpt], for [0 < n/d]. *)
Definition decpt_of (n d : Z) : Z :=
  if (d <=? n)%Z then ndigits (Z.to_nat (Z.log2 n) + 1) (n / d)
  else (- leading_zeros (Z.to_nat (Z.log2 d) + 1) n d)%Z.

Definition round_half_even (n d : Z) : Z :=
  let q := (n / d)%Z in
  let r := (n mod d)%Z in
  match (2 * r ?= d)%Z with
  | Lt => q
  | Gt => (q + 1)%Z
  | Eq => if Z.even q then q else (q + 1)%Z
  end.

Fixpoint strip_zeros (fuel : nat) (m : Z) : Z :=
  match fuel with
  | O => m
  | S f => if ((m mod 10 =? 0) && (0 <? m))%Z then strip_zeros f (m / 10) else m
  end.

(** The significant digits (without trailing zeros) and [decpt] of [n/d]. *)
Definition sig_digits (n d : Z) : string * Z :=
  let e := decpt_of n d in
  let m := if (e <=? 17)%Z
           then round_half_even (n * 10 ^ (17 - e)) d
           else round_half_even n (d * 10 ^ (e - 17)) in
  let '(m, e) := if (m =? 10 ^ 17)%Z then ((10 ^ 16)%Z, (e + 1)%Z) else (m, e) in
  (str_of_nonneg (strip_zeros 17 m), e).

Definition two_digits (z : Z) : string :=
  if (z <? 10)%Z then "0" ++ str_of_nonneg z else str_of_nonneg z.

Definition unsigned_str (n d : Z) : string :=
  let '(ds, e) := sig_digits n d in
  let k := String.length ds in
  if ((-4 <? e) && (e <=? 16))%Z then
    if (e <=? 0)%Z then "0." ++ zeros (Z.to_nat (- e)) ++ ds
    else if (Z.of_nat k <=? e)%Z then ds ++ zeros (Z.to_nat e - k) ++ ".0"
    else substring 0 (Z.to_nat e) ds ++ "." ++ substring (Z.to_nat e) (k - Z.to_nat e) ds
  else
    let x := (e - 1)%Z in
    substring 0 1 ds
      ++ (if (k <=? 1)%nat then "" else "." ++ substring 1 (k - 1) ds)
      ++ "e" ++ (if (x <? 0)%Z then "-" else "+") ++ two_digits (Z.abs x).

Definition str_of_float (q : Q) : string :=
  let n := Qnum q in
  let d := Zpos (Qden q) in
  if (n =? 0)%Z then "0.0"
  else if (n <? 0)%Z then "-" ++ unsigned_str (- n) d
  else unsigned_str n d.

(** *** The IV/HV ratio

    [iv / hv_weighted] is a NumPy division when the divisor comes from the
    pandas kernel, and the blend is zero only then (the fallbacks are
    positive): a zero divisor gives [inf], [-inf] or [nan] with a warning,
    not an exception. *)
Inductive ratio : Type :=
| Fin (q : Q)
| PInf
| NInf
| NaN.

Definition np_div (a b : Q) : ratio :=
  if Qeq_bool b 0 then
    if Qltb 0 a then PInf else if Qltb a 0 then NInf else NaN
  else Fin (a / b).

(** [x < y] on ratios; every comparison with [nan] is false. *)
Definition rltb (x y : ratio) : bool :=
  match x, y with
  | NaN, _ | _, NaN => false
  | _, NInf => false
  | NInf, _ => true
  | PInf, _ => false
  | _, PInf => true
  | Fin a, Fin b => Qltb a b
  end.

Definition rgtb (x y : ratio) : bool := rltb y x.

End Py.

(** ** Naive local date-times ([datetime]) *)

Module Clock.

Local Open Scope Z_scope.

(** A naive [datetime]: proleptic Gregorian ordinal of the day (1 is
    0001-01-01) and microseconds elapsed in that day. *)
Record datetime : Type := { ordinal : Z; micros : Z }.

Definition us_per_day : Z := 86400000000.

Definition to_us (t : datetime) : Z := ordinal t * us_per_day + micros t.

(** [(a - b).days]: a [timedelta] is normalised with a floor division. *)
Definition days_between (a b : datetime) : Z := (to_us a - to_us b) / us_per_day.

Definition is_leap (y : Z) : bool :=
  (y mod 4 =? 0) && (negb (y mod 100 =? 0) || (y mod 400 =? 0)).

Definition days_before_year (y : Z) : Z :=
  let y' := y - 1 in
  y' * 365 + y' / 4 - y' / 100 + y' / 400.

Definition days_in_month (y m : Z) : Z :=
  if m =? 2 then (if is_leap y then 29 else 28)
  else if (m =? 4) || (m =? 6) || (m =? 9) || (m =? 11) then 30
  else 31.

Definition days_before_month (y m : Z) : Z :=
  nth (Z.to_nat m) [0; 0; 31; 59; 90; 120; 151; 181; 212; 243; 273; 304; 334] 0
  + (if (2 <? m) && is_leap y then 1 else 0).

Definition ymd2ord (y m d : Z) : Z :=
  days_before_year y + days_before_month y m + d.

(** 1970-01-01. *)
Definition epoch_ordinal : Z := 719163.

(** [datetime.fromtimestamp(ts_ms / 1000)] in a zone [utc_offset_us]
    microseconds east of UTC. *)
Definition fromtimestamp_ms (utc_offset_us ts_ms : Z) : datetime :=
  let us := epoch_ordinal * us_per_day + ts_ms * 1000 + utc_offset_us in
  {| ordinal := us / us_per_day; micros := us mod us_per_day |}.

Local Open Scope string_scope.

Definition lower_ascii (c : ascii) : ascii :=
  let n := nat_of_ascii c in
  if (65 <=? n)%nat && (n <=? 90)%nat then ascii_of_nat (n + 32) else c.

Fixpoint lower (s : string) : string :=
  match s with
  | EmptyString => EmptyString
  | String c s' => String (lower_ascii c) (lower s')
  end.

(** [%b], matched without regard to case (C locale). *)
Definition month_of (s : string) : option Z :=
  let l := lower s in
  if String.eqb l "jan" then Some 1%Z
  else if String.eqb l "feb" then Some 2%Z
  else if String.eqb l "mar" then Some 3%Z
  else if String.eqb l "apr" then Some 4%Z
  else if String.eqb l "may" then Some 5%Z
  else if String.eqb l "jun" then Some 6%Z
  else if String.eqb l "jul" then Some 7%Z
  else if String.eqb l "aug" then Some 8%Z
  else if String.eqb l "sep" then Some 9%Z
  else if String.eqb l "oct" then Some 10%Z
  else if String.eqb l "nov" then Some 11%Z
  else if String.eqb l "dec" then Some 12%Z
  else None.

(** [%d]: the alternatives [3[0-1] | [1-2]\d | 0[1-9] | [1-9] | " "[1-9]],
    in the order the regular expression tries them; each gives the day and
    the rest of the text. *)
Definition day_candidates (s : string) : list (Z * string) :=
  let two :=
    match s with
    | String a (String b rest) =>
        match Py.digit_of a, Py.digit_of b with
        | Some x, Some y =>
            if (((x =? 3) && (y <=? 1)) || ((1 <=? x) && (x <=? 2)) || ((x =? 0) && (1 <=? y)))%Z
            then [((10 * x + y)%Z, rest)] else []
        | _, _ => []
        end
    | _ => []
    end in
  let one :=
    match s with
    | String a rest =>
        match Py.digit_of a with
        | Some x => if (1 <=? x)%Z then [(x, rest)] else []
        | None => []
        end
    | _ => []
    end in
  let blank :=
    match s with
    | String " " (String b rest) =>
        match Py.digit_of b with
        | Some y => if (1 <=? y)%Z then [(y, rest)] else []
        | None => []
        end
    | _ => []
    end in
  two ++ one ++ blank.

(** [%b%y] at the head of [s]: month, two-digit year, and what is left. *)
Definition month_year (s : string) : option (Z * Z * string) :=
  match month_of (substring 0 3 s), substring 3 2 s with
  | Some m, String a (String b EmptyString) =>
      match Py.digit_of a, Py.digit_of b with
      | Some x, Some y =>
          Some (m, (10 * x + y)%Z, substring 5 (String.length s - 5) s)
      | _, _ => None
      end
  | _, _ => None
  end.

Fixpoint first_match (cands : list (Z * string)) : option (Z * Z * Z * string) :=
  match cands with
  | [] => None
  | (d, rest) :: cs =>
      match month_year rest with
      | Some (m, y, tail) => Some (d, m, y, tail)
      | None => first_match cs
      end
  end.

(** [datetime.strptime(s, "%d%b%y")]; [None] is [ValueError]: no match,
    unconverted data left, or a day the month does not have. *)
Definition strptime_dby (s : string) : option datetime :=
  match first_match (day_candidates s) with
  | Some (d, m, yy, tail) =>
      if negb (String.eqb tail "") then None
      else
        let y := (if yy <=? 68 then 2000 + yy else 1900 + yy)%Z in
        if (d <=? days_in_month y m)%Z
        then Some {| ordinal := ymd2ord y m d; micros := 0 |}
        else None
  | None => None
  end.

End Clock.

(** ** [config.py] *)

Module Config.

Local Open Scope Q_scope.

Definition CAPITAL_TOTAL : Q := 300.
Definition CAPITAL_ACTIF : Q := CAPITAL_TOTAL * 0.5.
Definition MAX_POSITION_SIZE : Q := CAPITAL_ACTIF * 0.1.
Definition MAX_POSITIONS : nat := 5.

Definition IV_HV_HIGH_THRESHOLD : Q := 1.3.
Definition IV_HV_LOW_THRESHOLD : Q := 0.7.
Definition HV_WINDOW_SHORT : Z := 7.
Definition HV_WINDOW_MEDIUM : Z := 14.
Definition HV_WINDOW_LONG : Z := 30.
Definition HV_WEIGHTS : list Q := [0.5; 0.3; 0.2].

Definition PROFIT_TARGET_PCT : Q := 0.5.
Definition STOP_LOSS_PCT : Q := 0.5.
Definition MIN_DAYS_TO_EXPIRY : Z := 7.
Definition MAX_DAYS_TO_EXPIRY : Z := 21.
Definition STRIKE_SPREAD_PCT : Q := 0.05.

Definition BTC_CONTRACT_SIZE : Q := 0.01.
Definition ETH_CONTRACT_SIZE : Q := 0.1.

End Config.

(** ** The exchange gateway ([DeribitClient]) *)

Module Gateway.

(** An answer of [get_public] / [get_private] / [post_private]: a dictionary
    with an ["error"] key, or one whose ["result"] key may be missing. *)
Inductive api_reply (A : Type) : Type :=
| ApiError
| ApiResult (result : option A).
Arguments ApiError {A}.

(** The idiom of every wrapper of an end point:
    [if "error" in result: return None], then
    [return result.get("result", default)]. *)
Definition result_or {A : Type} (default : A) (r : api_reply A) : option A :=
  match r with
  | ApiError => None
  | ApiResult (Some a) => Some a
  | ApiResult None => Some default
  end.

(** A price level [[price, size]]. *)
Definition level : Type := (Q * Q)%type.

(** [public/get_order_book]. *)
Record Book : Type := {
  asks : option (list level);
  bids : option (list level);
  mark_iv : option Q }.

(** The empty dictionary, default of [result.get("result", {})]. *)
Definition empty_book : Book := {| asks := None; bids := None; mark_iv := None |}.

Definition book_truthy (b : Book) : bool :=
  match asks b, bids b, mark_iv b with
  | None, None, None => false
  | _, _, _ => true
  end.

(** [public/get_instruments]. *)
Record OptionInfo : Type := {
  opt_instrument_name : string;
  opt_expiration_timestamp : Z;
  opt_strike : Q;
  opt_option_type : string }.

(** [public/get_tradingview_chart_data]. *)
Record HistData : Type := { close : option (list Q) }.

Definition empty_hist : HistData := {| close := None |}.

(** [private/get_positions]. *)
Record Position : Type := {
  pos_instrument_name : option string;
  pos_average_price : option Q;
  pos_mark_price : option Q;
  pos_size : option Q;
  pos_direction : option string }.

(** The parameters of [private/buy] and [private/sell]. *)
Record OrderParams : Type := {
  method : string;
  instrument_name : string;
  amount : Q;
  order_type : string;
  price : option Q;
  label : option string }.

(** The result of an order or of a cancellation, kept as a dictionary. *)
Definition OrderDict : Type := list (string * string).

Fixpoint dict_get (d : OrderDict) (key : string) : option string :=
  match d with
  | [] => None
  | (k, v) :: d' => if String.eqb k key then Some v else dict_get d' key
  end.

Definition dict_truthy (d : OrderDict) : bool :=
  match d with
  | [] => false
  | _ :: _ => true
  end.

(** One request with the answer it got. *)
Inductive event : Type :=
| EvOrderBook (instrument : string) (depth : Z) (r : api_reply Book)
| EvInstruments (currency : string) (r : api_reply (list OptionInfo))
| EvChart (instrument resolution : string) (limit : Z) (r : api_reply HistData)
| EvPositions (currency : string) (r : api_reply (list Position))
| EvOrder (params : OrderParams) (r : api_reply OrderDict)
| EvCancel (order_id : option string) (r : api_reply OrderDict).

(** The exchange and the wall clock: each answer may depend on everything
    that was asked before. *)
Record Exchange : Type := {
  ex_order_book : list event -> string -> Z -> api_reply Book;
  ex_instruments : list event -> string -> api_reply (list OptionInfo);
  ex_chart : list event -> string -> string -> Z -> api_reply HistData;
  ex_positions : list event -> string -> api_reply (list Position);
  ex_order : list event -> OrderParams -> api_reply OrderDict;
  ex_cancel : list event -> option string -> api_reply OrderDict;
  ex_clock : list event -> Clock.datetime;
  ex_utc_offset : Z }.

(** A computation reads the history and returns a value with the events it
    added. *)
Definition M (A : Type) : Type := list event -> A * list event.

Definition ret {A : Type} (a : A) : M A := fun _ => (a, []).

Definition bind {A B : Type} (m : M A) (f : A -> M B) : M B :=
  fun h =>
    let '(a, e1) := m h in
    let '(b, e2) := f a (h ++ e1) in
    (b, e1 ++ e2).

Definition request {A : Type} (answer : list event -> api_reply A)
    (record : api_reply A -> event) : M (api_reply A) :=
  fun h => let r := answer h in (r, [record r]).

Section Calls.

Variable ex : Exchange.

Definition order_book (instrument : string) (depth : Z) : M (api_reply Book) :=
  request (fun h => ex_order_book ex h instrument depth) (EvOrderBook instrument depth).

Definition instruments (currency : string) : M (api_reply (list OptionInfo)) :=
  request (fun h => ex_instruments ex h currency) (EvInstruments currency).

Definition chart (instrument resolution : string) (limit : Z) : M (api_reply HistData) :=
  request (fun h => ex_chart ex h instrument resolution limit)
          (EvChart instrument resolution limit).

Definition positions (currency : string) : M (api_reply (list Position)) :=
  request (fun h => ex_positions ex h currency) (EvPositions currency).

Definition order (params : OrderParams) : M (api_reply OrderDict) :=
  request (fun h => ex_order ex h params) (EvOrder params).

Definition cancel (order_id : option string) : M (api_reply OrderDict) :=
  request (fun h => ex_cancel ex h order_id) (EvCancel order_id).

(** [datetime.now()]. *)
Definition now : M Clock.datetime := fun h => (ex_clock ex h, []).

End Calls.

End Gateway.

Declare Scope gateway_scope.
Delimit Scope gateway_scope with gw.
Notation "x <- m ;; k" := (Gateway.bind m (fun x => k))
  (at level 61, m at next level, right associativity) : gateway_scope.

(** ** [volatility_analyzer.py] *)

Module Analyzer.

Import Py Clock Config Gateway.
Local Open Scope string_scope.
Local Open Scope gateway_scope.

(** An entry of the list built by the scan. *)
Record Opportunity : Type := {
  op_type : string;
  op_instrument : string;
  op_iv : Q;
  op_hv : Q;
  op_iv_hv_ratio : ratio;
  op_days_to_expiry : Z;
  op_strike : Q;
  op_option_type : string }.

(** The test of lines 220 and 233: the kind of opportunity a ratio gives,
    [None] when neither branch is taken. *)
Definition classify (iv_hv_ratio : ratio) : option string :=
  if rgtb iv_hv_ratio (Fin IV_HV_HIGH_THRESHOLD) then Some "sell"
  else if rltb iv_hv_ratio (Fin IV_HV_LOW_THRESHOLD) then Some "buy"
  else None.

(** [sorted(l, key=..., reverse=...)]: a stable sort that compares keys with
    [<] only; with [reverse] the list is reversed, sorted and reversed
    again. *)
Section Sorting.

Variable A : Type.
Variable key : A -> ratio.

Fixpoint insert (x : A) (l : list A) : list A :=
  match l with
  | [] => [x]
  | y :: l' => if rltb (key y) (key x) then y :: insert x l' else x :: y :: l'
  end.

Definition sort (l : list A) : list A := fold_right insert [] l.

Definition sorted (l : list A) (reverse : bool) : list A :=
  if reverse then rev (sort (rev l)) else sort l.

End Sorting.

Section WithExchange.

Variable ex : Exchange.

(** [returns.rolling(window).std().iloc[-1] * sqrt(365)] on the log returns
    of [prices]. *)
Variable rolling_volatility : list Q -> Z -> Q.

Definition get_historical_data (currency resolution : string) (limit : Z)
  : M (option HistData) :=
  result <- chart ex (currency ++ "-PERPETUAL") resolution limit ;;
  ret (result_or empty_hist result).

Definition calculate_historical_volatility (prices : list Q) (window : Z)
  : option Q :=
  if (Z.of_nat (List.length prices) <? window + 1)%Z then None
  else if (List.length prices <=? 1)%nat then None
  else Some (rolling_volatility prices window).

Definition blend (hv_short hv_medium hv_long : Q) : Q :=
  (hv_short * nth 0 HV_WEIGHTS 0
   + hv_medium * nth 1 HV_WEIGHTS 0
   + hv_long * nth 2 HV_WEIGHTS 0)%Q.

Definition calculate_weighted_historical_volatility (currency : string)
  : M (option Q) :=
  hist_data <- get_historical_data currency "1D" (Z.max HV_WINDOW_LONG 30 + 10) ;;
  match hist_data with
  | None => ret None
  | Some d =>
      match close d with
      | None => ret None
      | Some prices =>
          let hv_short := calculate_historical_volatility prices HV_WINDOW_SHORT in
          let hv_medium := calculate_historical_volatility prices HV_WINDOW_MEDIUM in
          let hv_long := calculate_historical_volatility prices HV_WINDOW_LONG in
          match hv_short, hv_medium, hv_long with
          | Some s, Some m, Some l => ret (Some (blend s m l))
          | _, _, _ =>
              ret (Some (blend (num_or hv_short 0.8)
                               (num_or hv_medium 0.7)
                               (num_or hv_long 0.6)))
          end
      end
  end.

Definition get_option_volatility (instrument_name : string) : M (option Q) :=
  result <- order_book ex instrument_name 1 ;;
  match result_or empty_book result with
  | None => ret None
  | Some b => ret (mark_iv b)
  end.

Definition get_available_options (currency : string) (kind : option string)
  : M (list OptionInfo) :=
  result <- instruments ex currency ;;
  match result with
  | ApiError => ret []
  | ApiResult r =>
      let options := match r with Some l => l | None => [] end in
      if truthy_str kind then
        let k := match kind with Some k => k | None => "" end in
        ret (filter (fun opt => String.eqb (lower (opt_option_type opt)) (lower k))
                    options)
      else ret options
  end.

(** The loop over the listed options. *)
Fixpoint scan_options (hv_weighted : Q) (options : list OptionInfo)
    (opportunities : list Opportunity) : M (list Opportunity) :=
  match options with
  | [] => ret opportunities
  | option :: rest =>
      let expiry := fromtimestamp_ms (ex_utc_offset ex) (opt_expiration_timestamp option) in
      t <- now ex ;;
      let days_to_expiry := days_between expiry t in
      if ((MIN_DAYS_TO_EXPIRY <=? days_to_expiry)
          && (days_to_expiry <=? MAX_DAYS_TO_EXPIRY))%Z
      then
        iv <- get_option_volatility (opt_instrument_name option) ;;
        match iv with
        | None => scan_options hv_weighted rest opportunities
        | Some iv =>
            let iv_hv_ratio := np_div iv hv_weighted in
            match classify iv_hv_ratio with
            | Some ty =>
                scan_options hv_weighted rest
                  (opportunities ++
                   [{| op_type := ty;
                       op_instrument := opt_instrument_name option;
                       op_iv := iv;
                       op_hv := hv_weighted;
                       op_iv_hv_ratio := iv_hv_ratio;
                       op_days_to_expiry := days_to_expiry;
                       op_strike := opt_strike option;
                       op_option_type := opt_option_type option |}])%list
            | None => scan_options hv_weighted rest opportunities
            end
        end
      else scan_options hv_weighted rest opportunities
  end.

Definition find_volatility_arbitrage_opportunities (currency : string)
  : M (list Opportunity) :=
  hv_weighted <- calculate_weighted_historical_volatility currency ;;
  match hv_weighted with
  | None => ret []
  | Some hv =>
      options <- get_available_options currency None ;;
      opportunities <- scan_options hv options [] ;;
      let sell_opportunities :=
        sorted op_iv_hv_ratio
               (filter (fun op => String.eqb (op_type op) "sell") opportunities)
               true in
      let buy_opportunities :=
        sorted op_iv_hv_ratio
               (filter (fun op => String.eqb (op_type op) "buy") opportunities)
               false in
      ret (sell_opportunities ++ buy_opportunities)%list
  end.

End WithExchange.

End Analyzer.

(** ** [options_trader.py] *)

Module Trader.

Import Py Clock Config Gateway Analyzer.
Local Open Scope string_scope.
Local Open Scope gateway_scope.

(** The dictionary returned by a successful [create_vertical_spread]; the
    time stamp is kept as the date-time that [isoformat] would print. *)
Record SpreadResult : Type := {
  spread_type : string;
  buy_option : string;
  sell_option : string;
  buy_order : OrderDict;
  sell_order : OrderDict;
  net_cost : Q;
  spread_amount : Q;
  timestamp : datetime }.

(** The dictionaries returned by [execute_volatility_arbitrage_strategy]. *)
Inductive StrategyResult : Type :=
| MaxPositionsReached (positions : nat)
| NoOpportunities
| Success (opportunity : Opportunity) (spread : SpreadResult)
| Failed (opportunity : Opportunity) (reason : string).

Inductive pyexc : Type := IndexError | ValueError.

Inductive outcome (A : Type) : Type :=
| Returned (a : A)
| Raised (e : pyexc).
Arguments Raised {A}.

(** An entry of the list returned by [manage_positions]. *)
Record Action : Type := {
  act_instrument : string;
  act_action : string;
  act_pnl_pct : Q;
  act_order : OrderDict }.

(** [f"{currency}-{expiry}-{strike}-{kind}"] with a float strike. *)
Definition leg_name (currency expiry : string) (strike : Q) (kind : string) : string :=
  currency ++ "-" ++ expiry ++ "-" ++ str_of_float strike ++ "-" ++ kind.

(** The legs chosen by lines 179-197: [(buy_option, sell_option)], [None]
    for an unknown kind of spread. *)
Definition spread_legs (currency spread_type : string) (strike1 strike2 : Q)
    (expiry : string) : option (string * string) :=
  if String.eqb spread_type "bull_call" then
    Some (leg_name currency expiry strike1 "C", leg_name currency expiry strike2 "C")
  else if String.eqb spread_type "bear_call" then
    Some (leg_name currency expiry strike2 "C", leg_name currency expiry strike1 "C")
  else if String.eqb spread_type "bull_put" then
    Some (leg_name currency expiry strike1 "P", leg_name currency expiry strike2 "P")
  else if String.eqb spread_type "bear_put" then
    Some (leg_name currency expiry strike2 "P", leg_name currency expiry strike1 "P")
  else None.

(** [p.get("instrument_name", "").endswith("-C") or ... .endswith("-P")]. *)
Definition is_option_position (p : Position) : bool :=
  let name := match pos_instrument_name p with Some s => s | None => "" end in
  endswith name "-C" || endswith name "-P".

(** [all([instrument, entry_price, current_price, size, direction])]. *)
Definition complete (p : Position) : bool :=
  truthy_str (pos_instrument_name p)
  && truthy_num (pos_average_price p)
  && truthy_num (pos_mark_price p)
  && truthy_num (pos_size p)
  && truthy_str (pos_direction p).

(** Line 359. *)
Definition pnl_pct_of (direction : string) (entry_price current_price : Q) : Q :=
  if String.eqb direction "buy"
  then ((current_price - entry_price) / entry_price)%Q
  else ((entry_price - current_price) / entry_price)%Q.

(** The method and the parameters [place_order] sends: the sign of the
    amount picks the end point, a falsy price or label is left out. *)
Definition order_params (instrument_name : string) (amount : Q) (type : string)
    (price : option Q) (label : option string) : OrderParams :=
  {| method := if Qgtb amount 0 then "private/buy" else "private/sell";
     instrument_name := instrument_name;
     amount := Qabs amount;
     order_type := type;
     price := if truthy_num price then price else None;
     label := if truthy_str label then label else None |}.

Section WithExchange.

Variable ex : Exchange.
Variable rolling_volatility : list Q -> Z -> Q.

Definition get_positions (currency : string) : M (list Position) :=
  result <- positions ex currency ;;
  match result with
  | ApiError => ret []
  | ApiResult (Some l) => ret l
  | ApiResult None => ret []
  end.

Definition get_order_book (instrument_name : string) (depth : Z) : M (option Book) :=
  result <- order_book ex instrument_name depth ;;
  ret (result_or empty_book result).

Definition place_order (instrument_name : string) (amount : Q) (type : string)
    (price : option Q) (label : option string) : M (option OrderDict) :=
  result <- order ex (order_params instrument_name amount type price label) ;;
  ret (result_or [] result).

Definition cancel_order (order_id : option string) : M (option OrderDict) :=
  result <- cancel ex order_id ;;
  ret (result_or [] result).

(** Truthiness of what [place_order] and [get_order_book] return. *)
Definition order_truthy (o : option OrderDict) : bool :=
  match o with
  | Some d => dict_truthy d
  | None => false
  end.

Definition create_vertical_spread (currency spread_type : string)
    (strike1 strike2 : Q) (expiry : string) (amount : Q) : M (option SpreadResult) :=
  match spread_legs currency spread_type strike1 strike2 expiry with
  | None => ret None
  | Some (buy_option, sell_option) =>
      buy_book <- get_order_book buy_option 5 ;;
      sell_book <- get_order_book sell_option 5 ;;
      match buy_book, sell_book with
      | Some bb, Some sb =>
          if negb (book_truthy bb) || negb (book_truthy sb) then ret None
          else
            match asks bb, bids sb with
            | Some ((buy_price, _) :: _), Some ((sell_price, _) :: _) =>
                let net_cost := ((buy_price - sell_price) * amount)%Q in
                if Qgtb (Qabs net_cost) MAX_POSITION_SIZE then ret None
                else
                  buy_order <- place_order buy_option amount "limit" (Some buy_price)
                                 (Some ("spread_" ++ spread_type ++ "_buy")) ;;
                  match buy_order with
                  | Some bo =>
                      if negb (dict_truthy bo) then ret None
                      else
                        sell_order <- place_order sell_option (- amount) "limit"
                                        (Some sell_price)
                                        (Some ("spread_" ++ spread_type ++ "_sell")) ;;
                        if order_truthy sell_order then
                          t <- now ex ;;
                          ret (Some {| spread_type := spread_type;
                                       buy_option := buy_option;
                                       sell_option := sell_option;
                                       buy_order := bo;
                                       sell_order :=
                                         match sell_order with Some so => so | None => [] end;
                                       net_cost := net_cost;
                                       spread_amount := amount;
                                       timestamp := t |})
                        else
                          _ <- cancel_order (dict_get bo "order_id") ;;
                          ret None
                  | None => ret None
                  end
            | _, _ => ret None
            end
      | _, _ => ret None
      end
  end.

(** Lines 280-329: the spread for the opportunity picked by the strategy. *)
Definition trade_opportunity (currency : string) (best_opportunity : Opportunity)
  : M (outcome StrategyResult) :=
  let contract_size :=
    if String.eqb currency "BTC" then BTC_CONTRACT_SIZE else ETH_CONTRACT_SIZE in
  let parts := split "-" (op_instrument best_opportunity) in
  match nth_error parts 0, nth_error parts 1, nth_error parts 2 with
  | Some currency, Some expiry, Some strike_text =>
      match float_of_str strike_text with
      | None => ret (Raised ValueError)
      | Some strike =>
          match nth_error parts 3 with
          | None => ret (Raised IndexError)
          | Some option_type =>
              let strike_diff := (strike * STRIKE_SPREAD_PCT)%Q in
              spread_result <-
                (if String.eqb (op_type best_opportunity) "sell" then
                   if String.eqb option_type "C" then
                     create_vertical_spread currency "bear_call"
                       strike (strike + strike_diff)%Q expiry contract_size
                   else
                     create_vertical_spread currency "bear_put"
                       (strike - strike_diff)%Q strike expiry contract_size
                 else
                   if String.eqb option_type "C" then
                     create_vertical_spread currency "bull_call"
                       strike (strike + strike_diff)%Q expiry contract_size
                   else
                     create_vertical_spread currency "bull_put"
                       (strike - strike_diff)%Q strike expiry contract_size) ;;
              match spread_result with
              | Some s => ret (Returned (Success best_opportunity s))
              | None =>
                  ret (Returned (Failed best_opportunity
                                   "Échec de la création du spread"))
              end
          end
      end
  | _, _, _ => ret (Raised IndexError)
  end.

Definition execute_volatility_arbitrage_strategy (currency : string)
  : M (outcome StrategyResult) :=
  positions <- get_positions currency ;;
  let option_positions := filter is_option_position positions in
  if (MAX_POSITIONS <=? List.length option_positions)%nat
  then ret (Returned (MaxPositionsReached (List.length option_positions)))
  else
    opportunities <-
      find_volatility_arbitrage_opportunities ex rolling_volatility currency ;;
    match opportunities with
    | [] => ret (Returned NoOpportunities)
    | best_opportunity :: _ => trade_opportunity currency best_opportunity
    end.

(** Lines 361-384: the exit rules, the last one overwriting the others. *)
Definition select_action (instrument : string) (pnl_pct : Q) : M (option string) :=
  let action :=
    if Qgeb pnl_pct PROFIT_TARGET_PCT then Some "take_profit"
    else if Qle_bool pnl_pct (- STOP_LOSS_PCT) then Some "stop_loss"
    else None in
  let expiry_parts := split "-" instrument in
  if (2 <=? List.length expiry_parts)%nat then
    match strptime_dby (nth 1 expiry_parts "") with
    | Some expiry_date =>
        t <- now ex ;;
        let days_to_expiry := days_between expiry_date t in
        if (days_to_expiry <=? 2)%Z then ret (Some "close_to_expiry") else ret action
    | None => ret action
    end
  else ret action.

(** The body of the loop of [manage_positions]. *)
Definition review_position (position : Position) (actions : list Action)
  : M (list Action) :=
  if negb (complete position) then ret actions
  else
    match pos_instrument_name position, pos_average_price position,
          pos_mark_price position, pos_size position, pos_direction position with
    | Some instrument, Some entry_price, Some current_price, Some size, Some direction =>
        let pnl_pct := pnl_pct_of direction entry_price current_price in
        action <- select_action instrument pnl_pct ;;
        match action with
        | Some a =>
            close_order <- place_order instrument
                             (if String.eqb direction "buy" then (- size)%Q else size)
                             "market" None (Some ("close_" ++ a)) ;;
            match close_order with
            | Some o =>
                if dict_truthy o then
                  ret (actions ++ [{| act_instrument := instrument;
                                      act_action := a;
                                      act_pnl_pct := pnl_pct;
                                      act_order := o |}])%list
                else ret actions
            | None => ret actions
            end
        | None => ret actions
        end
    | _, _, _, _, _ => ret actions
    end.

Fixpoint review_positions (option_positions : list Position) (actions : list Action)
  : M (list Action) :=
  match option_positions with
  | [] => ret actions
  | position :: rest =>
      actions' <- review_position position actions ;;
      review_positions rest actions'
  end.

Definition manage_positions (currency : string) : M (list Action) :=
  positions <- get_positions currency ;;
  review_positions (filter is_option_position positions) [].

End WithExchange.

End Trader.

(** ** Vocabulary of the statements *)

Module Props.

Import Py Clock Config Gateway Analyzer Trader.
Local Open Scope string_scope.

(** [x <= y] on ratios, false as soon as one side is [nan]. *)
Definition rleb (x y : ratio) : bool :=
  match x, y with
  | NaN, _ | _, NaN => false
  | NInf, _ => true
  | _, PInf => true
  | Fin a, Fin b => Qle_bool a b
  | _, _ => false
  end.

(** The order of two entries by their keys. *)
Definition key_le {A : Type} (key : A -> ratio) (a b : A) : Prop :=
  rleb (key a) (key b) = true.

Definition key_number {A : Type} (key : A -> ratio) (a : A) : Prop :=
  key a <> NaN.

(** Non-decreasing and non-increasing ratios along a list of opportunities. *)
Definition ratio_le (a b : Opportunity) : Prop := key_le op_iv_hv_ratio a b.

Definition ratio_ge (a b : Opportunity) : Prop := ratio_le b a.

(** An entry that carries the kind its ratio is given by [classify]. *)
Definition classified (op : Opportunity) : Prop :=
  classify (op_iv_hv_ratio op) = Some (op_type op).

(** The strike written in an instrument name, read back the way the
    strategy reads it. *)
Definition leg_strike (name : string) : option Q :=
  match nth_error (split "-" name) 2 with
  | Some text => option_map Qred (float_of_str text)
  | None => None
  end.

(** Whether a character occurs in a text. *)
Fixpoint has_char (c : ascii) (s : string) : bool :=
  match s with
  | EmptyString => false
  | String x s' => Ascii.eqb x c || has_char c s'
  end.

(** The price series carried by an answer of the chart end point. *)
Definition fetched_series (r : api_reply HistData) : option (list Q) :=
  match r with
  | ApiResult (Some d) => close d
  | _ => None
  end.

(** The dictionary of an order the program takes as placed: an answer
    without error whose result is not empty. *)
Definition accepted (r : api_reply OrderDict) : option OrderDict :=
  match r with
  | ApiResult (Some d) => if dict_truthy d then Some d else None
  | _ => None
  end.

(** The four ways a spread construction that has chosen its legs can go,
    with the value returned and the requests made: the books or the budget
    stop it; the purchase is refused; the purchase is accepted and the sale
    refused, and a cancellation is sent; both orders are accepted. *)
Inductive spread_run (buy_leg sell_leg kind : string) (amount : Q)
  : option SpreadResult -> list event -> Prop :=
| Stopped (rb rs : api_reply Book) :
    spread_run buy_leg sell_leg kind amount None
      [EvOrderBook buy_leg 5 rb; EvOrderBook sell_leg 5 rs]
| BuyRefused (rb rs : api_reply Book) (ask : Q) (r1 : api_reply OrderDict) :
    accepted r1 = None ->
    spread_run buy_leg sell_leg kind amount None
      [EvOrderBook buy_leg 5 rb; EvOrderBook sell_leg 5 rs;
       EvOrder (order_params buy_leg amount "limit" (Some ask)
                  (Some ("spread_" ++ kind ++ "_buy"))) r1]
| SellRefused (rb rs : api_reply Book) (ask bid : Q) (r1 r2 rc : api_reply OrderDict)
    (d : OrderDict) :
    accepted r1 = Some d ->
    accepted r2 = None ->
    spread_run buy_leg sell_leg kind amount None
      [EvOrderBook buy_leg 5 rb; EvOrderBook sell_leg 5 rs;
       EvOrder (order_params buy_leg amount "limit" (Some ask)
                  (Some ("spread_" ++ kind ++ "_buy"))) r1;
       EvOrder (order_params sell_leg (- amount) "limit" (Some bid)
                  (Some ("spread_" ++ kind ++ "_sell"))) r2;
       EvCancel (dict_get d "order_id") rc]
| Built (bb sb : Book) (ask asz bid bsz : Q) (arest brest : list level)
    (r1 r2 : api_reply OrderDict) (d1 d2 : OrderDict) (t : datetime) :
    asks bb = Some ((ask, asz) :: arest) ->
    bids sb = Some ((bid, bsz) :: brest) ->
    Qgtb (Qabs ((ask - bid) * amount)) MAX_POSITION_SIZE = false ->
    accepted r1 = Some d1 ->
    accepted r2 = Some d2 ->
    spread_run buy_leg sell_leg kind amount
      (Some {| spread_type := kind;
               buy_option := buy_leg;
               sell_option := sell_leg;
               buy_order := d1;
               sell_order := d2;
               net_cost := (ask - bid) * amount;
               spread_amount := amount;
               timestamp := t |})
      [EvOrderBook buy_leg 5 (ApiResult (Some bb));
       EvOrderBook sell_leg 5 (ApiResult (Some sb));
       EvOrder (order_params buy_leg amount "limit" (Some ask)
                  (Some ("spread_" ++ kind ++ "_buy"))) r1;
       EvOrder (order_params sell_leg (- amount) "limit" (Some bid)
                  (Some ("spread_" ++ kind ++ "_sell"))) r2].

(** The order that closes a position in full. *)
Definition close_params (instrument direction : string) (size : Q) (reason : string)
  : OrderParams :=
  {| method := if String.eqb direction "buy"
               then (if Qgtb (- size) 0 then "private/buy" else "private/sell")
               else (if Qgtb size 0 then "private/buy" else "private/sell");
     instrument_name := instrument;
     amount := Qabs (if String.eqb direction "buy" then (- size)%Q else size);
     order_type := "market";
     price := None;
     label := Some ("close_" ++ reason) |}.

End Props.

(** ** Concrete exchanges and records used in the examples *)

Module Scenario.

Import Py Clock Config Gateway Analyzer Trader.
Local Open Scope string_scope.
Local Open Scope Q_scope.

(** 2023-06-20 12:00. *)
Definition noon_20jun23 : datetime :=
  {| ordinal := 738691; micros := 43200000000 |}.

(** 2023-06-29 10:00. *)
Definition morning_29jun23 : datetime :=
  {| ordinal := 738700; micros := 36000000000 |}.

Definition book_120_150 : Book :=
  {| asks := Some [(120, 1)]; bids := Some [(150, 1)]; mark_iv := Some 85 |}.

Definition filled : OrderDict := [("order_id", "ETH-1")].

(** Every request fails. *)
Definition silent : Exchange :=
  {| ex_order_book := fun _ _ _ => ApiError;
     ex_instruments := fun _ _ => ApiError;
     ex_chart := fun _ _ _ _ => ApiError;
     ex_positions := fun _ _ => ApiError;
     ex_order := fun _ _ => ApiError;
     ex_cancel := fun _ _ => ApiError;
     ex_clock := fun _ => noon_20jun23;
     ex_utc_offset := 0 |}.

(** Every book quotes ask 120 and bid 150; every order is accepted. *)
Definition liquid : Exchange :=
  {| ex_order_book := fun _ _ _ => ApiResult (Some book_120_150);
     ex_instruments := fun _ _ => ApiError;
     ex_chart := fun _ _ _ _ => ApiError;
     ex_positions := fun _ _ => ApiError;
     ex_order := fun _ _ => ApiResult (Some filled);
     ex_cancel := fun _ _ => ApiResult (Some filled);
     ex_clock := fun _ => noon_20jun23;
     ex_utc_offset := 0 |}.

(** Purchases are accepted, sales are refused; the cancellation answers
    [cancel_reply]. *)
Definition one_sided (cancel_reply : api_reply OrderDict) : Exchange :=
  {| ex_order_book := fun _ _ _ => ApiResult (Some book_120_150);
     ex_instruments := fun _ _ => ApiError;
     ex_chart := fun _ _ _ _ => ApiError;
     ex_positions := fun _ _ => ApiError;
     ex_order := fun _ p =>
       if String.eqb (method p) "private/buy" then ApiResult (Some filled)
       else ApiError;
     ex_cancel := fun _ _ => cancel_reply;
     ex_clock := fun _ => noon_20jun23;
     ex_utc_offset := 0 |}.

(** The clock of [liquid] moved to the eve of the 30JUN23 expiry. *)
Definition near_expiry : Exchange :=
  {| ex_order_book := ex_order_book liquid;
     ex_instruments := ex_instruments liquid;
     ex_chart := ex_chart liquid;
     ex_positions := ex_positions liquid;
     ex_order := ex_order liquid;
     ex_cancel := ex_cancel liquid;
     ex_clock := fun _ => morning_29jun23;
     ex_utc_offset := 0 |}.

(** Twenty daily closes at the same price: the 7 and 14 day windows
    compute, the 30 day window does not. *)
Definition flat_prices : list Q := repeat 30000 20.

Definition flat_chart : Exchange :=
  {| ex_order_book := ex_order_book liquid;
     ex_instruments := ex_instruments liquid;
     ex_chart := fun _ _ _ _ => ApiResult (Some {| close := Some flat_prices |});
     ex_positions := ex_positions liquid;
     ex_order := ex_order liquid;
     ex_cancel := ex_cancel liquid;
     ex_clock := ex_clock liquid;
     ex_utc_offset := 0 |}.

(** A kernel that finds no dispersion, as on a constant series. *)
Definition no_dispersion : list Q -> Z -> Q := fun _ _ => 0.

(** A market with four listed options expiring on 30JUN23 at 08:00 UTC,
    forty daily closes, and a kernel that answers 60 for every window. *)
Definition listed (name : string) (strike : Q) (kind : string) : OptionInfo :=
  {| opt_instrument_name := name;
     opt_expiration_timestamp := 1688112000000;
     opt_strike := strike;
     opt_option_type := kind |}.

Definition quoted_iv (name : string) : option Q :=
  if String.eqb name "BTC-30JUN23-25000-C" then Some 85
  else if String.eqb name "BTC-30JUN23-26000-C" then Some 100
  else if String.eqb name "BTC-30JUN23-24000-P" then Some 30
  else if String.eqb name "BTC-30JUN23-27000-C" then Some 60
  else None.

Definition market : Exchange :=
  {| ex_order_book := fun _ name _ =>
       ApiResult (Some {| asks := Some [(120, 1)];
                          bids := Some [(150, 1)];
                          mark_iv := quoted_iv name |});
     ex_instruments := fun _ _ =>
       ApiResult (Some [listed "BTC-30JUN23-25000-C" 25000 "call";
                        listed "BTC-30JUN23-24000-P" 24000 "put";
                        listed "BTC-30JUN23-27000-C" 27000 "call";
                        listed "BTC-30JUN23-26000-C" 26000 "call"]);
     ex_chart := fun _ _ _ _ => ApiResult (Some {| close := Some (repeat 30000 40) |});
     ex_positions := fun _ _ => ApiResult (Some []);
     ex_order := fun _ _ => ApiResult (Some filled);
     ex_cancel := fun _ _ => ApiResult (Some filled);
     ex_clock := fun _ => noon_20jun23;
     ex_utc_offset := 0 |}.

Definition steady : list Q -> Z -> Q := fun _ _ => 60.

Definition opportunity_on (kind instrument option_type : string) : Opportunity :=
  {| op_type := kind;
     op_instrument := instrument;
     op_iv := 85;
     op_hv := 60;
     op_iv_hv_ratio := Fin (85 / 60);
     op_days_to_expiry := 10;
     op_strike := 25000;
     op_option_type := option_type |}.

(** A long call bought at 100 and marked at 160. *)
Definition long_call (size : option Q) : Position :=
  {| pos_instrument_name := Some "BTC-30JUN23-25000-C";
     pos_average_price := Some 100;
     pos_mark_price := Some 160;
     pos_size := size;
     pos_direction := Some "buy" |}.

End Scenario.

(** ** Vocabulary of the further statements *)

Module Further.

Import Py Clock Config Gateway Analyzer Trader Props.
Local Open Scope string_scope.

(** A request that reads market data. *)
Definition reads_market (e : event) : bool :=
  match e with
  | EvOrderBook _ _ _ | EvInstruments _ _ | EvChart _ _ _ _ => true
  | _ => false
  end.

(** A request that neither places nor cancels an order. *)
Definition sends_no_order (e : event) : bool :=
  match e with
  | EvOrder _ _ | EvCancel _ _ => false
  | _ => true
  end.

(** The three labels under which a position is closed. *)
Definition close_label (l : option string) : Prop :=
  l = Some "close_take_profit"
  \/ l = Some "close_stop_loss"
  \/ l = Some "close_close_to_expiry".

(** A market order on an option, without price, under a closing label. *)
Definition closing_order (e : event) : Prop :=
  match e with
  | EvOrder p _ =>
      order_type p = "market"
      /\ price p = None
      /\ close_label (label p)
      /\ (endswith (instrument_name p) "-C" || endswith (instrument_name p) "-P") = true
  | _ => False
  end.

(** The positions a reply of [private/get_positions] stands for. *)
Definition reported (r : api_reply (list Position)) : list Position :=
  match r with
  | ApiResult (Some l) => l
  | _ => []
  end.

(** The options a reply of [public/get_instruments] stands for. *)
Definition listing (r : api_reply (list OptionInfo)) : list OptionInfo :=
  match r with
  | ApiResult (Some l) => l
  | _ => []
  end.

(** The implied volatility [iv] was read for [name] in an order book among
    the requests [evs]. *)
Definition quoted (evs : list event) (name : string) (iv : Q) : Prop :=
  exists b : Book,
    In (EvOrderBook name 1 (ApiResult (Some b))) evs /\ mark_iv b = Some iv.

(** The opportunity repeats the name, the strike and the kind of one of the
    listed options. *)
Definition listed_as (options : list OptionInfo) (op : Opportunity) : Prop :=
  exists o : OptionInfo,
    In o options
    /\ op_instrument op = opt_instrument_name o
    /\ op_strike op = opt_strike o
    /\ op_option_type op = opt_option_type o.

(** The expiry rule has nothing to say: no second part in the name, a second
    part that is not a date, or a date more than 2 days away at the time the
    exchange clock shows after history [h]. *)
Definition expiry_silent (ex : Exchange) (instrument : string) (h : list event) : Prop :=
  match nth_error (split "-" instrument) 1 with
  | None => True
  | Some text =>
      match strptime_dby text with
      | None => True
      | Some d => (2 < days_between d (ex_clock ex h))%Z
      end
  end.


End Further.

(** ** Further exchanges and records used in the examples *)

(** ** [analyze_volatility_skew] *)

Module Skew.

Import Py Clock Config Gateway Analyzer.
Local Open Scope string_scope.
Local Open Scope gateway_scope.

(** [sub in s]. *)
Fixpoint contains (sub s : string) : bool :=
  String.prefix sub s
  || match s with
     | EmptyString => false
     | String _ s' => contains sub s'
     end.

(** [a / b] on Python numbers: [None] is [ZeroDivisionError]. *)
Definition py_div (a b : Q) : option Q :=
  if Qeq_bool b 0 then None else Some (a / b)%Q.

(** An entry of [call_skew] or [put_skew]. *)
Record SkewPoint : Type := {
  sk_strike : Q;
  sk_moneyness : Q;
  sk_iv : Q }.

(** The dictionary returned; a slope that was not computed is an absent
    key. *)
Record SkewMetrics : Type := {
  sm_currency : string;
  sm_expiry : string;
  sm_index_price : Q;
  sm_call_skew : list SkewPoint;
  sm_put_skew : list SkewPoint;
  sm_call_skew_slope : option Q;
  sm_put_skew_slope : option Q }.

Inductive skew_outcome : Type :=
| SkewReturned (metrics : option SkewMetrics)
| ZeroDivisionError.

(** [sum(f(x) for x in l)]. *)
Definition total (f : SkewPoint -> Q) (l : list SkewPoint) : Q :=
  fold_left (fun acc x => (acc + f x)%Q) l 0%Q.

(** [sum(f(x) for x in l) / len(l)]. *)
Definition average (f : SkewPoint -> Q) (l : list SkewPoint) : option Q :=
  py_div (total f l) (inject_Z (Z.of_nat (List.length l))).

(** Lines 324-336 and 338-350: the slope between the points at the money
    and the points out of the money, when there are three points or more
    and both groups have a member.  The outer [option] is the exception. *)
Definition slope (skew atm otm : list SkewPoint) : option (option Q) :=
  if (3 <=? List.length skew)%nat then
    match atm, otm with
    | _ :: _, _ :: _ =>
        match average sk_iv atm, average sk_iv otm,
              average sk_moneyness otm, average sk_moneyness atm with
        | Some atm_iv_avg, Some otm_iv_avg, Some otm_m, Some atm_m =>
            match py_div (otm_iv_avg - atm_iv_avg) (otm_m - atm_m) with
            | Some s => Some (Some s)
            | None => None
            end
        | _, _, _, _ => None
        end
    | _, _ => Some None
    end
  else Some None.

Definition at_the_money (p : SkewPoint) : bool :=
  Qle_bool 0.95 (sk_moneyness p) && Qle_bool (sk_moneyness p) 1.05.

Definition call_out_of_the_money (p : SkewPoint) : bool := Qgtb (sk_moneyness p) 1.1.

Definition put_out_of_the_money (p : SkewPoint) : bool := Qltb (sk_moneyness p) 0.9.

Section WithExchange.

Variable ex : Exchange.

(** The value under ["index_price"] in the result of the answer the
    exchange gives for the order book of an instrument after a history; the
    key is not among the fields of [Book]. *)
Variable index_price_key : list event -> string -> option Q.

(** Lines 288-292: [result.get("result", {}).get("index_price")], read
    without a test for an error: an answer without a result has no index
    price. *)
Definition get_index_price (instrument_name : string) : M (option Q) :=
  fun h =>
    let r := ex_order_book ex h instrument_name 1 in
    (match r with
     | ApiResult None => None
     | _ => index_price_key h instrument_name
     end,
     [EvOrderBook instrument_name 1 r]).

(** The two loops of lines 303-315; [None] is the exception raised by the
    division. *)
Fixpoint skew_points (index_price : Q) (options : list OptionInfo)
    (skew : list SkewPoint) : M (option (list SkewPoint)) :=
  match options with
  | [] => ret (Some skew)
  | option :: rest =>
      iv <- get_option_volatility ex (opt_instrument_name option) ;;
      match iv with
      | None => skew_points index_price rest skew
      | Some iv =>
          match py_div (opt_strike option) index_price with
          | None => ret None
          | Some moneyness =>
              skew_points index_price rest
                (skew ++ [{| sk_strike := opt_strike option;
                             sk_moneyness := moneyness;
                             sk_iv := iv |}])%list
          end
      end
  end.

Definition by_strike (o : OptionInfo) : ratio := Fin (opt_strike o).

Definition analyze_volatility_skew (currency expiry_date : string) : M skew_outcome :=
  all_options <- get_available_options ex currency None ;;
  let expiry_options :=
    filter (fun opt => contains expiry_date (opt_instrument_name opt)) all_options in
  match expiry_options with
  | [] => ret (SkewReturned None)
  | _ :: _ =>
      let calls :=
        filter (fun opt => String.eqb (lower (opt_option_type opt)) "call")
               expiry_options in
      let puts :=
        filter (fun opt => String.eqb (lower (opt_option_type opt)) "put")
               expiry_options in
      index_price <-
        match calls with
        | first :: _ => get_index_price (opt_instrument_name first)
        | [] => ret None
        end ;;
      match index_price with
      | None => ret (SkewReturned None)
      | Some index_price =>
          call_skew <- skew_points index_price (sorted by_strike calls false) [] ;;
          match call_skew with
          | None => ret ZeroDivisionError
          | Some call_skew =>
              put_skew <- skew_points index_price (sorted by_strike puts false) [] ;;
              match put_skew with
              | None => ret ZeroDivisionError
              | Some put_skew =>
                  match slope call_skew (filter at_the_money call_skew)
                              (filter call_out_of_the_money call_skew) with
                  | None => ret ZeroDivisionError
                  | Some call_skew_slope =>
                      match slope put_skew (filter at_the_money put_skew)
                                  (filter put_out_of_the_money put_skew) with
                      | None => ret ZeroDivisionError
                      | Some put_skew_slope =>
                          ret (SkewReturned
                                 (Some {| sm_currency := currency;
                                          sm_expiry := expiry_date;
                                          sm_index_price := index_price;
                                          sm_call_skew := call_skew;
                                          sm_put_skew := put_skew;
                                          sm_call_skew_slope := call_skew_slope;
                                          sm_put_skew_slope := put_skew_slope |}))
                      end
                  end
              end
          end
      end
  end.

End WithExchange.

(** The options of a listing that [analyze_volatility_skew] keeps for one
    side: the expiry occurs in the name and the kind is [kind]. *)
Definition side (expiry_date kind : string) (options : list OptionInfo)
  : list OptionInfo :=
  filter (fun opt => String.eqb (lower (opt_option_type opt)) kind)
         (filter (fun opt => contains expiry_date (opt_instrument_name opt)) options).

(** A point of a skew that stands for one of [options]: its strike, the
    strike over the index price, and a volatility read in an order book
    among the requests [evs]. *)
Definition point_of (options : list OptionInfo) (index_price : Q)
    (evs : list event) (p : SkewPoint) : Prop :=
  exists o : OptionInfo,
    In o options
    /\ sk_strike p = opt_strike o
    /\ sk_moneyness p = (opt_strike o / index_price)%Q
    /\ exists b : Book,
         In (EvOrderBook (opt_instrument_name o) 1 (ApiResult (Some b))) evs
         /\ mark_iv b = Some (sk_iv p).

Definition strike_le (a b : SkewPoint) : Prop := (sk_strike a <= sk_strike b)%Q.

End Skew.

(** ** [deribit_client.py]

    The HTTP layer under the gateway.  The network and the system clock are
    an oracle; the client is a state (session, tokens, expiry) threaded
    through the calls.  An answer is read as the code reads it: it raises,
    or it is a JSON object with an ["error"] key or a ["result"] key that
    may be missing.  In the result of [public/auth] the tokens are strings
    and [expires_in] is a number.  [str.upper] is the one of ASCII text. *)

Module Client.

Import Py Gateway.
Local Open Scope string_scope.

Definition API_KEY : string := "YOUR_API_KEY".
Definition API_SECRET : string := "YOUR_API_SECRET".
Definition TEST_MODE : bool := true.
Definition BASE_URL : string :=
  if TEST_MODE then "https://test.deribit.com" else "https://www.deribit.com".
Definition API_URL : string := BASE_URL ++ "/api/v2/".

Definition upper_ascii (c : ascii) : ascii :=
  let n := nat_of_ascii c in
  if (97 <=? n)%nat && (n <=? 122)%nat then ascii_of_nat (n - 32) else c.

Fixpoint upper (s : string) : string :=
  match s with
  | EmptyString => EmptyString
  | String c s' => String (upper_ascii c) (upper s')
  end.

(** An [aiohttp.ClientSession]: whether it was closed, and the
    [Authorization] header it sends with every request. *)
Record Session : Type := {
  closed : bool;
  authorization : option string }.

(** [aiohttp.ClientSession()]. *)
Definition ClientSession : Session :=
  {| closed := false; authorization := None |}.

Record DeribitClient : Type := {
  session : option Session;
  access_token : option string;
  refresh_token : option string;
  token_expiry : Q }.

(** [__init__]. *)
Definition init : DeribitClient :=
  {| session := None;
     access_token := None;
     refresh_token := None;
     token_expiry := 0 |}.

(** The body posted to [public/auth]. *)
Inductive grant : Type :=
| ClientCredentials (client_id client_secret : string)
| RefreshToken (token : string).

(** The result of [public/auth]. *)
Record Tokens : Type := {
  res_access_token : option string;
  res_refresh_token : option string;
  res_expires_in : option Q }.

(** [{}]. *)
Definition no_tokens : Tokens :=
  {| res_access_token := None; res_refresh_token := None; res_expires_in := None |}.

(** What a request gives: an exception, or the JSON of the response. *)
Inductive answer (B : Type) : Type :=
| Raises (message : string)
| Json (r : api_reply B).
Arguments Raises {B}.

(** What [request] returns: a dictionary it builds itself,
    [{"error": message}], or the JSON received. *)
Inductive response (A : Type) : Type :=
| Refused (message : string)
| Received (r : api_reply A).
Arguments Refused {A}.

(** The dictionary as the wrappers of the end points read it. *)
Definition reply_of {A : Type} (r : response A) : api_reply A :=
  match r with
  | Refused _ => ApiError
  | Received r => r
  end.

(** [f"{token}"]. *)
Definition format_token (token : option string) : string :=
  match token with
  | Some t => t
  | None => "None"
  end.

Definition bearer (token : option string) : string := "Bearer " ++ format_token token.

Section WithNetwork.

(** The parameters of a request and the result of an end point. *)
Variables P A : Type.

(** What the client does to the world: it reads the clock and sends
    requests, each with the [Authorization] header of its session. *)
Inductive http_event : Type :=
| Time (t : Q)
| PostAuth (body : grant) (header : option string) (a : answer Tokens)
| Get (url : string) (params : P) (header : option string) (a : answer A)
| Post (url : string) (params : P) (header : option string) (a : answer A).

(** The network and the clock: each answer may depend on everything that
    happened before. *)
Record Network : Type := {
  net_time : list http_event -> Q;
  net_auth : list http_event -> grant -> option string -> answer Tokens;
  net_get : list http_event -> string -> P -> option string -> answer A;
  net_post : list http_event -> string -> P -> option string -> answer A }.

Variable net : Network.

(** A method of the client: it reads the client and the history, and
    returns a value, the client it leaves and the events it added. *)
Definition C (X : Type) : Type :=
  DeribitClient -> list http_event -> X * DeribitClient * list http_event.

Definition ret {X : Type} (x : X) : C X := fun self _ => (x, self, []).

Definition bind {X Y : Type} (m : C X) (f : X -> C Y) : C Y :=
  fun self h =>
    let '(x, self1, e1) := m self h in
    let '(y, self2, e2) := f x self1 (h ++ e1)%list in
    (y, self2, (e1 ++ e2)%list).

Definition get_self : C DeribitClient := fun self _ => (self, self, []).

Definition modify (f : DeribitClient -> DeribitClient) : C unit :=
  fun self _ => (tt, f self, []).

(** [time.time()]. *)
Definition time : C Q :=
  fun self h => let t := net_time net h in (t, self, [Time t]).

Definition header (self : DeribitClient) : option string :=
  match session self with
  | Some s => authorization s
  | None => None
  end.

Definition post_auth (body : grant) : C (answer Tokens) :=
  fun self h =>
    let a := net_auth net h body (header self) in
    (a, self, [PostAuth body (header self) a]).

Definition session_get (url : string) (params : P) : C (answer A) :=
  fun self h =>
    let a := net_get net h url params (header self) in
    (a, self, [Get url params (header self) a]).

Definition session_post (url : string) (params : P) : C (answer A) :=
  fun self h =>
    let a := net_post net h url params (header self) in
    (a, self, [Post url params (header self) a]).

Definition set_session (s : Session) (self : DeribitClient) : DeribitClient :=
  {| session := Some s;
     access_token := access_token self;
     refresh_token := refresh_token self;
     token_expiry := token_expiry self |}.

Definition set_tokens (access refresh : option string) (self : DeribitClient)
  : DeribitClient :=
  {| session := session self;
     access_token := access;
     refresh_token := refresh;
     token_expiry := token_expiry self |}.

Definition set_token_expiry (t : Q) (self : DeribitClient) : DeribitClient :=
  {| session := session self;
     access_token := access_token self;
     refresh_token := refresh_token self;
     token_expiry := t |}.

(** [session.headers.update({"Authorization": value})] on the session of
    the client. *)
Definition update_authorization (value : string) (self : DeribitClient)
  : DeribitClient :=
  match session self with
  | Some s => set_session {| closed := closed s; authorization := Some value |} self
  | None => self
  end.

Local Notation "x <- m ;; k" := (bind m (fun x => k))
  (at level 61, m at next level, right associativity).

Definition create_session : C Session :=
  self <- get_self ;;
  match session self with
  | Some s =>
      if closed s then
        _ <- modify (set_session ClientSession) ;; ret ClientSession
      else ret s
  | None =>
      _ <- modify (set_session ClientSession) ;; ret ClientSession
  end.

Definition close_session : C unit :=
  self <- get_self ;;
  match session self with
  | Some s =>
      if negb (closed s) then
        modify (set_session {| closed := true; authorization := authorization s |})
      else ret tt
  | None => ret tt
  end.

(** Lines 68-77 and 103-112: the tokens and the expiry are stored, the
    header of the session is updated. *)
Definition store_tokens (result : option Tokens) : C bool :=
  let result := match result with Some r => r | None => no_tokens end in
  _ <- modify (set_tokens (res_access_token result) (res_refresh_token result)) ;;
  let expires_in := match res_expires_in result with Some e => e | None => 0%Q end in
  now <- time ;;
  _ <- modify (set_token_expiry (now + expires_in - 60)%Q) ;;
  self <- get_self ;;
  _ <- modify (update_authorization (bearer (access_token self))) ;;
  ret true.

Definition authenticate : C bool :=
  _ <- create_session ;;
  timestamp <- time ;;
  a <- post_auth (ClientCredentials API_KEY API_SECRET) ;;
  match a with
  | Raises _ => ret false
  | Json ApiError => ret false
  | Json (ApiResult result) => store_tokens result
  end.

Definition refresh_auth : C bool :=
  self <- get_self ;;
  match refresh_token self with
  | None => authenticate
  | Some token =>
      if String.eqb token "" then authenticate
      else
        _ <- create_session ;;
        a <- post_auth (RefreshToken token) ;;
        match a with
        | Raises _ => authenticate
        | Json ApiError => authenticate
        | Json (ApiResult result) => store_tokens result
        end
  end.

Definition check_auth : C bool :=
  self <- get_self ;;
  stale <- (if negb (truthy_str (access_token self)) then ret true
            else now <- time ;; ret (Qgtb now (token_expiry self))) ;;
  if stale then
    fresh <- (if truthy_str (refresh_token self) then
                now <- time ;; ret (Qle_bool now (token_expiry self + 3600))
              else ret false) ;;
    if fresh then refresh_auth else authenticate
  else ret true.

Definition request (method endpoint : string) (params : P) (is_private : bool)
  : C (response A) :=
  authenticated <- (if is_private then check_auth else ret true) ;;
  if is_private && negb authenticated then ret (Refused "Authentication failed")
  else
    _ <- create_session ;;
    let url := API_URL ++ endpoint in
    if String.eqb (upper method) "GET" then
      a <- session_get url params ;;
      match a with
      | Raises message => ret (Refused message)
      | Json result => ret (Received result)
      end
    else if String.eqb (upper method) "POST" then
      a <- session_post url params ;;
      match a with
      | Raises message => ret (Refused message)
      | Json result => ret (Received result)
      end
    else ret (Refused ("Unsupported HTTP method: " ++ method)).

Definition get_public (endpoint : string) (params : P) : C (response A) :=
  request "GET" endpoint params false.

Definition get_private (endpoint : string) (params : P) : C (response A) :=
  request "GET" endpoint params true.

Definition post_private (endpoint : string) (params : P) : C (response A) :=
  request "POST" endpoint params true.

End WithNetwork.

Arguments Time {P A}.
Arguments PostAuth {P A}.
Arguments Get {P A}.
Arguments Post {P A}.

(** The [Authorization] header of the session, when there is one, is the
    bearer of the access token the client holds. *)
Definition consistent (self : DeribitClient) : Prop :=
  match header self with
  | Some value => value = bearer (access_token self)
  | None => True
  end.

(** The client once its session is open: a session that is missing or
    closed is replaced by a new one, without header. *)
Definition opened (self : DeribitClient) : DeribitClient :=
  match session self with
  | Some s => if closed s then set_session ClientSession self else self
  | None => set_session ClientSession self
  end.

(** The client once the result of [public/auth] is stored, [now] being the
    time read after the answer. *)
Definition granted (result : option Tokens) (now : Q) (self : DeribitClient)
  : DeribitClient :=
  let r := match result with Some r => r | None => no_tokens end in
  let expires_in := match res_expires_in r with Some e => e | None => 0%Q end in
  update_authorization (bearer (res_access_token r))
    (set_token_expiry (now + expires_in - 60)%Q
       (set_tokens (res_access_token r) (res_refresh_token r) self)).

(** The client a method leaves, and the events it adds. *)
Definition after {P A X : Type} (run : X * DeribitClient * list (http_event P A))
  : DeribitClient := snd (fst run).

Definition events {P A X : Type} (run : X * DeribitClient * list (http_event P A))
  : list (http_event P A) := snd run.

Definition returned {P A X : Type} (run : X * DeribitClient * list (http_event P A))
  : X := fst (fst run).

(** What [request] makes of an answer: [{"error": str(e)}] of an
    exception, or the JSON as it is. *)
Definition received {A : Type} (a : answer A) : response A :=
  match a with
  | Raises message => Refused message
  | Json result => Received result
  end.

(** The bodies posted to [public/auth] among the events, in order. *)
Definition bodies {P A : Type} (l : list (http_event P A)) : list grant :=
  flat_map (fun e => match e with
                     | PostAuth body _ _ => [body]
                     | _ => []
                     end) l.

(** The traffic of a renewal: the credentials alone, the refresh token
    alone, or the refresh token and then the credentials. *)
Definition renewal (self : DeribitClient) (posted : list grant) : Prop :=
  posted = [ClientCredentials API_KEY API_SECRET]
  \/ exists token : string,
       refresh_token self = Some token
       /\ token <> ""
       /\ (posted = [RefreshToken token]
           \/ posted = [RefreshToken token; ClientCredentials API_KEY API_SECRET]).

(** The requests to [public/auth] among the events. *)
Definition is_auth {P A : Type} (e : http_event P A) : bool :=
  match e with
  | PostAuth _ _ _ => true
  | _ => false
  end.

(** The requests to an end point other than [public/auth]. *)
Definition is_call {P A : Type} (e : http_event P A) : bool :=
  match e with
  | Get _ _ _ _ | Post _ _ _ _ => true
  | _ => false
  end.

End Client.

Module Cases.

Import Py Clock Config Gateway Analyzer Trader.
Local Open Scope string_scope.
Local Open Scope Q_scope.

(** An open option position, long, entered at 100. *)
Definition held (name : string) (mark : Q) : Position :=
  {| pos_instrument_name := Some name;
     pos_average_price := Some 100;
     pos_mark_price := Some mark;
     pos_size := Some 1;
     pos_direction := Some "buy" |}.

(** An account that already holds five options and a perpetual. *)
Definition crowded : Exchange :=
  {| ex_order_book := ex_order_book Scenario.market;
     ex_instruments := ex_instruments Scenario.market;
     ex_chart := ex_chart Scenario.market;
     ex_positions := fun _ _ =>
       ApiResult (Some [held "BTC-30JUN23-25000-C" 110;
                        held "BTC-PERPETUAL" 110;
                        held "BTC-30JUN23-26000-C" 110;
                        held "BTC-30JUN23-27000-C" 110;
                        held "BTC-30JUN23-24000-P" 110;
                        held "BTC-30JUN23-23000-P" 110]);
     ex_order := ex_order Scenario.market;
     ex_cancel := ex_cancel Scenario.market;
     ex_clock := ex_clock Scenario.market;
     ex_utc_offset := 0 |}.

(** An account with a winner, a loser, a quiet option and a perpetual, ten
    days before the expiry. *)
Definition mixed : Exchange :=
  {| ex_order_book := ex_order_book Scenario.market;
     ex_instruments := ex_instruments Scenario.market;
     ex_chart := ex_chart Scenario.market;
     ex_positions := fun _ _ =>
       ApiResult (Some [held "BTC-30JUN23-25000-C" 160;
                        held "BTC-PERPETUAL" 300;
                        held "BTC-30JUN23-26000-C" 40;
                        held "BTC-30JUN23-27000-C" 110]);
     ex_order := ex_order Scenario.market;
     ex_cancel := ex_cancel Scenario.market;
     ex_clock := ex_clock Scenario.market;
     ex_utc_offset := 0 |}.

(** The market of [Scenario.market] with the account out of reach. *)
Definition blind : Exchange :=
  {| ex_order_book := ex_order_book Scenario.market;
     ex_instruments := ex_instruments Scenario.market;
     ex_chart := ex_chart Scenario.market;
     ex_positions := fun _ _ => ApiError;
     ex_order := ex_order Scenario.market;
     ex_cancel := ex_cancel Scenario.market;
     ex_clock := ex_clock Scenario.market;
     ex_utc_offset := 0 |}.

(** A price history of three closes only. *)
Definition thin : Exchange :=
  {| ex_order_book := ex_order_book Scenario.market;
     ex_instruments := ex_instruments Scenario.market;
     ex_chart := fun _ _ _ _ =>
       ApiResult (Some {| close := Some [30000; 30500; 29800] |});
     ex_positions := ex_positions Scenario.market;
     ex_order := ex_order Scenario.market;
     ex_cancel := ex_cancel Scenario.market;
     ex_clock := ex_clock Scenario.market;
     ex_utc_offset := 0 |}.

(** A book whose spread costs more than the budget: ask 2000, bid 150. *)
Definition dear_book : Book :=
  {| asks := Some [(2000, 1)]; bids := Some [(150, 1)]; mark_iv := Some 85 |}.

Definition dear : Exchange :=
  {| ex_order_book := fun _ _ _ => ApiResult (Some dear_book);
     ex_instruments := ex_instruments Scenario.market;
     ex_chart := ex_chart Scenario.market;
     ex_positions := ex_positions Scenario.market;
     ex_order := ex_order Scenario.market;
     ex_cancel := ex_cancel Scenario.market;
     ex_clock := ex_clock Scenario.market;
     ex_utc_offset := 0 |}.

(** A listing with puts only for the expiry 28JUL23. *)
Definition puts_only : Exchange :=
  {| ex_order_book := ex_order_book Scenario.market;
     ex_instruments := fun _ _ =>
       ApiResult (Some [Scenario.listed "BTC-30JUN23-25000-C" 25000 "call";
                        Scenario.listed "BTC-28JUL23-24000-P" 24000 "put";
                        Scenario.listed "BTC-28JUL23-23000-P" 23000 "put"]);
     ex_chart := ex_chart Scenario.market;
     ex_positions := ex_positions Scenario.market;
     ex_order := ex_order Scenario.market;
     ex_cancel := ex_cancel Scenario.market;
     ex_clock := ex_clock Scenario.market;
     ex_utc_offset := 0 |}.

(** An index price of 25000 in every order book, and one of zero. *)
Definition index_25000 : list event -> string -> option Q := fun _ _ => Some 25000.

Definition index_zero : list event -> string -> option Q := fun _ _ => Some 0.

(** A network that grants tokens for 900 seconds and answers every request,
    at a clock that shows 1000; one that raises on every request; one whose
    answers to [public/auth] have neither error nor result. *)
Definition grant_900 : Client.Tokens :=
  {| Client.res_access_token := Some "abc";
     Client.res_refresh_token := Some "def";
     Client.res_expires_in := Some 900 |}.

Definition online : Client.Network unit unit :=
  {| Client.net_time := fun _ => 1000;
     Client.net_auth := fun _ _ _ => Client.Json (ApiResult (Some grant_900));
     Client.net_get := fun _ _ _ _ => Client.Json (ApiResult (Some tt));
     Client.net_post := fun _ _ _ _ => Client.Json (ApiResult (Some tt)) |}.

Definition offline : Client.Network unit unit :=
  {| Client.net_time := fun _ => 1000;
     Client.net_auth := fun _ _ _ => Client.Raises "timeout";
     Client.net_get := fun _ _ _ _ => Client.Raises "timeout";
     Client.net_post := fun _ _ _ _ => Client.Raises "timeout" |}.

Definition hollow : Client.Network unit unit :=
  {| Client.net_time := fun _ => 1000;
     Client.net_auth := fun _ _ _ => Client.Json (ApiResult None);
     Client.net_get := fun _ _ _ _ => Client.Json (ApiResult (Some tt));
     Client.net_post := fun _ _ _ _ => Client.Json (ApiResult (Some tt)) |}.

(** A client that holds a token good until 1840, with its session open or
    closed. *)
Definition holding (closed : bool) : Client.DeribitClient :=
  {| Client.session :=
       Some {| Client.closed := closed; Client.authorization := Some "Bearer abc" |};
     Client.access_token := Some "abc";
     Client.refresh_token := Some "def";
     Client.token_expiry := 1840 |}.

End Cases.

(** * Properties *)

Unset Implicit Arguments.

Import Py Clock Config Gateway Analyzer Trader Props.
Local Open Scope string_scope.
Local Open Scope list_scope.

(** ** Booleans of the rational order *)

Lemma Qle_bool_false (a b : Q) : Qle_bool a b = false <-> (b < a)%Q.
Proof.
  split; intro H.
  - destruct (Qlt_le_dec b a) as [L | L]; [exact L |].
    apply Qle_bool_iff in L. congruence.
  - destruct (Qle_bool a b) eqn:E; [| reflexivity].
    apply Qle_bool_iff in E. lra.
Qed.

Lemma Qltb_true (a b : Q) : Qltb a b = true <-> (a < b)%Q.
Proof.
  unfold Qltb. rewrite negb_true_iff. apply Qle_bool_false.
Qed.

Lemma Qltb_false (a b : Q) : Qltb a b = false <-> (b <= a)%Q.
Proof.
  unfold Qltb. rewrite negb_false_iff. apply Qle_bool_iff.
Qed.

(** Replace each boolean comparison of the goal by the two cases of the
    order it decides. *)
Ltac qcases :=
  repeat match goal with
         | |- context [Qle_bool ?a ?b] =>
             let E := fresh "E" in
             destruct (Qle_bool a b) eqn:E;
             [apply Qle_bool_iff in E | apply Qle_bool_false in E]
         end.

(** ** Classification of the ratio *)

(** C6. Every ratio receives exactly one of the three classifications: it
    is a sale when it is strictly above the high threshold, a purchase when
    it is strictly below the low threshold, and discarded otherwise; a
    ratio equal to either threshold is discarded. *)
Theorem classify_partition : forall r : ratio,
  (classify r = Some "sell" \/ classify r = Some "buy" \/ classify r = None)
  /\ (classify r = Some "sell" <-> rgtb r (Fin IV_HV_HIGH_THRESHOLD) = true)
  /\ (classify r = Some "buy" <-> rltb r (Fin IV_HV_LOW_THRESHOLD) = true)
  /\ (classify r = None <->
      rgtb r (Fin IV_HV_HIGH_THRESHOLD) = false
      /\ rltb r (Fin IV_HV_LOW_THRESHOLD) = false)
  /\ classify (Fin IV_HV_HIGH_THRESHOLD) = None
  /\ classify (Fin IV_HV_LOW_THRESHOLD) = None.
Proof.
  intro r.
  assert (B : classify (Fin IV_HV_HIGH_THRESHOLD) = None
              /\ classify (Fin IV_HV_LOW_THRESHOLD) = None)
    by (split; reflexivity).
  destruct r as [q | | |]; unfold classify, rgtb, rltb, Qltb;
    unfold IV_HV_HIGH_THRESHOLD, IV_HV_LOW_THRESHOLD in *; qcases; simpl;
    repeat split; auto; try discriminate; try tauto;
    try (intros [? ?]; discriminate); try lra.
Qed.

(** On finite ratios the two tests are the strict order of the rationals. *)
Lemma classify_finite (q : Q) :
  (classify (Fin q) = Some "sell" <-> (IV_HV_HIGH_THRESHOLD < q)%Q)
  /\ (classify (Fin q) = Some "buy" <-> (q < IV_HV_LOW_THRESHOLD)%Q)
  /\ (classify (Fin q) = None <->
      (IV_HV_LOW_THRESHOLD <= q <= IV_HV_HIGH_THRESHOLD)%Q).
Proof.
  destruct (classify_partition (Fin q)) as (_ & S & B & N & _).
  rewrite S, B, N. unfold rgtb, rltb.
  rewrite !Qltb_true, !Qltb_false. tauto.
Qed.

(** A ratio that is not a number is discarded. *)
Lemma classify_nan : classify NaN = None.
Proof. reflexivity. Qed.

(** ** Running the gateway monad *)

Lemma bind_intro {A B : Type} (m : M A) (f : A -> M B) (h : list event)
    (a : A) (b : B) (e e1 e2 : list event) :
  m h = (a, e1) -> f a (h ++ e1) = (b, e2) -> e1 ++ e2 = e ->
  bind m f h = (b, e).
Proof.
  intros H1 H2 <-. unfold bind. rewrite H1, H2. reflexivity.
Qed.

Lemma bind_inv {A B : Type} (m : M A) (f : A -> M B) (h : list event)
    (b : B) (e : list event) :
  bind m f h = (b, e) ->
  exists a e1 e2, m h = (a, e1) /\ f a (h ++ e1) = (b, e2) /\ e = e1 ++ e2.
Proof.
  unfold bind. destruct (m h) as [a e1]. destruct (f a (h ++ e1)) as [b' e2] eqn:F.
  intro H. inversion H; subst. exists a, e1, e2. repeat split; assumption.
Qed.

Lemma get_order_book_run (ex : Exchange) (name : string) (depth : Z) (h : list event) :
  get_order_book ex name depth h
  = (result_or empty_book (ex_order_book ex h name depth),
     [EvOrderBook name depth (ex_order_book ex h name depth)]).
Proof. reflexivity. Qed.

Lemma place_order_run (ex : Exchange) (name type : string) (amount : Q)
    (price : option Q) (label : option string) (h : list event) :
  place_order ex name amount type price label h
  = (result_or [] (ex_order ex h (order_params name amount type price label)),
     [EvOrder (order_params name amount type price label)
              (ex_order ex h (order_params name amount type price label))]).
Proof. reflexivity. Qed.

Lemma cancel_order_run (ex : Exchange) (order_id : option string) (h : list event) :
  cancel_order ex order_id h
  = (result_or [] (ex_cancel ex h order_id),
     [EvCancel order_id (ex_cancel ex h order_id)]).
Proof. reflexivity. Qed.

(** ** Review of the open positions *)

Lemma truthy_num_false (x : option Q) :
  truthy_num x = false <-> x = None \/ exists q, x = Some q /\ (q == 0)%Q.
Proof.
  destruct x as [q |]; simpl.
  - rewrite negb_false_iff, Qeq_bool_iff. split.
    + intro H. right. exists q. split; [reflexivity | exact H].
    + intros [H | (q' & H & Z)]; [discriminate | congruence].
  - split; auto.
Qed.

Lemma truthy_str_false (x : option string) :
  truthy_str x = false <-> x = None \/ x = Some "".
Proof.
  destruct x as [s |]; simpl.
  - rewrite negb_false_iff, String.eqb_eq. split.
    + intro H. right. congruence.
    + intros [H | H]; congruence.
  - split; auto.
Qed.

(** A position is complete exactly when none of its five fields is absent,
    zero or empty. *)
Lemma complete_false (p : Position) :
  complete p = false <->
  truthy_str (pos_instrument_name p) = false
  \/ truthy_num (pos_average_price p) = false
  \/ truthy_num (pos_mark_price p) = false
  \/ truthy_num (pos_size p) = false
  \/ truthy_str (pos_direction p) = false.
Proof.
  unfold complete. rewrite !andb_false_iff. tauto.
Qed.

Lemma review_position_incomplete (ex : Exchange) (p : Position)
    (actions : list Action) (h : list event) :
  complete p = false -> review_position ex p actions h = (actions, []).
Proof.
  intro H. unfold review_position. rewrite H. reflexivity.
Qed.

Lemma review_positions_drop (ex : Exchange) (p : Position) :
  complete p = false ->
  forall before after actions h,
    review_positions ex (before ++ p :: after) actions h
    = review_positions ex (before ++ after) actions h.
Proof.
  intros H before. induction before as [| x before IH]; intros after actions h.
  - simpl. unfold bind. rewrite (review_position_incomplete ex p actions h H).
    rewrite app_nil_r. destruct (review_positions ex after actions h). reflexivity.
  - simpl. unfold bind. destruct (review_position ex x actions h) as [a e1].
    rewrite IH. reflexivity.
Qed.

(** The pass reviews the option positions one after the other, each at the
    history the previous reviews have left. *)
Lemma review_positions_visit (ex : Exchange) (before : list Position) (p : Position)
    (after : list Position) :
  forall (actions : list Action) (h : list event),
    review_positions ex (before ++ p :: after) actions h
    = (let '(a1, e1) := review_positions ex before actions h in
       let '(a2, e2) := review_position ex p a1 (h ++ e1) in
       let '(a3, e3) := review_positions ex after a2 (h ++ e1 ++ e2) in
       (a3, e1 ++ e2 ++ e3)).
Proof.
  induction before as [| x before IH]; intros actions h.
  - simpl. unfold bind, ret. rewrite !app_nil_r.
    destruct (review_position ex p actions h) as [a2 e2].
    destruct (review_positions ex after a2 (h ++ e2)) as [a3 e3]. reflexivity.
  - simpl. unfold bind.
    destruct (review_position ex x actions h) as [a0 e0].
    rewrite IH.
    destruct (review_positions ex before a0 (h ++ e0)) as [a1 e1].
    rewrite <- !app_assoc.
    destruct (review_position ex p a1 (h ++ e0 ++ e1)) as [a2 e2].
    rewrite <- !app_assoc.
    destruct (review_positions ex after a2 (h ++ e0 ++ e1 ++ e2)) as [a3 e3].
    rewrite <- !app_assoc. reflexivity.
Qed.

(** C10. A position in which the instrument name, the entry price, the mark
    price, the size or the direction is absent or falsy (zero, empty) is
    passed over: its review sends nothing to the exchange and adds no
    action, and the whole pass runs as if the position were not listed. *)
Theorem incomplete_position_skipped :
  forall (ex : Exchange) (p : Position),
    truthy_str (pos_instrument_name p) = false
    \/ truthy_num (pos_average_price p) = false
    \/ truthy_num (pos_mark_price p) = false
    \/ truthy_num (pos_size p) = false
    \/ truthy_str (pos_direction p) = false ->
    forall (actions : list Action) (h : list event),
      review_position ex p actions h = (actions, [])
      /\ forall before after,
           review_positions ex (before ++ p :: after) actions h
           = review_positions ex (before ++ after) actions h.
Proof.
  intros ex p H actions h. apply complete_false in H. split.
  - apply review_position_incomplete. exact H.
  - intros before after. apply review_positions_drop. exact H.
Qed.

(** A fully populated position of size 0 is passed over. *)
Lemma zero_size_skipped :
  review_position Scenario.liquid (Scenario.long_call (Some 0%Q)) [] [] = ([], []).
Proof.
  apply (incomplete_position_skipped Scenario.liquid (Scenario.long_call (Some 0%Q))).
  right; right; right; left. reflexivity.
Defined.

(** So is one whose entry price is 0, whatever the exchange. *)
Lemma zero_entry_price_skipped (ex : Exchange) (p : Position) (q : Q) :
  pos_average_price p = Some q -> (q == 0)%Q ->
  forall actions h, review_position ex p actions h = (actions, []).
Proof.
  intros E Z actions h. apply review_position_incomplete, complete_false.
  right; left. apply truthy_num_false. right. exists q. auto.
Qed.

Lemma select_action_near_expiry (ex : Exchange) (instrument expiry_str : string)
    (expiry_date : datetime) (h : list event) :
  nth_error (split "-" instrument) 1 = Some expiry_str ->
  strptime_dby expiry_str = Some expiry_date ->
  (days_between expiry_date (ex_clock ex h) <= 2)%Z ->
  forall pnl_pct : Q,
    select_action ex instrument pnl_pct h = (Some "close_to_expiry", []).
Proof.
  intros N P D pnl_pct. unfold select_action.
  assert (L : (2 <=? List.length (split "-" instrument))%nat = true).
  { apply Nat.leb_le.
    assert (1 < List.length (split "-" instrument))%nat
      by (apply nth_error_Some; congruence).
    lia. }
  rewrite L. rewrite (nth_error_nth _ _ "" N), P.
  unfold bind, now, ret. rewrite app_nil_r.
  apply Z.leb_le in D. rewrite D. reflexivity.
Qed.

(** C4. A complete position whose instrument name carries a parsable
    DDMonYY expiry at most 2 days away is given the action
    [close_to_expiry] whatever its P&L, and the order that closes it in
    full is sent under that label. *)
Theorem close_to_expiry_overrides :
  forall (ex : Exchange) (p : Position)
         (instrument direction expiry_str : string)
         (entry_price current_price size : Q) (expiry_date : datetime)
         (actions : list Action) (h : list event),
    complete p = true ->
    pos_instrument_name p = Some instrument ->
    pos_average_price p = Some entry_price ->
    pos_mark_price p = Some current_price ->
    pos_size p = Some size ->
    pos_direction p = Some direction ->
    nth_error (split "-" instrument) 1 = Some expiry_str ->
    strptime_dby expiry_str = Some expiry_date ->
    (days_between expiry_date (ex_clock ex h) <= 2)%Z ->
    (forall pnl_pct : Q,
        fst (select_action ex instrument pnl_pct h) = Some "close_to_expiry")
    /\ let params := close_params instrument direction size "close_to_expiry" in
       let r := ex_order ex h params in
       review_position ex p actions h
       = (match accepted r with
          | Some o =>
              actions ++
              [{| act_instrument := instrument;
                  act_action := "close_to_expiry";
                  act_pnl_pct := pnl_pct_of direction entry_price current_price;
                  act_order := o |}]
          | None => actions
          end,
          [EvOrder params r]).
Proof.
  intros ex p instrument direction expiry_str entry_price current_price size
         expiry_date actions h C I A K S D N P T.
  split.
  - intro pnl_pct. rewrite (select_action_near_expiry ex _ _ _ h N P T). reflexivity.
  - cbv zeta. unfold review_position. rewrite C, I, A, K, S, D.
    change (negb true) with false. cbv beta iota.
    eapply bind_intro;
      [apply (select_action_near_expiry ex _ _ _ h N P T) | cbv beta iota | reflexivity].
    rewrite app_nil_r.
    eapply bind_intro; [apply place_order_run | | ].
    + replace (order_params instrument (if direction =? "buy" then (- size)%Q else size)
                 "market" None (Some ("close_" ++ "close_to_expiry")%string))
        with (close_params instrument direction size "close_to_expiry")
        by (unfold order_params, close_params; destruct (direction =? "buy");
            reflexivity).
      destruct (ex_order ex h _) as [| [o |]]; simpl; try reflexivity.
      destruct o; reflexivity.
    + rewrite app_nil_r. unfold order_params, close_params.
      destruct (direction =? "buy"); reflexivity.
Qed.

(** The long call of the specification (entered at 100, marked at 160, so
    past the profit target) reviewed on the eve of its expiry. *)
Lemma close_to_expiry_overrides_witness :
  fst (select_action Scenario.near_expiry "BTC-30JUN23-25000-C"
         (pnl_pct_of "buy" 100 160) [])
  = Some "close_to_expiry".
Proof.
  apply (close_to_expiry_overrides Scenario.near_expiry
           (Scenario.long_call (Some 1%Q)) "BTC-30JUN23-25000-C" "buy" "30JUN23"
           100%Q 160%Q 1%Q {| ordinal := 738701; micros := 0 |} [] []);
    try reflexivity.
  vm_compute. discriminate.
Defined.

(** ** Construction of a vertical spread *)

(** A truthy book obtained from [get_order_book] was sent by the exchange. *)
Lemma result_or_truthy_book (r : api_reply Book) (b : Book) :
  result_or empty_book r = Some b -> book_truthy b = true ->
  r = ApiResult (Some b).
Proof.
  destruct r as [| [b' |]]; simpl; intros H T; try discriminate.
  - congruence.
  - inversion H; subst. discriminate T.
Qed.

Lemma accepted_result_or (r : api_reply OrderDict) :
  accepted r = match result_or [] r with
               | Some d => if dict_truthy d then Some d else None
               | None => None
               end.
Proof. destruct r as [| [d |]]; reflexivity. Qed.

(** A spread of unknown kind is given up before any request. *)
Lemma create_vertical_spread_unknown (ex : Exchange) (currency kind expiry : string)
    (strike1 strike2 amount : Q) (h : list event) :
  spread_legs currency kind strike1 strike2 expiry = None ->
  create_vertical_spread ex currency kind strike1 strike2 expiry amount h = (None, []).
Proof.
  intro L. unfold create_vertical_spread. rewrite L. reflexivity.
Qed.

(** Every run of [create_vertical_spread] on known legs is one of the four
    of [spread_run]. *)
Lemma create_vertical_spread_run (ex : Exchange) (currency kind expiry : string)
    (strike1 strike2 amount : Q) (h : list event) (bo so : string)
    (res : option SpreadResult) (evs : list event) :
  spread_legs currency kind strike1 strike2 expiry = Some (bo, so) ->
  create_vertical_spread ex currency kind strike1 strike2 expiry amount h = (res, evs) ->
  spread_run bo so kind amount res evs.
Proof.
  intros L H. unfold create_vertical_spread in H. rewrite L in H.
  apply bind_inv in H as (buy_book & e1 & e2 & H1 & H & ->).
  rewrite get_order_book_run in H1. inversion H1; subst; clear H1.
  apply bind_inv in H as (sell_book & e1 & e3 & H1 & H & ->).
  rewrite get_order_book_run in H1. inversion H1; subst; clear H1.
  revert H.
  match goal with
  | |- context [ex_order_book ex ?hh so 5] => generalize (ex_order_book ex hh so 5)
  end.
  generalize (ex_order_book ex h bo 5). intros rb rs.
  assert (S : forall e, (None, []) = (res, e) ->
                        spread_run bo so kind amount res
                          ([EvOrderBook bo 5 rb] ++ [EvOrderBook so 5 rs] ++ e)).
  { intros e E. inversion E; subst. apply Stopped. }
  destruct (result_or empty_book rb) as [bb |] eqn:RB; [| apply S].
  destruct (result_or empty_book rs) as [sb |] eqn:RS; [| apply S].
  destruct (negb (book_truthy bb) || negb (book_truthy sb)) eqn:T; [apply S |].
  apply orb_false_elim in T as [Tb Ts]. apply negb_false_iff in Tb, Ts.
  apply (result_or_truthy_book _ _ RB) in Tb.
  apply (result_or_truthy_book _ _ RS) in Ts. subst rb rs. clear RB RS.
  destruct (asks bb) as [[| [ask asz] arest] |] eqn:A; try apply S.
  destruct (bids sb) as [[| [bid bsz] brest] |] eqn:B; try apply S.
  cbv zeta.
  destruct (Qgtb (Qabs ((ask - bid) * amount)) MAX_POSITION_SIZE) eqn:G; [apply S |].
  clear S. intro H. apply bind_inv in H as (buy_order & e1 & e4 & H1 & H & ->).
  rewrite place_order_run in H1. inversion H1; subst; clear H1.
  revert H.
  match goal with
  | |- context [ex_order ex ?hh ?pp] => generalize (ex_order ex hh pp); intro r1
  end.
  pose proof (accepted_result_or r1) as A1.
  destruct (result_or [] r1) as [d1 |];
    [| intro H; inversion H; subst; apply BuyRefused; exact A1].
  destruct (dict_truthy d1); simpl negb; cbv iota;
    [| intro H; inversion H; subst; apply BuyRefused; exact A1].
  intro H. apply bind_inv in H as (sell_order & e1 & e5 & H1 & H & ->).
  rewrite place_order_run in H1. inversion H1; subst; clear H1.
  revert H.
  match goal with
  | |- context [ex_order ex ?hh ?pp] => generalize (ex_order ex hh pp); intro r2
  end.
  pose proof (accepted_result_or r2) as A2. unfold order_truthy.
  destruct (result_or [] r2) as [d2 |].
  - destruct (dict_truthy d2); intro H.
    + apply bind_inv in H as (t & e1 & e6 & H1 & H & ->).
      unfold now in H1. inversion H1; subst; clear H1.
      unfold ret in H. inversion H; subst; clear H.
      eapply Built; eassumption.
    + apply bind_inv in H as (c & e1 & e6 & H1 & H & ->).
      rewrite cancel_order_run in H1. inversion H1; subst; clear H1.
      unfold ret in H. inversion H; subst; clear H.
      apply SellRefused; assumption.
  - intro H. apply bind_inv in H as (c & e1 & e6 & H1 & H & ->).
    rewrite cancel_order_run in H1. inversion H1; subst; clear H1.
    unfold ret in H. inversion H; subst; clear H.
    apply SellRefused; assumption.
Qed.

(** What a successful [create_vertical_spread] went through: both books
    answered with the required side, the cost passed the budget test, and
    both orders were accepted. *)
Lemma create_vertical_spread_inv (ex : Exchange) (currency kind expiry : string)
    (strike1 strike2 amount : Q) (h : list event) (s : SpreadResult)
    (evs : list event) :
  create_vertical_spread ex currency kind strike1 strike2 expiry amount h
  = (Some s, evs) ->
  exists bb sb ask asz arest bid bsz brest r1 r2,
    spread_legs currency kind strike1 strike2 expiry
    = Some (buy_option s, sell_option s)
    /\ asks bb = Some ((ask, asz) :: arest)
    /\ bids sb = Some ((bid, bsz) :: brest)
    /\ Qgtb (Qabs ((ask - bid) * amount)) MAX_POSITION_SIZE = false
    /\ evs = [EvOrderBook (buy_option s) 5 (ApiResult (Some bb));
              EvOrderBook (sell_option s) 5 (ApiResult (Some sb));
              EvOrder (order_params (buy_option s) amount "limit" (Some ask)
                         (Some ("spread_" ++ kind ++ "_buy")%string)) r1;
              EvOrder (order_params (sell_option s) (- amount) "limit" (Some bid)
                         (Some ("spread_" ++ kind ++ "_sell")%string)) r2]
    /\ accepted r1 = Some (buy_order s)
    /\ accepted r2 = Some (sell_order s)
    /\ spread_type s = kind
    /\ net_cost s = ((ask - bid) * amount)%Q
    /\ spread_amount s = amount.
Proof.
  intro H.
  destruct (spread_legs currency kind strike1 strike2 expiry) as [[bo so] |] eqn:L.
  - apply (create_vertical_spread_run _ _ _ _ _ _ _ _ _ _ _ _ L) in H.
    inversion H; subst; simpl.
    exists bb, sb, ask, asz, arest, bid, bsz, brest, r1, r2.
    repeat split; assumption || reflexivity.
  - rewrite (create_vertical_spread_unknown _ _ _ _ _ _ _ _ L) in H. discriminate H.
Qed.

(** C3. Whenever [create_vertical_spread] returns a spread, its net cost is
    the best ask of the bought leg minus the best bid of the sold leg,
    times the amount, and its absolute value is within
    [MAX_POSITION_SIZE]. *)
Theorem spread_within_budget :
  forall (ex : Exchange) (currency kind expiry : string)
         (strike1 strike2 amount : Q) (h : list event)
         (s : SpreadResult) (evs : list event),
    create_vertical_spread ex currency kind strike1 strike2 expiry amount h
    = (Some s, evs) ->
    (Qabs (net_cost s) <= MAX_POSITION_SIZE)%Q
    /\ exists bb sb ask asz arest bid bsz brest rest,
         evs = EvOrderBook (buy_option s) 5 (ApiResult (Some bb))
               :: EvOrderBook (sell_option s) 5 (ApiResult (Some sb)) :: rest
         /\ asks bb = Some ((ask, asz) :: arest)
         /\ bids sb = Some ((bid, bsz) :: brest)
         /\ net_cost s = ((ask - bid) * amount)%Q.
Proof.
  intros ex currency kind expiry strike1 strike2 amount h s evs H.
  apply create_vertical_spread_inv in H
    as (bb & sb & ask & asz & arest & bid & bsz & brest & r1 & r2
        & _ & A & B & G & E & _ & _ & _ & N & _).
  split.
  - rewrite N. unfold Qgtb in G. apply Qltb_false in G. exact G.
  - exists bb, sb, ask, asz, arest, bid, bsz, brest. eexists.
    split; [exact E |]. auto.
Qed.

(** The example of the specification: ask 120, bid 150, size 0.01. *)
Lemma spread_within_budget_witness :
  (Qabs ((120 - 150) * 0.01) <= MAX_POSITION_SIZE)%Q.
Proof.
  destruct (create_vertical_spread Scenario.liquid "BTC" "bear_call" 25000 26250
              "30JUN23" 0.01 []) as [[s |] evs] eqn:R; [| vm_compute in R; discriminate R].
  pose proof (spread_within_budget _ _ _ _ _ _ _ _ _ _ R) as [W _].
  vm_compute in R. inversion R; subst. exact W.
Defined.

(** C2, as the program has it. When the purchase is accepted and the sale
    is then refused, [create_vertical_spread] sends one more request, the
    cancellation of the purchase under the [order_id] of its answer, and
    returns [None], the value it returns for every refusal, whatever the
    exchange answers to the cancellation. *)
Theorem sell_refused_cancels_purchase :
  forall (ex : Exchange) (currency kind expiry : string)
         (strike1 strike2 amount : Q) (h : list event)
         (res : option SpreadResult) (evs pre rest : list event)
         (p1 p2 : OrderParams) (r1 r2 : api_reply OrderDict) (d : OrderDict),
    create_vertical_spread ex currency kind strike1 strike2 expiry amount h
    = (res, evs) ->
    evs = pre ++ EvOrder p1 r1 :: EvOrder p2 r2 :: rest ->
    accepted r1 = Some d ->
    accepted r2 = None ->
    res = None /\ exists rc, rest = [EvCancel (dict_get d "order_id") rc].
Proof.
  intros ex currency kind expiry strike1 strike2 amount h res evs pre rest
         p1 p2 r1 r2 d H E A1 A2.
  destruct (spread_legs currency kind strike1 strike2 expiry) as [[bo so] |] eqn:L.
  - apply (create_vertical_spread_run _ _ _ _ _ _ _ _ _ _ _ _ L) in H.
    inversion H; subst;
      destruct pre as [| x1 [| x2 [| x3 [| x4 [| x5 pre]]]]];
      simpl in *; try discriminate;
      match goal with
      | E : _ :: _ = _ :: _ |- _ => inversion E; subst; clear E
      end;
      try congruence;
      try (destruct pre; discriminate).
    split; [reflexivity |]. eexists. f_equal. f_equal. congruence.
  - rewrite (create_vertical_spread_unknown _ _ _ _ _ _ _ _ L) in H.
    inversion H; subst. destruct pre; discriminate.
Qed.

(** The purchase goes through, the sale and the cancellation fail. *)
Lemma sell_refused_cancels_purchase_witness :
  fst (create_vertical_spread (Scenario.one_sided ApiError) "BTC" "bear_call"
         25000 26250 "30JUN23" 0.01 []) = None.
Proof.
  destruct (create_vertical_spread (Scenario.one_sided ApiError) "BTC" "bear_call"
              25000 26250 "30JUN23" 0.01 []) as [res evs] eqn:R.
  refine (proj1 (sell_refused_cancels_purchase _ _ _ _ _ _ _ _ _ _
                   [EvOrderBook "BTC-30JUN23-26250.0-C" 5
                      (ApiResult (Some Scenario.book_120_150));
                    EvOrderBook "BTC-30JUN23-25000.0-C" 5
                      (ApiResult (Some Scenario.book_120_150))]
                   [EvCancel (Some "ETH-1") ApiError]
                   (order_params "BTC-30JUN23-26250.0-C" 0.01 "limit" (Some 120%Q)
                      (Some "spread_bear_call_buy"))
                   (order_params "BTC-30JUN23-25000.0-C" (- 0.01) "limit" (Some 150%Q)
                      (Some "spread_bear_call_sell"))
                   (ApiResult (Some Scenario.filled)) ApiError Scenario.filled
                   R _ eq_refl eq_refl)).
  vm_compute in R. inversion R. reflexivity.
Defined.

(** C2, as stated, fails. With the purchase accepted, the sale refused and
    the cancellation refused too, the value returned is [None]: the very
    value of a build stopped before any order, and the same as when the
    cancellation succeeds; the failure of the cancellation appears only in
    what the exchange saw. *)
Lemma partial_execution_returns_none :
  create_vertical_spread (Scenario.one_sided ApiError) "BTC" "bear_call"
    25000 26250 "30JUN23" 0.01 []
  = (None,
     [EvOrderBook "BTC-30JUN23-26250.0-C" 5 (ApiResult (Some Scenario.book_120_150));
      EvOrderBook "BTC-30JUN23-25000.0-C" 5 (ApiResult (Some Scenario.book_120_150));
      EvOrder (order_params "BTC-30JUN23-26250.0-C" 0.01 "limit" (Some 120%Q)
                 (Some "spread_bear_call_buy"))
              (ApiResult (Some Scenario.filled));
      EvOrder (order_params "BTC-30JUN23-25000.0-C" (- 0.01) "limit" (Some 150%Q)
                 (Some "spread_bear_call_sell"))
              ApiError;
      EvCancel (Some "ETH-1") ApiError])
  /\ fst (create_vertical_spread Scenario.silent "BTC" "bear_call"
            25000 26250 "30JUN23" 0.01 []) = None
  /\ fst (create_vertical_spread (Scenario.one_sided (ApiResult (Some Scenario.filled)))
            "BTC" "bear_call" 25000 26250 "30JUN23" 0.01 []) = None.
Proof.
  repeat split; vm_compute; reflexivity.
Qed.

(** ** The legs chosen for an opportunity *)

Lemma trade_opportunity_put (ex : Exchange) (currency : string) (best : Opportunity)
    (h : list event) (c e text : string) (k : Q) (o : Opportunity)
    (s : SpreadResult) (evs : list event) :
  split "-" (op_instrument best) = [c; e; text; "P"] ->
  float_of_str text = Some k ->
  trade_opportunity ex currency best h = (Returned (Success o s), evs) ->
  let low := (k - k * STRIKE_SPREAD_PCT)%Q in
  if String.eqb (op_type best) "sell"
  then spread_type s = "bear_put"
       /\ buy_option s = leg_name c e k "P"
       /\ sell_option s = leg_name c e low "P"
  else spread_type s = "bull_put"
       /\ buy_option s = leg_name c e low "P"
       /\ sell_option s = leg_name c e k "P".
Proof.
  intros P F H. cbv zeta. unfold trade_opportunity in H. rewrite P in H.
  cbn [nth_error] in H. rewrite F in H.
  change (String.eqb "P" "C") with false in H. cbv iota in H.
  apply bind_inv in H as (r & e1 & e2 & H1 & H & ->).
  assert (R : r = Some s)
    by (destruct r; unfold ret in H; inversion H; reflexivity).
  subst r. clear H.
  destruct (String.eqb (op_type best) "sell");
    apply create_vertical_spread_inv in H1
      as (bb & sb & ask & asz & arest & bid & bsz & brest & r1 & r2
          & L & _ & _ & _ & _ & _ & _ & T & _);
    unfold spread_legs in L; cbn in L; inversion L; auto.
Qed.

(** C1, as the program has it. For a sale opportunity on a put with a
    positive strike, the spread built is a [bear_put] that buys the put at
    the strike of the opportunity, the higher one, and sells the put at the
    strike lowered by strike x [STRIKE_SPREAD_PCT]; for a purchase
    opportunity it is a [bull_put] that buys the put at the lowered strike
    and sells the put at the strike of the opportunity. *)
Theorem put_spread_legs :
  forall (ex : Exchange) (currency : string) (best : Opportunity)
         (h : list event) (c e text : string) (k : Q) (o : Opportunity)
         (s : SpreadResult) (evs : list event),
    split "-" (op_instrument best) = [c; e; text; "P"] ->
    float_of_str text = Some k ->
    (0 < k)%Q ->
    trade_opportunity ex currency best h = (Returned (Success o s), evs) ->
    let high := k in
    let low := (k - k * STRIKE_SPREAD_PCT)%Q in
    (low < high)%Q
    /\ (op_type best = "sell" ->
        spread_type s = "bear_put"
        /\ buy_option s = leg_name c e high "P"
        /\ sell_option s = leg_name c e low "P")
    /\ (op_type best = "buy" ->
        spread_type s = "bull_put"
        /\ buy_option s = leg_name c e low "P"
        /\ sell_option s = leg_name c e high "P").
Proof.
  intros ex currency best h c e text k o s evs P F K H.
  pose proof (trade_opportunity_put ex currency best h c e text k o s evs P F H) as L.
  cbv zeta in *. split; [| split].
  - unfold STRIKE_SPREAD_PCT. lra.
  - intro T. rewrite T in L. exact L.
  - intro T. rewrite T in L. exact L.
Qed.

(** A sale opportunity on the 25000 put: the 25000 put is bought, the 23750
    put is sold. *)
Lemma put_spread_legs_witness :
  exists s : SpreadResult,
    fst (trade_opportunity Scenario.liquid "BTC"
           (Scenario.opportunity_on "sell" "BTC-30JUN23-25000-P" "put") [])
    = Returned (Success (Scenario.opportunity_on "sell" "BTC-30JUN23-25000-P" "put") s)
    /\ spread_type s = "bear_put"
    /\ buy_option s = leg_name "BTC" "30JUN23" 25000 "P"
    /\ sell_option s = leg_name "BTC" "30JUN23" (25000 - 25000 * STRIKE_SPREAD_PCT) "P".
Proof.
  destruct (trade_opportunity Scenario.liquid "BTC"
              (Scenario.opportunity_on "sell" "BTC-30JUN23-25000-P" "put") [])
    as [[[| | o s |] |] evs] eqn:R; try (vm_compute in R; discriminate R).
  assert (O : o = Scenario.opportunity_on "sell" "BTC-30JUN23-25000-P" "put")
    by (vm_compute in R; inversion R; reflexivity).
  subst o. exists s. split; [reflexivity |].
  apply (put_spread_legs Scenario.liquid "BTC"
           (Scenario.opportunity_on "sell" "BTC-30JUN23-25000-P" "put")
           [] "BTC" "30JUN23" "25000" 25000 _ s evs eq_refl eq_refl eq_refl R).
  reflexivity.
Defined.

(** C1, as stated, fails: the [bear_put] built for a sale opportunity buys
    the higher strike (25000) and sells the lower one (23750), and the
    [bull_put] built for a purchase opportunity buys the lower strike and
    sells the higher one. *)
Lemma put_spread_buys_other_leg :
  exists s1 s2 : SpreadResult,
    fst (trade_opportunity Scenario.liquid "BTC"
           (Scenario.opportunity_on "sell" "BTC-30JUN23-25000-P" "put") [])
    = Returned (Success (Scenario.opportunity_on "sell" "BTC-30JUN23-25000-P" "put") s1)
    /\ spread_type s1 = "bear_put"
    /\ leg_strike (buy_option s1) = Some 25000%Q
    /\ leg_strike (sell_option s1) = Some 23750%Q
    /\ fst (trade_opportunity Scenario.liquid "BTC"
              (Scenario.opportunity_on "buy" "BTC-30JUN23-25000-P" "put") [])
       = Returned (Success (Scenario.opportunity_on "buy" "BTC-30JUN23-25000-P" "put") s2)
    /\ spread_type s2 = "bull_put"
    /\ leg_strike (buy_option s2) = Some 23750%Q
    /\ leg_strike (sell_option s2) = Some 25000%Q.
Proof.
  eexists. eexists. repeat split; vm_compute; reflexivity.
Qed.

(** ** Instrument names *)

Lemma has_char_append (c : ascii) (a b : string) :
  has_char c (a ++ b) = has_char c a || has_char c b.
Proof.
  induction a as [| x a IH]; simpl; [reflexivity |].
  rewrite IH. apply orb_assoc.
Qed.

Lemma str_length_append (a b : string) :
  String.length (a ++ b) = (String.length a + String.length b)%nat.
Proof.
  induction a as [| x a IH]; simpl; [reflexivity |]. rewrite IH. reflexivity.
Qed.

Lemma append_cancel_l (a b c : string) : (a ++ b = a ++ c)%string -> b = c.
Proof.
  induction a as [| x a IH]; simpl; intro H; [exact H |].
  inversion H. auto.
Qed.

Lemma append_cancel_r (s : string) :
  forall a b : string, (a ++ s = b ++ s)%string -> a = b.
Proof.
  induction a as [| x a IH]; intros [| y b] H; simpl in H.
  - reflexivity.
  - apply (f_equal String.length) in H. simpl in H.
    rewrite str_length_append in H. lia.
  - apply (f_equal String.length) in H. simpl in H.
    rewrite str_length_append in H. lia.
  - inversion H. f_equal. auto.
Qed.

(** A text made of digits has neither a point nor an exponent mark, and
    [split] leaves it whole. *)
Lemma digits_plain (text : string) :
  forall acc n, digits_val acc text = Some n ->
  has_char "." text = false /\ has_char "e" text = false.
Proof.
  induction text as [| x text IH]; intros acc n H; simpl in *; [auto |].
  destruct (digit_of x) as [d |] eqn:D; [| discriminate H].
  destruct (IH _ _ H) as [P E]. rewrite P, E.
  split; apply orb_false_iff; split; try reflexivity; apply Ascii.eqb_neq;
    intros ->; vm_compute in D; discriminate D.
Qed.

Lemma split_plain (sep : ascii) (text : string) :
  has_char sep text = false -> split sep text = [text].
Proof.
  induction text as [| x text IH]; simpl; intro H; [reflexivity |].
  apply orb_false_iff in H as [X T]. rewrite X, (IH T). reflexivity.
Qed.

Lemma float_of_digits (text : string) (n : Z) :
  text <> "" -> digits_val 0 text = Some n ->
  float_of_str text = Some (inject_Z n).
Proof.
  intros N D. destruct (digits_plain _ _ _ D) as [P _].
  assert (U : unsigned_float text = Some (inject_Z n)).
  { unfold unsigned_float. rewrite (split_plain _ _ P).
    destruct text; [contradiction |]. rewrite D. reflexivity. }
  destruct text as [| x text]; [contradiction |].
  unfold float_of_str.
  simpl in D. destruct (digit_of x) eqn:X; [| discriminate D].
  destruct x as [[] [] [] [] [] [] [] []]; try exact U; vm_compute in X; discriminate X.
Qed.

(** The text of a float always shows a point or an exponent. *)
Lemma str_of_float_marked (q : Q) :
  has_char "." (str_of_float q) || has_char "e" (str_of_float q) = true.
Proof.
  assert (U : forall n d,
             has_char "." (unsigned_str n d) || has_char "e" (unsigned_str n d) = true).
  { intros n d. unfold unsigned_str. destruct (sig_digits n d) as [ds e].
    destruct ((-4 <? e)%Z && (e <=? 16)%Z).
    - apply orb_true_iff. left.
      destruct (e <=? 0)%Z; [reflexivity |].
      destruct (Z.of_nat (String.length ds) <=? e)%Z;
        rewrite !has_char_append; simpl; rewrite ?orb_true_r; reflexivity.
    - apply orb_true_iff. right.
      rewrite !has_char_append. simpl. rewrite ?orb_true_r. reflexivity. }
  unfold str_of_float. destruct (Qnum q =? 0)%Z; [reflexivity |].
  destruct (Qnum q <? 0)%Z; [| apply U].
  rewrite !has_char_append. simpl. apply U.
Qed.

(** C8, in general. For an instrument name whose strike is written with
    digits only, the strike read by [float] and written back by the
    f-string of the leg does not give the name back. *)
Theorem integer_strike_leg_renamed :
  forall (currency expiry text kind : string) (n : Z),
    text <> "" ->
    digits_val 0 text = Some n ->
    exists strike : Q,
      float_of_str text = Some strike
      /\ leg_name currency expiry strike kind
         <> (currency ++ "-" ++ expiry ++ "-" ++ text ++ "-" ++ kind)%string.
Proof.
  intros currency expiry text kind n N D.
  exists (inject_Z n). split; [apply float_of_digits; assumption |].
  unfold leg_name. intro E.
  apply append_cancel_l in E. change ("-" ++ ?x)%string with (String "-" x) in E.
  inversion E as [E1]. clear E.
  apply append_cancel_l in E1. inversion E1 as [E2]. clear E1.
  apply append_cancel_r in E2.
  destruct (digits_plain _ _ _ D) as [P X].
  pose proof (str_of_float_marked (inject_Z n)) as M.
  rewrite E2, P, X in M. discriminate M.
Qed.

(** The name [BTC-30JUN23-25000-C] is not given back. *)
Lemma integer_strike_leg_renamed_witness :
  leg_name "BTC" "30JUN23" 25000 "C" <> "BTC-30JUN23-25000-C".
Proof.
  destruct (integer_strike_leg_renamed "BTC" "30JUN23" "25000" "C" 25000)
    as (strike & F & L); [discriminate | reflexivity |].
  vm_compute in F. inversion F; subst. exact L.
Defined.

(** C8 fails on the program. The strike is read with [float] and written
    back by an f-string, so the leg kept at the strike of the opportunity
    is asked for under a name with [.0] added: for the call
    [BTC-30JUN23-25000-C] the spread sells [BTC-30JUN23-25000.0-C]. *)
Lemma unchanged_leg_renamed :
  exists (s : SpreadResult) (rest : list event),
    trade_opportunity Scenario.liquid "BTC"
      (Scenario.opportunity_on "sell" "BTC-30JUN23-25000-C" "call") []
    = (Returned (Success (Scenario.opportunity_on "sell" "BTC-30JUN23-25000-C" "call") s),
       EvOrderBook "BTC-30JUN23-26250.0-C" 5 (ApiResult (Some Scenario.book_120_150))
       :: EvOrderBook "BTC-30JUN23-25000.0-C" 5 (ApiResult (Some Scenario.book_120_150))
       :: rest)
    /\ sell_option s = "BTC-30JUN23-25000.0-C"
    /\ sell_option s <> "BTC-30JUN23-25000-C"
    /\ leg_strike (sell_option s) = leg_strike "BTC-30JUN23-25000-C".
Proof.
  eexists. eexists. split; [vm_compute; reflexivity |].
  repeat split; try (vm_compute; reflexivity). simpl. discriminate.
Qed.

(** ** The blended historical volatility *)

Lemma calculate_weighted_run (ex : Exchange) (k : list Q -> Z -> Q)
    (currency : string) (h : list event) :
  let r := ex_chart ex h (currency ++ "-PERPETUAL") "1D" (Z.max HV_WINDOW_LONG 30 + 10) in
  calculate_weighted_historical_volatility ex k currency h
  = (match fetched_series r with
     | None => None
     | Some prices =>
         match calculate_historical_volatility k prices HV_WINDOW_SHORT,
               calculate_historical_volatility k prices HV_WINDOW_MEDIUM,
               calculate_historical_volatility k prices HV_WINDOW_LONG with
         | Some s, Some m, Some l => Some (blend s m l)
         | hs, hm, hl => Some (blend (num_or hs 0.8) (num_or hm 0.7) (num_or hl 0.6))
         end
     end,
     [EvChart (currency ++ "-PERPETUAL") "1D" (Z.max HV_WINDOW_LONG 30 + 10) r]).
Proof.
  cbv zeta. unfold calculate_weighted_historical_volatility, get_historical_data.
  unfold bind, chart, request, ret.
  destruct (ex_chart ex h _ _ _) as [| [[[prices |]] |]]; simpl; try reflexivity.
  destruct (calculate_historical_volatility k prices HV_WINDOW_SHORT);
    destruct (calculate_historical_volatility k prices HV_WINDOW_MEDIUM);
    destruct (calculate_historical_volatility k prices HV_WINDOW_LONG);
    reflexivity.
Qed.

Lemma short_series (k : list Q -> Z -> Q) (prices : list Q) (window : Z) :
  (Z.of_nat (List.length prices) < window + 1)%Z ->
  calculate_historical_volatility k prices window = None.
Proof.
  intro H. unfold calculate_historical_volatility.
  apply Z.ltb_lt in H. rewrite H. reflexivity.
Qed.

Lemma computed_volatility (k : list Q -> Z -> Q) (prices : list Q) (window : Z) (v : Q) :
  calculate_historical_volatility k prices window = Some v -> v = k prices window.
Proof.
  unfold calculate_historical_volatility.
  destruct (Z.of_nat (List.length prices) <? window + 1)%Z; [discriminate |].
  destruct (List.length prices <=? 1)%nat; [discriminate |].
  intro H. inversion H. reflexivity.
Qed.

Lemma num_or_cases (x : option Q) (default : Q) :
  (x = None -> num_or x default = default)
  /\ (forall v, x = Some v -> (v == 0)%Q -> num_or x default = default)
  /\ (forall v, x = Some v -> ~ (v == 0)%Q -> num_or x default = v).
Proof.
  repeat split.
  - intros ->. reflexivity.
  - intros v -> Z. simpl. apply Qeq_bool_iff in Z. rewrite Z. reflexivity.
  - intros v -> Z. simpl. destruct (Qeq_bool v 0) eqn:E; [| reflexivity].
    apply Qeq_bool_iff in E. contradiction.
Qed.

(** C7. The blended estimate is missing exactly when the chart request
    brings no price series (an error, no result, no closes); once a series
    is there, each window with fewer than window + 1 prices enters the
    blend with its fallback (0.8, 0.7, 0.6), the other windows enter with
    their fallback or with what the kernel computes, and a number is
    returned. *)
Theorem weighted_volatility_availability :
  forall (ex : Exchange) (k : list Q -> Z -> Q) (currency : string) (h : list event),
    let r := ex_chart ex h (currency ++ "-PERPETUAL") "1D"
               (Z.max HV_WINDOW_LONG 30 + 10) in
    let result := fst (calculate_weighted_historical_volatility ex k currency h) in
    (result = None <-> fetched_series r = None)
    /\ forall prices : list Q,
         fetched_series r = Some prices ->
         exists hv_short hv_medium hv_long : Q,
           result = Some (blend hv_short hv_medium hv_long)
           /\ ((Z.of_nat (List.length prices) < HV_WINDOW_SHORT + 1)%Z
               /\ hv_short = 0.8%Q
               \/ (HV_WINDOW_SHORT + 1 <= Z.of_nat (List.length prices))%Z
                  /\ (hv_short = 0.8%Q \/ hv_short = k prices HV_WINDOW_SHORT))
           /\ ((Z.of_nat (List.length prices) < HV_WINDOW_MEDIUM + 1)%Z
               /\ hv_medium = 0.7%Q
               \/ (HV_WINDOW_MEDIUM + 1 <= Z.of_nat (List.length prices))%Z
                  /\ (hv_medium = 0.7%Q \/ hv_medium = k prices HV_WINDOW_MEDIUM))
           /\ ((Z.of_nat (List.length prices) < HV_WINDOW_LONG + 1)%Z
               /\ hv_long = 0.6%Q
               \/ (HV_WINDOW_LONG + 1 <= Z.of_nat (List.length prices))%Z
                  /\ (hv_long = 0.6%Q \/ hv_long = k prices HV_WINDOW_LONG)).
Proof.
  intros ex k currency h. cbv zeta.
  rewrite (calculate_weighted_run ex k currency h). cbv zeta. cbn [fst].
  set (r := ex_chart ex h _ _ _). split.
  - destruct (fetched_series r) as [prices |]; [| tauto].
    split; [| discriminate].
    destruct (calculate_historical_volatility k prices HV_WINDOW_SHORT);
      destruct (calculate_historical_volatility k prices HV_WINDOW_MEDIUM);
      destruct (calculate_historical_volatility k prices HV_WINDOW_LONG);
      discriminate.
  - intros prices ->.
    assert (W : forall window default,
               let hv := calculate_historical_volatility k prices window in
               ((Z.of_nat (List.length prices) < window + 1)%Z /\ hv = None
                \/ (window + 1 <= Z.of_nat (List.length prices))%Z)
               /\ (hv = None -> num_or hv default = default)
               /\ (num_or hv default = default \/ num_or hv default = k prices window)
               /\ forall v, hv = Some v -> v = k prices window).
    { intros window default. cbv zeta. repeat split.
      - destruct (Z.lt_ge_cases (Z.of_nat (List.length prices)) (window + 1)) as [L | L];
          [left; split; [exact L | apply short_series; exact L] | right; exact L].
      - intros ->. reflexivity.
      - destruct (calculate_historical_volatility k prices window) as [v |] eqn:E;
          [| left; reflexivity].
        apply computed_volatility in E. subst v. simpl.
        destruct (Qeq_bool _ 0); auto.
      - intros v E. apply computed_volatility in E. exact E. }
    destruct (W HV_WINDOW_SHORT 0.8%Q) as (Ls & Ns & Os & Cs).
    destruct (W HV_WINDOW_MEDIUM 0.7%Q) as (Lm & Nm & Om & Cm).
    destruct (W HV_WINDOW_LONG 0.6%Q) as (Ll & Nl & Ol & Cl). clear W.
    destruct (calculate_historical_volatility k prices HV_WINDOW_SHORT) as [s |] eqn:Es;
      destruct (calculate_historical_volatility k prices HV_WINDOW_MEDIUM) as [m |] eqn:Em;
      destruct (calculate_historical_volatility k prices HV_WINDOW_LONG) as [l |] eqn:El;
      eexists; eexists; eexists; (split; [reflexivity |]);
      repeat match goal with
             | H : _ /\ Some _ = None \/ _ |- _ => destruct H as [[_ H] | H]; [discriminate H |]
             | H : _ /\ None = None \/ _ |- _ => destruct H as [[H _] | H]
             end;
      repeat split;
      try (left; split; [assumption | auto; fail]);
      try (right; split; [assumption |]; auto; fail);
      try (right; split; [assumption |]; right; auto; fail).
Qed.

(** C9. With a price series at hand: as soon as one window cannot be
    computed, every window enters the blend with its fallback when it is
    missing or when its computed volatility is 0, and with its computed
    volatility otherwise; when the three windows compute, the three
    computed volatilities enter the blend as they are, zero included. *)
Theorem zero_volatility_replaced :
  forall (ex : Exchange) (k : list Q -> Z -> Q) (currency : string)
         (h : list event) (prices : list Q),
    fetched_series (ex_chart ex h (currency ++ "-PERPETUAL") "1D"
                      (Z.max HV_WINDOW_LONG 30 + 10)) = Some prices ->
    let hv := calculate_historical_volatility k prices in
    let result := fst (calculate_weighted_historical_volatility ex k currency h) in
    (hv HV_WINDOW_SHORT = None \/ hv HV_WINDOW_MEDIUM = None \/ hv HV_WINDOW_LONG = None ->
     exists hv_short hv_medium hv_long : Q,
       result = Some (blend hv_short hv_medium hv_long)
       /\ (hv HV_WINDOW_SHORT = None -> hv_short = 0.8%Q)
       /\ (forall v, hv HV_WINDOW_SHORT = Some v -> (v == 0)%Q -> hv_short = 0.8%Q)
       /\ (forall v, hv HV_WINDOW_SHORT = Some v -> ~ (v == 0)%Q -> hv_short = v)
       /\ (hv HV_WINDOW_MEDIUM = None -> hv_medium = 0.7%Q)
       /\ (forall v, hv HV_WINDOW_MEDIUM = Some v -> (v == 0)%Q -> hv_medium = 0.7%Q)
       /\ (forall v, hv HV_WINDOW_MEDIUM = Some v -> ~ (v == 0)%Q -> hv_medium = v)
       /\ (hv HV_WINDOW_LONG = None -> hv_long = 0.6%Q)
       /\ (forall v, hv HV_WINDOW_LONG = Some v -> (v == 0)%Q -> hv_long = 0.6%Q)
       /\ (forall v, hv HV_WINDOW_LONG = Some v -> ~ (v == 0)%Q -> hv_long = v))
    /\ (forall vs vm vl : Q,
          hv HV_WINDOW_SHORT = Some vs ->
          hv HV_WINDOW_MEDIUM = Some vm ->
          hv HV_WINDOW_LONG = Some vl ->
          result = Some (blend vs vm vl)).
Proof.
  intros ex k currency h prices F. cbv zeta.
  rewrite (calculate_weighted_run ex k currency h). cbv zeta. cbn [fst]. rewrite F.
  split.
  - intro Missing.
    exists (num_or (calculate_historical_volatility k prices HV_WINDOW_SHORT) 0.8),
           (num_or (calculate_historical_volatility k prices HV_WINDOW_MEDIUM) 0.7),
           (num_or (calculate_historical_volatility k prices HV_WINDOW_LONG) 0.6).
    split.
    + destruct (calculate_historical_volatility k prices HV_WINDOW_SHORT);
        destruct (calculate_historical_volatility k prices HV_WINDOW_MEDIUM);
        destruct (calculate_historical_volatility k prices HV_WINDOW_LONG);
        try reflexivity.
      destruct Missing as [M | [M | M]]; discriminate M.
    + repeat split; apply num_or_cases.
  - intros vs vm vl -> -> ->. reflexivity.
Qed.

(** Twenty equal closes: the 7 and 14 day volatilities are computed and are
    0, the 30 day one is missing, and the blend is made of the three
    fallbacks. *)
Lemma zero_volatility_replaced_witness :
  fst (calculate_weighted_historical_volatility Scenario.flat_chart
         Scenario.no_dispersion "BTC" [])
  = Some (blend 0.8 0.7 0.6).
Proof.
  destruct (zero_volatility_replaced Scenario.flat_chart Scenario.no_dispersion
              "BTC" [] Scenario.flat_prices eq_refl) as [W _].
  destruct W as (hs & hm & hl & R & _ & S0 & _ & _ & M0 & _ & L0 & _).
  - right; right. reflexivity.
  - rewrite R.
    rewrite (S0 0%Q eq_refl (Qeq_refl 0)), (M0 0%Q eq_refl (Qeq_refl 0)), (L0 eq_refl).
    reflexivity.
Defined.

(** When the three windows compute a volatility of 0, the blend is 0. *)
Lemma zero_volatility_survives (ex : Exchange) (k : list Q -> Z -> Q)
    (currency : string) (h : list event) (prices : list Q) :
  fetched_series (ex_chart ex h (currency ++ "-PERPETUAL") "1D"
                    (Z.max HV_WINDOW_LONG 30 + 10)) = Some prices ->
  calculate_historical_volatility k prices HV_WINDOW_SHORT = Some 0%Q ->
  calculate_historical_volatility k prices HV_WINDOW_MEDIUM = Some 0%Q ->
  calculate_historical_volatility k prices HV_WINDOW_LONG = Some 0%Q ->
  fst (calculate_weighted_historical_volatility ex k currency h) = Some (blend 0 0 0).
Proof.
  intros F S M L.
  rewrite (calculate_weighted_run ex k currency h). cbv zeta. cbn [fst].
  rewrite F, S, M, L. reflexivity.
Qed.

(** ** Order of the scan *)

(** The order of the ratios that are numbers. *)
Lemma rltb_rleb (x y : ratio) : rltb x y = true -> rleb x y = true.
Proof.
  destruct x as [a | | |], y as [b | | |]; simpl; try discriminate; try reflexivity.
  intro H. apply Qltb_true in H. apply Qle_bool_iff. lra.
Qed.

Lemma rleb_of_not_lt (x y : ratio) :
  x <> NaN -> y <> NaN -> rltb y x = false -> rleb x y = true.
Proof.
  destruct x as [a | | |], y as [b | | |]; simpl; intros X Y H;
    try discriminate; try reflexivity; try congruence.
  apply Qltb_false in H. apply Qle_bool_iff. exact H.
Qed.

Lemma rleb_trans (x y z : ratio) :
  rleb x y = true -> rleb y z = true -> rleb x z = true.
Proof.
  destruct x as [a | | |], y as [b | | |], z as [c | | |]; simpl;
    try discriminate; try reflexivity.
  rewrite !Qle_bool_iff. lra.
Qed.

Section SortFacts.

Variable A : Type.
Variable key : A -> ratio.

Lemma insert_Forall (P : A -> Prop) (x : A) (l : list A) :
  P x -> Forall P l -> Forall P (insert key x l).
Proof.
  intros Px. induction 1 as [| y l Py Pl IH]; simpl.
  - auto.
  - destruct (rltb (key y) (key x)); auto.
Qed.

Lemma sort_Forall (P : A -> Prop) (l : list A) :
  Forall P l -> Forall P (sort key l).
Proof.
  induction 1 as [| x l Px Pl IH]; simpl; [constructor |].
  apply insert_Forall; assumption.
Qed.

Lemma sorted_Forall (P : A -> Prop) (l : list A) (reverse : bool) :
  Forall P l -> Forall P (sorted key l reverse).
Proof.
  intro H. unfold sorted. destruct reverse.
  - apply Forall_rev, sort_Forall, Forall_rev, H.
  - apply sort_Forall, H.
Qed.

Lemma insert_sorted (x : A) (l : list A) :
  key_number key x -> Forall (key_number key) l ->
  StronglySorted (key_le key) l -> StronglySorted (key_le key) (insert key x l).
Proof.
  intros Nx Nl S. induction S as [| y l S IH Hy]; simpl.
  - constructor; constructor.
  - inversion Nl as [| ? ? Ny Nl']; subst.
    destruct (rltb (key y) (key x)) eqn:C.
    + constructor; [apply IH; exact Nl' |].
      apply insert_Forall; [apply rltb_rleb; exact C | exact Hy].
    + assert (L : key_le key x y) by (apply rleb_of_not_lt; assumption).
      constructor; [constructor; assumption |].
      constructor; [exact L |].
      eapply Forall_impl; [| exact Hy].
      intros z Z. unfold key_le in *. eapply rleb_trans; eassumption.
Qed.

Lemma sort_sorted (l : list A) :
  Forall (key_number key) l -> StronglySorted (key_le key) (sort key l).
Proof.
  induction 1 as [| x l Nx Nl IH]; simpl; [constructor |].
  apply insert_sorted; [exact Nx | apply sort_Forall; exact Nl | exact IH].
Qed.

Lemma StronglySorted_snoc (R : A -> A -> Prop) (l : list A) (x : A) :
  StronglySorted R l -> Forall (fun y => R y x) l -> StronglySorted R (l ++ [x]).
Proof.
  induction 1 as [| y l S IH Hy]; intro F; simpl.
  - constructor; constructor.
  - inversion F; subst. constructor; [apply IH; assumption |].
    apply Forall_app. split; [exact Hy | constructor; [assumption | constructor]].
Qed.

Lemma StronglySorted_rev (R : A -> A -> Prop) (l : list A) :
  StronglySorted R l -> StronglySorted (fun a b => R b a) (rev l).
Proof.
  induction 1 as [| y l S IH Hy]; simpl; [constructor |].
  apply StronglySorted_snoc; [exact IH |].
  apply Forall_rev. exact Hy.
Qed.

(** [sorted] orders a list of numbers: upwards, or downwards with
    [reverse]. *)
Lemma sorted_ascending (l : list A) :
  Forall (key_number key) l -> StronglySorted (key_le key) (sorted key l false).
Proof.
  apply sort_sorted.
Qed.

Lemma sorted_descending (l : list A) :
  Forall (key_number key) l -> StronglySorted (fun a b => key_le key b a) (sorted key l true).
Proof.
  intro N. unfold sorted. apply StronglySorted_rev, sort_sorted, Forall_rev, N.
Qed.

End SortFacts.

(** Every entry the loop adds carries the kind its ratio was given, so its
    ratio is a number. *)
Lemma classified_number (op : Opportunity) :
  classified op -> op_iv_hv_ratio op <> NaN.
Proof.
  unfold classified. intros C N. rewrite N in C. discriminate C.
Qed.

Lemma scan_options_classified (ex : Exchange) (hv : Q) (options : list OptionInfo) :
  forall (opportunities : list Opportunity) (h : list event),
    Forall classified opportunities ->
    Forall classified (fst (scan_options ex hv options opportunities h)).
Proof.
  induction options as [| option rest IH]; intros opportunities h F.
  - exact F.
  - simpl. unfold bind at 1. unfold now at 1. cbv beta iota zeta.
    destruct ((MIN_DAYS_TO_EXPIRY <=? _)%Z && (_ <=? MAX_DAYS_TO_EXPIRY)%Z).
    + unfold bind at 1.
      destruct (get_option_volatility ex (opt_instrument_name option) (h ++ []))
        as [[iv |] e1]; cbv beta iota zeta.
      * destruct (classify (np_div iv hv)) as [ty |] eqn:C.
        -- match goal with
           | |- context [scan_options ex hv rest ?acc ?hh] =>
               specialize (IH acc hh); destruct (scan_options ex hv rest acc hh)
           end.
           simpl in *. apply IH. apply Forall_app. split; [exact F |].
           constructor; [exact C | constructor].
        -- match goal with
           | |- context [scan_options ex hv rest ?acc ?hh] =>
               specialize (IH acc hh F); destruct (scan_options ex hv rest acc hh)
           end.
           exact IH.
      * match goal with
        | |- context [scan_options ex hv rest ?acc ?hh] =>
            specialize (IH acc hh F); destruct (scan_options ex hv rest acc hh)
        end.
        exact IH.
    + match goal with
      | |- context [scan_options ex hv rest ?acc ?hh] =>
          specialize (IH acc hh F); destruct (scan_options ex hv rest acc hh)
      end.
      exact IH.
Qed.

(** The list returned by the scan is made of the sorted sales followed by
    the sorted purchases of a list of classified entries. *)
Lemma find_opportunities_shape (ex : Exchange) (k : list Q -> Z -> Q)
    (currency : string) (h : list event) :
  exists opportunities : list Opportunity,
    Forall classified opportunities
    /\ fst (find_volatility_arbitrage_opportunities ex k currency h)
       = sorted op_iv_hv_ratio
           (filter (fun op => String.eqb (op_type op) "sell") opportunities) true
         ++ sorted op_iv_hv_ratio
              (filter (fun op => String.eqb (op_type op) "buy") opportunities) false.
Proof.
  unfold find_volatility_arbitrage_opportunities. unfold bind at 1.
  destruct (calculate_weighted_historical_volatility ex k currency h) as [[hv |] e1].
  - unfold bind at 1.
    destruct (get_available_options ex currency None (h ++ e1)) as [options e2].
    unfold bind at 1.
    pose proof (scan_options_classified ex hv options [] ((h ++ e1) ++ e2)
                  (Forall_nil _)) as C.
    destruct (scan_options ex hv options [] ((h ++ e1) ++ e2)) as [opportunities e3].
    exists opportunities. split; [exact C | reflexivity].
  - exists []. split; [constructor | reflexivity].
Qed.

Lemma Forall_filter {A : Type} (P : A -> Prop) (f : A -> bool) (l : list A) :
  Forall P l -> Forall P (filter f l).
Proof.
  induction 1 as [| x l Px Pl IH]; simpl; [constructor |].
  destruct (f x); auto.
Qed.

(** C5. The list returned by the scan is a run of sale opportunities
    followed by a run of purchase opportunities, each entry carrying the
    kind its ratio is classified as; along the sales the ratio never
    increases, along the purchases it never decreases. *)
Theorem scan_order :
  forall (ex : Exchange) (k : list Q -> Z -> Q) (currency : string) (h : list event),
  exists sells buys : list Opportunity,
    fst (find_volatility_arbitrage_opportunities ex k currency h) = sells ++ buys
    /\ Forall (fun op => op_type op = "sell" /\ classified op) sells
    /\ Forall (fun op => op_type op = "buy" /\ classified op) buys
    /\ StronglySorted ratio_ge sells
    /\ StronglySorted ratio_le buys.
Proof.
  intros ex k currency h.
  destruct (find_opportunities_shape ex k currency h) as (opportunities & C & E).
  eexists. eexists. split; [exact E |].
  assert (N : forall f, Forall (fun op => op_iv_hv_ratio op <> NaN)
                          (filter f opportunities)).
  { intro f. apply Forall_filter. eapply Forall_impl; [| exact C].
    apply classified_number. }
  assert (K : forall kind,
             Forall (fun op => op_type op = kind /\ classified op)
                    (filter (fun op => String.eqb (op_type op) kind) opportunities)).
  { intro kind. apply Forall_forall. intros op I. apply filter_In in I as [I T].
    split; [apply String.eqb_eq; exact T |].
    exact (proj1 (Forall_forall classified opportunities) C op I). }
  repeat split.
  - apply sorted_Forall, K.
  - apply sorted_Forall, K.
  - apply (sorted_descending _ op_iv_hv_ratio), N.
  - apply (sorted_ascending _ op_iv_hv_ratio), N.
Qed.

(** A scan of [Scenario.market]: the two overpriced calls come first, the
    dearer one ahead, then the underpriced put; the call quoted at the
    historical volatility is left out. *)
Example scan_of_market :
  map (fun op => (op_type op, op_instrument op))
      (fst (find_volatility_arbitrage_opportunities Scenario.market Scenario.steady
              "BTC" []))
  = [("sell", "BTC-30JUN23-26000-C");
     ("sell", "BTC-30JUN23-25000-C");
     ("buy", "BTC-30JUN23-24000-P")].
Proof. vm_compute. reflexivity. Qed.

(** The strategy then trades the first entry as a [bear_call]. *)
Example strategy_on_market :
  exists (o : Opportunity) (s : SpreadResult),
    fst (execute_volatility_arbitrage_strategy Scenario.market Scenario.steady "BTC" [])
    = Returned (Success o s)
    /\ op_instrument o = "BTC-30JUN23-26000-C"
    /\ spread_type s = "bear_call"
    /\ buy_option s = "BTC-30JUN23-27300.0-C"
    /\ sell_option s = "BTC-30JUN23-26000.0-C"
    /\ (net_cost s == - 0.3)%Q.
Proof.
  eexists. eexists. repeat split; vm_compute; reflexivity.
Qed.

(** * Further properties *)

Import Further.

(** ** The spread traded for an opportunity *)

(** The kind and the two strikes handed to [create_vertical_spread]. *)
Lemma trade_opportunity_success (ex : Exchange) (currency : string)
    (best : Opportunity) (h : list event) (c e text option_type : string) (k : Q)
    (o : Opportunity) (s : SpreadResult) (evs : list event) :
  nth_error (split "-" (op_instrument best)) 0 = Some c ->
  nth_error (split "-" (op_instrument best)) 1 = Some e ->
  nth_error (split "-" (op_instrument best)) 2 = Some text ->
  nth_error (split "-" (op_instrument best)) 3 = Some option_type ->
  float_of_str text = Some k ->
  trade_opportunity ex currency best h = (Returned (Success o s), evs) ->
  o = best
  /\ exists (kind : string) (strike1 strike2 : Q),
       create_vertical_spread ex c kind strike1 strike2 e
         (if String.eqb currency "BTC" then BTC_CONTRACT_SIZE else ETH_CONTRACT_SIZE) h
       = (Some s, evs)
       /\ (kind, strike1, strike2)
          = (if String.eqb (op_type best) "sell"
             then if String.eqb option_type "C"
                  then ("bear_call", k, k + k * STRIKE_SPREAD_PCT)%Q
                  else ("bear_put", k - k * STRIKE_SPREAD_PCT, k)%Q
             else if String.eqb option_type "C"
                  then ("bull_call", k, k + k * STRIKE_SPREAD_PCT)%Q
                  else ("bull_put", k - k * STRIKE_SPREAD_PCT, k)%Q).
Proof.
  intros P0 P1 P2 P3 F H. unfold trade_opportunity in H.
  rewrite P0, P1, P2, F, P3 in H.
  apply bind_inv in H as (r & e1 & e2 & H1 & H & ->).
  destruct r as [s' |]; unfold ret in H; inversion H; subst; clear H.
  rewrite app_nil_r. split; [reflexivity |].
  destruct (String.eqb (op_type o) "sell"), (String.eqb option_type "C");
    eexists; eexists; eexists; (split; [exact H1 | reflexivity]).
Qed.

(** X1. A call opportunity gives a call spread between the strike of the
    opportunity and the strike raised by strike x [STRIKE_SPREAD_PCT]: for a
    sale a [bear_call] that sells the lower call and buys the higher one,
    for anything else a [bull_call] that buys the lower call and sells the
    higher one. *)
Theorem call_spread_legs :
  forall (ex : Exchange) (currency : string) (best : Opportunity)
         (h : list event) (c e text : string) (k : Q) (o : Opportunity)
         (s : SpreadResult) (evs : list event),
    split "-" (op_instrument best) = [c; e; text; "C"] ->
    float_of_str text = Some k ->
    (0 < k)%Q ->
    trade_opportunity ex currency best h = (Returned (Success o s), evs) ->
    let low := k in
    let high := (k + k * STRIKE_SPREAD_PCT)%Q in
    (low < high)%Q
    /\ (op_type best = "sell" ->
        spread_type s = "bear_call"
        /\ buy_option s = leg_name c e high "C"
        /\ sell_option s = leg_name c e low "C")
    /\ (op_type best <> "sell" ->
        spread_type s = "bull_call"
        /\ buy_option s = leg_name c e low "C"
        /\ sell_option s = leg_name c e high "C").
Proof.
  intros ex currency best h c e text k o s evs P F K H. cbv zeta.
  split; [unfold STRIKE_SPREAD_PCT; lra |].
  destruct (trade_opportunity_success ex currency best h c e text "C" k o s evs)
    as (_ & kind & k1 & k2 & R & E); try (rewrite P; reflexivity); try assumption.
  apply create_vertical_spread_inv in R
    as (bb & sb & ask & asz & arest & bid & bsz & brest & r1 & r2
        & L & _ & _ & _ & _ & _ & _ & T & _).
  change (String.eqb "C" "C") with true in E. cbv iota in E.
  split; intro S.
  - rewrite S in E. change (String.eqb "sell" "sell") with true in E.
    injection E as X1 X2 X3. rewrite X1 in *. rewrite X2, X3 in L.
    unfold spread_legs in L. cbn in L. inversion L. auto.
  - apply String.eqb_neq in S. rewrite S in E.
    injection E as X1 X2 X3. rewrite X1 in *. rewrite X2, X3 in L.
    unfold spread_legs in L. cbn in L. inversion L. auto.
Qed.

(** The overpriced 25000 call: the 26250 call is bought, the 25000 call
    sold. *)
Lemma call_spread_legs_witness :
  exists s : SpreadResult,
    fst (trade_opportunity Scenario.liquid "BTC"
           (Scenario.opportunity_on "sell" "BTC-30JUN23-25000-C" "call") [])
    = Returned (Success (Scenario.opportunity_on "sell" "BTC-30JUN23-25000-C" "call") s)
    /\ spread_type s = "bear_call"
    /\ buy_option s = leg_name "BTC" "30JUN23" (25000 + 25000 * STRIKE_SPREAD_PCT) "C"
    /\ sell_option s = leg_name "BTC" "30JUN23" 25000 "C".
Proof.
  destruct (trade_opportunity Scenario.liquid "BTC"
              (Scenario.opportunity_on "sell" "BTC-30JUN23-25000-C" "call") [])
    as [[[| | o s |] |] evs] eqn:R; try (vm_compute in R; discriminate R).
  assert (O : o = Scenario.opportunity_on "sell" "BTC-30JUN23-25000-C" "call")
    by (vm_compute in R; inversion R; reflexivity).
  subst o. exists s. split; [reflexivity |].
  apply (call_spread_legs Scenario.liquid "BTC"
           (Scenario.opportunity_on "sell" "BTC-30JUN23-25000-C" "call")
           [] "BTC" "30JUN23" "25000" 25000 _ s evs eq_refl eq_refl eq_refl R).
  reflexivity.
Defined.

(** X2. The size of the spread follows the currency the strategy was called
    for, while the legs take their currency from the instrument name:
    [BTC_CONTRACT_SIZE] for ["BTC"] exactly, [ETH_CONTRACT_SIZE] for any
    other text. *)
Theorem spread_size_by_currency :
  forall (ex : Exchange) (currency : string) (best : Opportunity)
         (h : list event) (o : Opportunity) (s : SpreadResult) (evs : list event),
    trade_opportunity ex currency best h = (Returned (Success o s), evs) ->
    (currency = "BTC" -> spread_amount s = BTC_CONTRACT_SIZE)
    /\ (currency <> "BTC" -> spread_amount s = ETH_CONTRACT_SIZE)
    /\ exists c rest, split "-" (op_instrument best) = c :: rest
                      /\ substring 0 (String.length c + 1) (buy_option s) = (c ++ "-")%string
                      /\ substring 0 (String.length c + 1) (sell_option s) = (c ++ "-")%string.
Proof.
  intros ex currency best h o s evs H.
  assert (P : exists c e text option_type k,
             nth_error (split "-" (op_instrument best)) 0 = Some c
             /\ nth_error (split "-" (op_instrument best)) 1 = Some e
             /\ nth_error (split "-" (op_instrument best)) 2 = Some text
             /\ nth_error (split "-" (op_instrument best)) 3 = Some option_type
             /\ float_of_str text = Some k).
  { unfold trade_opportunity in H.
    destruct (nth_error (split "-" (op_instrument best)) 0) as [c |] eqn:P0;
      [| discriminate H].
    destruct (nth_error (split "-" (op_instrument best)) 1) as [e |] eqn:P1;
      [| discriminate H].
    destruct (nth_error (split "-" (op_instrument best)) 2) as [text |] eqn:P2;
      [| discriminate H].
    destruct (float_of_str text) as [k |] eqn:F; [| discriminate H].
    destruct (nth_error (split "-" (op_instrument best)) 3) as [option_type |] eqn:P3;
      [| discriminate H].
    exists c, e, text, option_type, k. repeat split; assumption || reflexivity. }
  destruct P as (c & e & text & option_type & k & P0 & P1 & P2 & P3 & F).
  destruct (trade_opportunity_success ex currency best h c e text option_type k o s evs
              P0 P1 P2 P3 F H) as (_ & kind & k1 & k2 & R & E).
  apply create_vertical_spread_inv in R
    as (bb & sb & ask & asz & arest & bid & bsz & brest & r1 & r2
        & L & _ & _ & _ & _ & _ & _ & _ & _ & A).
  split; [| split].
  - intros ->. exact A.
  - intro N. apply String.eqb_neq in N. rewrite N in A. exact A.
  - destruct (split "-" (op_instrument best)) as [| c' rest] eqn:S; [discriminate P0 |].
    simpl in P0. inversion P0; subst c'. exists c, rest. split; [reflexivity |].
    assert (X : forall a b : string,
               substring 0 (String.length a + 1) (a ++ String "-" b)
               = (a ++ "-")%string).
    { intros a b. induction a as [| x a IH]; simpl.
      - destruct b; reflexivity.
      - rewrite IH. reflexivity. }
    unfold spread_legs in L.
    destruct (String.eqb kind "bull_call");
      [inversion L; unfold leg_name; split; apply X |].
    destruct (String.eqb kind "bear_call");
      [inversion L; unfold leg_name; split; apply X |].
    destruct (String.eqb kind "bull_put");
      [inversion L; unfold leg_name; split; apply X |].
    destruct (String.eqb kind "bear_put");
      [inversion L; unfold leg_name; split; apply X |].
    discriminate L.
Qed.

(** Called for ["ETH"] on a BTC instrument: BTC legs of the ETH size. *)
Lemma spread_size_by_currency_witness :
  exists s : SpreadResult,
    fst (trade_opportunity Scenario.liquid "ETH"
           (Scenario.opportunity_on "sell" "BTC-30JUN23-25000-C" "call") [])
    = Returned (Success (Scenario.opportunity_on "sell" "BTC-30JUN23-25000-C" "call") s)
    /\ spread_amount s = ETH_CONTRACT_SIZE.
Proof.
  destruct (trade_opportunity Scenario.liquid "ETH"
              (Scenario.opportunity_on "sell" "BTC-30JUN23-25000-C" "call") [])
    as [[[| | o s |] |] evs] eqn:R; try (vm_compute in R; discriminate R).
  assert (O : o = Scenario.opportunity_on "sell" "BTC-30JUN23-25000-C" "call")
    by (vm_compute in R; inversion R; reflexivity).
  subst o. exists s. split; [reflexivity |].
  apply (spread_size_by_currency Scenario.liquid "ETH" _ [] _ s evs R).
  discriminate.
Defined.

(** X3. An instrument name with fewer than four parts between dashes makes the
    strategy raise before it asks the exchange anything. *)
Theorem short_instrument_name_raises :
  forall (ex : Exchange) (currency : string) (best : Opportunity) (h : list event),
    (List.length (split "-" (op_instrument best)) < 4)%nat ->
    exists e : pyexc, trade_opportunity ex currency best h = (Raised e, []).
Proof.
  intros ex currency best h L. unfold trade_opportunity.
  destruct (split "-" (op_instrument best)) as [| p0 [| p1 [| p2 [| p3 rest]]]];
    simpl in *; try lia; try (exists IndexError; reflexivity).
  destruct (float_of_str p2);
    [exists IndexError | exists ValueError]; reflexivity.
Qed.

Lemma short_instrument_name_raises_witness :
  exists e : pyexc,
    trade_opportunity Scenario.liquid "BTC"
      (Scenario.opportunity_on "sell" "BTC-PERPETUAL" "call") []
    = (Raised e, []).
Proof.
  apply (short_instrument_name_raises Scenario.liquid "BTC"
           (Scenario.opportunity_on "sell" "BTC-PERPETUAL" "call") []).
  vm_compute. lia.
Defined.

(** ** What the strategy asks the exchange *)

Lemma bind_unfold {A B : Type} (m : M A) (f : A -> M B) (h : list event) :
  bind m f h
  = (fst (f (fst (m h)) (h ++ snd (m h))),
     snd (m h) ++ snd (f (fst (m h)) (h ++ snd (m h)))).
Proof.
  unfold bind. destruct (m h) as [a e1]. simpl.
  destruct (f a (h ++ e1)) as [b e2]. reflexivity.
Qed.

Lemma get_positions_run (ex : Exchange) (currency : string) (h : list event) :
  get_positions ex currency h
  = (reported (ex_positions ex h currency),
     [EvPositions currency (ex_positions ex h currency)]).
Proof.
  unfold get_positions, bind, positions, request.
  destruct (ex_positions ex h currency) as [| [l |]]; reflexivity.
Qed.

Lemma get_available_options_run (ex : Exchange) (currency : string) (h : list event) :
  get_available_options ex currency None h
  = (listing (ex_instruments ex h currency),
     [EvInstruments currency (ex_instruments ex h currency)]).
Proof.
  unfold get_available_options, bind, instruments, request.
  destruct (ex_instruments ex h currency) as [| [l |]]; reflexivity.
Qed.

Lemma get_option_volatility_run (ex : Exchange) (name : string) (h : list event) :
  get_option_volatility ex name h
  = (match result_or empty_book (ex_order_book ex h name 1) with
     | Some b => mark_iv b
     | None => None
     end,
     [EvOrderBook name 1 (ex_order_book ex h name 1)]).
Proof.
  unfold get_option_volatility, bind, order_book, request.
  destruct (result_or empty_book (ex_order_book ex h name 1)); reflexivity.
Qed.

Lemma scan_options_reads (ex : Exchange) (hv : Q) (options : list OptionInfo) :
  forall (opportunities : list Opportunity) (h : list event),
    Forall (fun e => reads_market e = true)
           (snd (scan_options ex hv options opportunities h)).
Proof.
  induction options as [| option rest IH]; intros opportunities h.
  - constructor.
  - simpl. rewrite bind_unfold.
    change (now ex h) with (ex_clock ex h, @nil event). cbn [fst snd app].
    rewrite app_nil_r.
    destruct ((MIN_DAYS_TO_EXPIRY <=? _)%Z && (_ <=? MAX_DAYS_TO_EXPIRY)%Z).
    + rewrite bind_unfold, get_option_volatility_run. cbn [fst snd].
      apply Forall_app. split; [repeat constructor |].
      destruct (match result_or empty_book _ with Some b => mark_iv b | None => None end)
        as [iv |]; [| apply IH].
      destruct (classify (np_div iv hv)); apply IH.
    + apply IH.
Qed.

Lemma find_opportunities_reads :
  forall (ex : Exchange) (k : list Q -> Z -> Q) (currency : string) (h : list event),
    Forall (fun e => reads_market e = true)
           (snd (find_volatility_arbitrage_opportunities ex k currency h)).
Proof.
  intros ex k currency h. unfold find_volatility_arbitrage_opportunities.
  rewrite bind_unfold, (calculate_weighted_run ex k currency h). cbv zeta. cbn [fst snd].
  apply Forall_app. split; [repeat constructor |].
  match goal with
  | |- context [match ?x with Some _ => _ | None => ret [] end] => destruct x as [hv |]
  end; [| constructor].
  rewrite bind_unfold, get_available_options_run. cbn [fst snd].
  apply Forall_app. split; [repeat constructor |].
  rewrite bind_unfold. cbn [fst snd]. unfold ret. cbn [snd]. rewrite app_nil_r.
  apply scan_options_reads.
Qed.

(** X4. The scan only reads: every request it makes is for the price history,
    the list of instruments or an order book. *)
Theorem scan_reads_only :
  forall (ex : Exchange) (k : list Q -> Z -> Q) (currency : string) (h : list event),
    Forall (fun e => reads_market e = true)
           (snd (find_volatility_arbitrage_opportunities ex k currency h)).
Proof.
  exact find_opportunities_reads.
Qed.

(** X5. Without a price series nothing else is asked: the scan is over after
    the request for the price history and returns no opportunity. *)
Theorem scan_stops_without_history :
  forall (ex : Exchange) (k : list Q -> Z -> Q) (currency : string) (h : list event),
    let r := ex_chart ex h (currency ++ "-PERPETUAL") "1D"
               (Z.max HV_WINDOW_LONG 30 + 10) in
    fetched_series r = None ->
    find_volatility_arbitrage_opportunities ex k currency h
    = ([], [EvChart (currency ++ "-PERPETUAL") "1D" (Z.max HV_WINDOW_LONG 30 + 10) r]).
Proof.
  intros ex k currency h r F. unfold find_volatility_arbitrage_opportunities.
  rewrite bind_unfold, (calculate_weighted_run ex k currency h). cbv zeta. cbn [fst snd].
  fold r. rewrite F. reflexivity.
Qed.

Lemma scan_stops_without_history_witness :
  fst (find_volatility_arbitrage_opportunities Scenario.silent Scenario.steady "BTC" [])
  = [].
Proof.
  rewrite (scan_stops_without_history Scenario.silent Scenario.steady "BTC" [] eq_refl).
  reflexivity.
Defined.

(** X6. With [MAX_POSITIONS] option positions or more on the account, the
    strategy stops after the request for the positions: no scan, no order;
    positions that are not options do not count. *)
Theorem max_positions_gate :
  forall (ex : Exchange) (k : list Q -> Z -> Q) (currency : string) (h : list event),
    let r := ex_positions ex h currency in
    let n := List.length (filter is_option_position (reported r)) in
    (MAX_POSITIONS <= n)%nat ->
    execute_volatility_arbitrage_strategy ex k currency h
    = (Returned (MaxPositionsReached n), [EvPositions currency r]).
Proof.
  intros ex k currency h r n G. unfold execute_volatility_arbitrage_strategy.
  rewrite bind_unfold, get_positions_run. cbn [fst snd]. fold r. fold n.
  apply Nat.leb_le in G. rewrite G. reflexivity.
Qed.

Lemma max_positions_gate_witness :
  execute_volatility_arbitrage_strategy Cases.crowded Scenario.steady "BTC" []
  = (Returned (MaxPositionsReached 5),
     [EvPositions "BTC" (ex_positions Cases.crowded [] "BTC")]).
Proof.
  apply (max_positions_gate Cases.crowded Scenario.steady "BTC" []).
  vm_compute. lia.
Defined.

Lemma find_first_request (ex : Exchange) (k : list Q -> Z -> Q) (currency : string)
    (h : list event) :
  exists rest,
    snd (find_volatility_arbitrage_opportunities ex k currency h)
    = EvChart (currency ++ "-PERPETUAL") "1D" (Z.max HV_WINDOW_LONG 30 + 10)
        (ex_chart ex h (currency ++ "-PERPETUAL") "1D" (Z.max HV_WINDOW_LONG 30 + 10))
      :: rest.
Proof.
  unfold find_volatility_arbitrage_opportunities.
  rewrite bind_unfold, (calculate_weighted_run ex k currency h). cbv zeta. cbn [fst snd app].
  eexists. reflexivity.
Qed.

(** Trading an opportunity ends in an exception, a success or a failure. *)
Lemma trade_opportunity_outcome (ex : Exchange) (currency : string)
    (best : Opportunity) (h : list event) :
  (exists e, fst (trade_opportunity ex currency best h) = Raised e)
  \/ (exists s, fst (trade_opportunity ex currency best h) = Returned (Success best s))
  \/ (exists reason,
        fst (trade_opportunity ex currency best h) = Returned (Failed best reason)).
Proof.
  unfold trade_opportunity.
  destruct (nth_error _ 0); [| left; eexists; reflexivity].
  destruct (nth_error _ 1); [| left; eexists; reflexivity].
  destruct (nth_error _ 2); [| left; eexists; reflexivity].
  destruct (float_of_str _); [| left; eexists; reflexivity].
  destruct (nth_error _ 3); [| left; eexists; reflexivity].
  rewrite bind_unfold. cbn [fst].
  match goal with
  | |- context [match ?x with Some _ => _ | None => _ end] => destruct x
  end; right; [left | right]; eexists; reflexivity.
Qed.

(** X7. When the positions cannot be fetched the strategy goes on as with an
    empty account: it never reports the maximum as reached, and its next
    request is the one for the price history. *)
Theorem unknown_positions_go_on :
  forall (ex : Exchange) (k : list Q -> Z -> Q) (currency : string) (h : list event),
    ex_positions ex h currency = ApiError ->
    (forall n, fst (execute_volatility_arbitrage_strategy ex k currency h)
               <> Returned (MaxPositionsReached n))
    /\ exists r rest,
         snd (execute_volatility_arbitrage_strategy ex k currency h)
         = EvPositions currency ApiError
           :: EvChart (currency ++ "-PERPETUAL") "1D" (Z.max HV_WINDOW_LONG 30 + 10) r
           :: rest.
Proof.
  intros ex k currency h E. unfold execute_volatility_arbitrage_strategy.
  rewrite bind_unfold, get_positions_run, E. cbn [fst snd reported filter List.length].
  change (MAX_POSITIONS <=? 0)%nat with false. cbv iota.
  rewrite bind_unfold. cbn [fst snd].
  destruct (find_first_request ex k currency (h ++ [EvPositions currency ApiError]))
    as (rest & F).
  split.
  - intro n.
    destruct (fst (find_volatility_arbitrage_opportunities ex k currency _))
      as [| best opps]; [discriminate |].
    match goal with
    | |- fst (trade_opportunity ex currency best ?hh) <> _ =>
        destruct (trade_opportunity_outcome ex currency best hh)
          as [[e T] | [[s T] | [reason T]]]; rewrite T; discriminate
    end.
  - rewrite F. cbn [app]. eexists. eexists. reflexivity.
Qed.

Lemma unknown_positions_go_on_witness :
  exists r rest,
    snd (execute_volatility_arbitrage_strategy Cases.blind Scenario.steady "BTC" [])
    = EvPositions "BTC" ApiError
      :: EvChart ("BTC" ++ "-PERPETUAL")%string "1D" (Z.max HV_WINDOW_LONG 30 + 10) r
      :: rest.
Proof.
  apply (unknown_positions_go_on Cases.blind Scenario.steady "BTC" [] eq_refl).
Defined.

Lemma reads_market_sends_no_order (evs : list event) :
  Forall (fun e => reads_market e = true) evs ->
  Forall (fun e => sends_no_order e = true) evs.
Proof.
  apply Forall_impl. intros [] H; simpl in *; congruence.
Qed.

(** An exception in [trade_opportunity] comes before any request. *)
Lemma trade_opportunity_raised (ex : Exchange) (currency : string)
    (best : Opportunity) (h : list event) (e : pyexc) :
  fst (trade_opportunity ex currency best h) = Raised e ->
  snd (trade_opportunity ex currency best h) = [].
Proof.
  unfold trade_opportunity.
  destruct (nth_error _ 0); [| reflexivity].
  destruct (nth_error _ 1); [| reflexivity].
  destruct (nth_error _ 2); [| reflexivity].
  destruct (float_of_str _); [| reflexivity].
  destruct (nth_error _ 3); [| reflexivity].
  rewrite bind_unfold. cbn [fst].
  match goal with
  | |- context [match ?x with Some _ => _ | None => _ end] => destruct x
  end; discriminate.
Qed.

(** X8. Unless the strategy reports a success or a failure to build the spread,
    it has placed and cancelled nothing. *)
Theorem orders_only_when_trading :
  forall (ex : Exchange) (k : list Q -> Z -> Q) (currency : string) (h : list event),
    (forall o s, fst (execute_volatility_arbitrage_strategy ex k currency h)
                 <> Returned (Success o s)) ->
    (forall o reason, fst (execute_volatility_arbitrage_strategy ex k currency h)
                      <> Returned (Failed o reason)) ->
    Forall (fun e => sends_no_order e = true)
           (snd (execute_volatility_arbitrage_strategy ex k currency h)).
Proof.
  intros ex k currency h. unfold execute_volatility_arbitrage_strategy.
  rewrite bind_unfold, get_positions_run. cbn [fst snd].
  destruct (MAX_POSITIONS <=? _)%nat; [intros _ _; repeat constructor |].
  rewrite bind_unfold. cbn [fst snd]. intros NS NF.
  constructor; [reflexivity |]. apply Forall_app. split.
  - apply reads_market_sends_no_order, find_opportunities_reads.
  - destruct (fst (find_volatility_arbitrage_opportunities ex k currency _))
      as [| best opps]; [constructor |].
    match goal with
    | |- context [trade_opportunity ex currency best ?hh] =>
        destruct (trade_opportunity_outcome ex currency best hh)
          as [[e T] | [[s T] | [reason T]]];
        [rewrite (trade_opportunity_raised ex currency best hh e T); constructor
        | exfalso; exact (NS best s T)
        | exfalso; exact (NF best reason T)]
    end.
Qed.

Lemma orders_only_when_trading_witness :
  Forall (fun e => sends_no_order e = true)
         (snd (execute_volatility_arbitrage_strategy Scenario.silent Scenario.steady
                 "BTC" [])).
Proof.
  apply (orders_only_when_trading Scenario.silent Scenario.steady "BTC" []).
  - intros o s. vm_compute. discriminate.
  - intros o reason. vm_compute. discriminate.
Defined.

(** ** Orders of a spread *)

(** Either no order was sent, or both books were quoted on the needed side
    and the cost passed the budget test before the first order, the
    purchase. *)
Lemma create_vertical_spread_checked (ex : Exchange) (currency kind expiry : string)
    (strike1 strike2 amount : Q) (h : list event) (bo so : string)
    (res : option SpreadResult) (evs : list event) :
  spread_legs currency kind strike1 strike2 expiry = Some (bo, so) ->
  create_vertical_spread ex currency kind strike1 strike2 expiry amount h = (res, evs) ->
  (exists rb rs, evs = [EvOrderBook bo 5 rb; EvOrderBook so 5 rs])
  \/ exists bb sb ask asz arest bid bsz brest r1 rest,
       evs = EvOrderBook bo 5 (ApiResult (Some bb))
             :: EvOrderBook so 5 (ApiResult (Some sb))
             :: EvOrder (order_params bo amount "limit" (Some ask)
                           (Some ("spread_" ++ kind ++ "_buy")%string)) r1
             :: rest
       /\ asks bb = Some ((ask, asz) :: arest)
       /\ bids sb = Some ((bid, bsz) :: brest)
       /\ (Qabs ((ask - bid) * amount) <= MAX_POSITION_SIZE)%Q.
Proof.
  intros L H. unfold create_vertical_spread in H. rewrite L in H.
  apply bind_inv in H as (buy_book & e1 & e2 & H1 & H & ->).
  rewrite get_order_book_run in H1. inversion H1; subst; clear H1.
  apply bind_inv in H as (sell_book & e1 & e3 & H1 & H & ->).
  rewrite get_order_book_run in H1. inversion H1; subst; clear H1.
  revert H.
  match goal with
  | |- context [ex_order_book ex ?hh so 5] => generalize (ex_order_book ex hh so 5)
  end.
  generalize (ex_order_book ex h bo 5). intros rb rs.
  assert (S : forall e, (None, []) = (res, e) ->
                        (exists rb' rs',
                            [EvOrderBook bo 5 rb] ++ [EvOrderBook so 5 rs] ++ e
                            = [EvOrderBook bo 5 rb'; EvOrderBook so 5 rs'])
                        \/ exists bb sb ask asz arest bid bsz brest r1 rest,
                             [EvOrderBook bo 5 rb] ++ [EvOrderBook so 5 rs] ++ e
                             = EvOrderBook bo 5 (ApiResult (Some bb))
                               :: EvOrderBook so 5 (ApiResult (Some sb))
                               :: EvOrder (order_params bo amount "limit" (Some ask)
                                             (Some ("spread_" ++ kind ++ "_buy")%string)) r1
                               :: rest
                             /\ asks bb = Some ((ask, asz) :: arest)
                             /\ bids sb = Some ((bid, bsz) :: brest)
                             /\ (Qabs ((ask - bid) * amount) <= MAX_POSITION_SIZE)%Q).
  { intros e E. inversion E; subst. left. exists rb, rs. reflexivity. }
  destruct (result_or empty_book rb) as [bb |] eqn:RB; [| apply S].
  destruct (result_or empty_book rs) as [sb |] eqn:RS; [| apply S].
  destruct (negb (book_truthy bb) || negb (book_truthy sb)) eqn:T; [apply S |].
  apply orb_false_elim in T as [Tb Ts]. apply negb_false_iff in Tb, Ts.
  apply (result_or_truthy_book _ _ RB) in Tb.
  apply (result_or_truthy_book _ _ RS) in Ts. subst rb rs. clear RB RS.
  destruct (asks bb) as [[| [ask asz] arest] |] eqn:A; try apply S.
  destruct (bids sb) as [[| [bid bsz] brest] |] eqn:B; try apply S.
  cbv zeta.
  destruct (Qgtb (Qabs ((ask - bid) * amount)) MAX_POSITION_SIZE) eqn:G; [apply S |].
  clear S. intro H. apply bind_inv in H as (buy_order & e1 & e4 & H1 & H & ->).
  rewrite place_order_run in H1. inversion H1; subst; clear H1.
  right. exists bb, sb, ask, asz, arest, bid, bsz, brest. eexists. eexists.
  split; [reflexivity |]. repeat split; try assumption.
  apply Qltb_false. exact G.
Qed.

(** X9. No order leaves for a spread unless both legs were quoted, asks on the
    bought leg and bids on the sold leg, with a cost within
    [MAX_POSITION_SIZE]; the first order is then the purchase, a limit
    order at the best ask. *)
Theorem no_order_without_quotes_in_budget :
  forall (ex : Exchange) (currency kind expiry : string)
         (strike1 strike2 amount : Q) (h : list event)
         (res : option SpreadResult) (evs : list event)
         (p : OrderParams) (r : api_reply OrderDict),
    create_vertical_spread ex currency kind strike1 strike2 expiry amount h = (res, evs) ->
    In (EvOrder p r) evs ->
    exists bo so bb sb ask asz arest bid bsz brest r1 rest,
      spread_legs currency kind strike1 strike2 expiry = Some (bo, so)
      /\ evs = EvOrderBook bo 5 (ApiResult (Some bb))
               :: EvOrderBook so 5 (ApiResult (Some sb))
               :: EvOrder (order_params bo amount "limit" (Some ask)
                             (Some ("spread_" ++ kind ++ "_buy")%string)) r1
               :: rest
      /\ asks bb = Some ((ask, asz) :: arest)
      /\ bids sb = Some ((bid, bsz) :: brest)
      /\ (Qabs ((ask - bid) * amount) <= MAX_POSITION_SIZE)%Q.
Proof.
  intros ex currency kind expiry strike1 strike2 amount h res evs p r H I.
  destruct (spread_legs currency kind strike1 strike2 expiry) as [[bo so] |] eqn:L.
  - destruct (create_vertical_spread_checked _ _ _ _ _ _ _ _ _ _ _ _ L H)
      as [(rb & rs & E) | (bb & sb & ask & asz & arest & bid & bsz & brest & r1 & rest
                           & E & A & B & G)].
    + subst evs. simpl in I. destruct I as [I | [I | []]]; discriminate I.
    + exists bo, so, bb, sb, ask, asz, arest, bid, bsz, brest, r1, rest. auto.
  - rewrite (create_vertical_spread_unknown _ _ _ _ _ _ _ _ L) in H.
    inversion H; subst. contradiction.
Qed.

Lemma no_order_without_quotes_in_budget_witness :
  (Qabs ((120 - 150) * 0.01) <= MAX_POSITION_SIZE)%Q.
Proof.
  destruct (create_vertical_spread (Scenario.one_sided ApiError) "BTC" "bear_call"
              25000 26250 "30JUN23" 0.01 []) as [res evs] eqn:R.
  destruct (no_order_without_quotes_in_budget _ _ _ _ _ _ _ _ _ _
              (order_params "BTC-30JUN23-26250.0-C" 0.01 "limit" (Some 120%Q)
                 (Some "spread_bear_call_buy"))
              (ApiResult (Some Scenario.filled)) R)
    as (bo & so & bb & sb & ask & asz & arest & bid & bsz & brest & r1 & rest
        & L & E & A & B & G).
  - vm_compute in R. inversion R. right; right; left. reflexivity.
  - vm_compute in R. inversion R as [[R1 R2]]. rewrite <- R2 in E.
    inversion E; subst bb sb.
    vm_compute in A. vm_compute in B. inversion A; inversion B; subst. exact G.
Defined.

(** X10. A spread that costs more than the budget is given up after the two
    books: [None], and no order. *)
Theorem over_budget_no_order :
  forall (ex : Exchange) (currency kind expiry : string)
         (strike1 strike2 amount : Q) (h : list event) (bo so : string)
         (bb sb : Book) (ask asz bid bsz : Q) (arest brest : list level),
    spread_legs currency kind strike1 strike2 expiry = Some (bo, so) ->
    ex_order_book ex h bo 5 = ApiResult (Some bb) ->
    ex_order_book ex (h ++ [EvOrderBook bo 5 (ApiResult (Some bb))]) so 5
    = ApiResult (Some sb) ->
    asks bb = Some ((ask, asz) :: arest) ->
    bids sb = Some ((bid, bsz) :: brest) ->
    (MAX_POSITION_SIZE < Qabs ((ask - bid) * amount))%Q ->
    create_vertical_spread ex currency kind strike1 strike2 expiry amount h
    = (None, [EvOrderBook bo 5 (ApiResult (Some bb));
              EvOrderBook so 5 (ApiResult (Some sb))]).
Proof.
  intros ex currency kind expiry strike1 strike2 amount h bo so bb sb
         ask asz bid bsz arest brest L RB RS A B G.
  unfold create_vertical_spread. rewrite L.
  rewrite bind_unfold, get_order_book_run, RB. cbn [fst snd result_or].
  rewrite bind_unfold, get_order_book_run, RS. cbn [fst snd result_or].
  assert (Tb : book_truthy bb = true) by (unfold book_truthy; rewrite A; reflexivity).
  assert (Ts : book_truthy sb = true)
    by (unfold book_truthy; rewrite B; destruct (asks sb); reflexivity).
  rewrite Tb, Ts, A, B. cbn [negb orb]. cbv zeta.
  apply Qltb_true in G. unfold Qgtb. rewrite G. reflexivity.
Qed.

Lemma over_budget_no_order_witness :
  fst (create_vertical_spread Cases.dear "BTC" "bear_call" 25000 26250 "30JUN23" 0.01 [])
  = None.
Proof.
  rewrite (over_budget_no_order Cases.dear "BTC" "bear_call" "30JUN23" 25000 26250 0.01 []
             "BTC-30JUN23-26250.0-C" "BTC-30JUN23-25000.0-C"
             Cases.dear_book Cases.dear_book 2000 1 150 1 [] []
             eq_refl eq_refl eq_refl eq_refl eq_refl eq_refl).
  reflexivity.
Defined.

(** ** The pass over the open positions *)

Lemma select_action_range (ex : Exchange) (instrument : string) (pnl_pct : Q)
    (h : list event) :
  exists a : option string,
    select_action ex instrument pnl_pct h = (a, [])
    /\ (a = None \/ a = Some "take_profit" \/ a = Some "stop_loss"
        \/ a = Some "close_to_expiry").
Proof.
  unfold select_action.
  assert (P : exists a : option string,
             (if Qgeb pnl_pct PROFIT_TARGET_PCT then Some "take_profit"
              else if Qle_bool pnl_pct (- STOP_LOSS_PCT) then Some "stop_loss"
              else None) = a
             /\ (a = None \/ a = Some "take_profit" \/ a = Some "stop_loss"
                 \/ a = Some "close_to_expiry")).
  { destruct (Qgeb pnl_pct PROFIT_TARGET_PCT); [eexists; split; [reflexivity | auto] |].
    destruct (Qle_bool pnl_pct (- STOP_LOSS_PCT)); eexists; split; try reflexivity; auto. }
  destruct P as (a & -> & R).
  destruct (2 <=? _)%nat; [| exists a; auto].
  destruct (strptime_dby _); [| exists a; auto].
  unfold bind, now, ret.
  destruct (_ <=? 2)%Z; [eexists; split; [reflexivity | auto 6] | exists a; auto].
Qed.

(** The review of one option position sends nothing, or one closing
    order; it adds an action only when it has sent an order. *)
Lemma review_position_shape (ex : Exchange) (p : Position) (actions : list Action)
    (h : list event) :
  is_option_position p = true ->
  Forall closing_order (snd (review_position ex p actions h))
  /\ (List.length (snd (review_position ex p actions h)) <= 1)%nat
  /\ (List.length (fst (review_position ex p actions h))
      <= List.length actions + List.length (snd (review_position ex p actions h)))%nat.
Proof.
  intro O. unfold review_position.
  destruct (negb (complete p)); [simpl; repeat split; auto; lia |].
  destruct (pos_instrument_name p) as [instrument |] eqn:I;
    [| simpl; repeat split; auto; lia].
  destruct (pos_average_price p) as [entry_price |]; [| simpl; repeat split; auto; lia].
  destruct (pos_mark_price p) as [current_price |]; [| simpl; repeat split; auto; lia].
  destruct (pos_size p) as [size |]; [| simpl; repeat split; auto; lia].
  destruct (pos_direction p) as [direction |]; [| simpl; repeat split; auto; lia].
  unfold is_option_position in O. rewrite I in O. cbv beta iota.
  destruct (select_action_range ex instrument
              (pnl_pct_of direction entry_price current_price) h) as (a & S & R).
  rewrite bind_unfold, S. cbn [fst snd app]. rewrite app_nil_r.
  destruct a as [a |]; [| simpl; repeat split; auto; lia].
  rewrite bind_unfold, place_order_run. cbn [fst snd].
  assert (C : closing_order
                (EvOrder (order_params instrument
                            (if String.eqb direction "buy" then (- size)%Q else size)
                            "market" None (Some ("close_" ++ a)%string))
                         (ex_order ex h
                            (order_params instrument
                               (if String.eqb direction "buy" then (- size)%Q else size)
                               "market" None (Some ("close_" ++ a)%string))))).
  { simpl. repeat split; try exact O.
    destruct R as [R | [R | [R | R]]]; inversion R; subst; unfold close_label; auto. }
  destruct (result_or [] (ex_order ex h _)) as [o |].
  - destruct (dict_truthy o); simpl; rewrite ?length_app; simpl;
      repeat split; auto; lia.
  - simpl. repeat split; auto; lia.
Qed.

Lemma review_positions_shape (ex : Exchange) (ps : list Position) :
  Forall (fun p => is_option_position p = true) ps ->
  forall (actions : list Action) (h : list event),
    Forall closing_order (snd (review_positions ex ps actions h))
    /\ (List.length (snd (review_positions ex ps actions h)) <= List.length ps)%nat
    /\ (List.length (fst (review_positions ex ps actions h))
        <= List.length actions
           + List.length (snd (review_positions ex ps actions h)))%nat.
Proof.
  induction 1 as [| p ps O Os IH]; intros actions h.
  - simpl. repeat split; auto; lia.
  - simpl. rewrite bind_unfold. cbn [fst snd].
    destruct (review_position_shape ex p actions h O) as (C1 & L1 & A1).
    destruct (IH (fst (review_position ex p actions h))
                 (h ++ snd (review_position ex p actions h))) as (C2 & L2 & A2).
    repeat split.
    + apply Forall_app. auto.
    + rewrite length_app. lia.
    + rewrite length_app. lia.
Qed.

(** X11. A pass over the positions asks for the positions and then sends only
    closing orders: market orders without price, on instruments whose name
    ends in [-C] or [-P], labelled with the reason; at most one per option
    position, and no more actions are reported than orders were sent. *)
Theorem manage_positions_sends_closing_orders :
  forall (ex : Exchange) (currency : string) (h : list event),
    let r := ex_positions ex h currency in
    exists rest : list event,
      snd (manage_positions ex currency h) = EvPositions currency r :: rest
      /\ Forall closing_order rest
      /\ (List.length rest
          <= List.length (filter is_option_position (reported r)))%nat
      /\ (List.length (fst (manage_positions ex currency h)) <= List.length rest)%nat.
Proof.
  intros ex currency h r. unfold manage_positions.
  rewrite bind_unfold, get_positions_run. cbn [fst snd app]. fold r.
  eexists. split; [reflexivity |].
  apply (review_positions_shape ex (filter is_option_position (reported r))).
  apply Forall_forall. intros p I. apply filter_In in I. tauto.
Qed.

(** The winner and the loser are closed, the quiet option and the
    perpetual are left alone. *)
Example manage_positions_on_mixed_account :
  map (fun a => (act_instrument a, act_action a))
      (fst (manage_positions Cases.mixed "BTC" []))
  = [("BTC-30JUN23-25000-C", "take_profit"); ("BTC-30JUN23-26000-C", "stop_loss")].
Proof. vm_compute. reflexivity. Qed.

(** ** The exit rules in prices and in time *)




(** When the expiry rule is silent the action is the one of the P&L
    rules. *)
Lemma select_action_silent (ex : Exchange) (instrument : string) (pnl_pct : Q)
    (h : list event) :
  expiry_silent ex instrument h ->
  select_action ex instrument pnl_pct h
  = (if Qgeb pnl_pct PROFIT_TARGET_PCT then Some "take_profit"
     else if Qle_bool pnl_pct (- STOP_LOSS_PCT) then Some "stop_loss"
     else None, []).
Proof.
  unfold expiry_silent, select_action. intro S.
  destruct (nth_error (split "-" instrument) 1) as [text |] eqn:N.
  - assert (L : (2 <=? List.length (split "-" instrument))%nat = true).
    { apply Nat.leb_le.
      assert (1 < List.length (split "-" instrument))%nat
        by (apply nth_error_Some; congruence).
      lia. }
    rewrite L, (nth_error_nth _ _ "" N).
    destruct (strptime_dby text) as [d |]; [| reflexivity].
    unfold bind, now, ret. rewrite app_nil_r.
    apply Z.leb_gt in S. rewrite S. reflexivity.
  - apply nth_error_None in N.
    assert (L : (2 <=? List.length (split "-" instrument))%nat = false)
      by (apply Nat.leb_gt; lia).
    rewrite L. reflexivity.
Qed.



(** X13. With a date in the name, the position is closed for expiry exactly when
    the midnight that opens the expiry date is less than 3 days (72 hours)
    after the current local time; this stays true once the date is past. *)
Theorem expiry_window :
  forall (ex : Exchange) (instrument text : string) (d : datetime)
         (pnl_pct : Q) (h : list event),
    nth_error (split "-" instrument) 1 = Some text ->
    strptime_dby text = Some d ->
    (fst (select_action ex instrument pnl_pct h) = Some "close_to_expiry"
     <-> (to_us d - to_us (ex_clock ex h) < 3 * us_per_day)%Z).
Proof.
  intros ex instrument text d pnl_pct h N P.
  assert (W : (days_between d (ex_clock ex h) <= 2
               <-> to_us d - to_us (ex_clock ex h) < 3 * us_per_day)%Z).
  { unfold days_between, us_per_day.
    generalize (to_us d - to_us (ex_clock ex h))%Z. intro x.
    pose proof (Z.div_mod x 86400000000 ltac:(lia)).
    pose proof (Z.mod_pos_bound x 86400000000 ltac:(lia)). lia. }
  rewrite <- W. split.
  - intro S. destruct (Z_le_gt_dec (days_between d (ex_clock ex h)) 2) as [L | G];
      [exact L | exfalso].
    assert (X : expiry_silent ex instrument h)
      by (unfold expiry_silent; rewrite N, P; lia).
    rewrite (select_action_silent ex instrument pnl_pct h X) in S. cbn [fst] in S.
    destruct (Qgeb pnl_pct PROFIT_TARGET_PCT); [discriminate S |].
    destruct (Qle_bool pnl_pct (- STOP_LOSS_PCT)); discriminate S.
  - intro L. rewrite (select_action_near_expiry ex instrument text d h N P L pnl_pct).
    reflexivity.
Qed.

(** On 29 June at 10:00 the 30JUN23 option is closed for expiry. *)
Lemma expiry_window_witness :
  fst (select_action Scenario.near_expiry "BTC-30JUN23-25000-C" 0 [])
  = Some "close_to_expiry".
Proof.
  apply (expiry_window Scenario.near_expiry "BTC-30JUN23-25000-C" "30JUN23"
           {| ordinal := 738701; micros := 0 |} 0 [] eq_refl eq_refl).
  vm_compute. reflexivity.
Defined.

(** ** Range of the blended volatility *)





(** X15. With seven closes or fewer, an empty series included, no window
    computes and the estimate is the blend of the three fallbacks, 0.73,
    whatever the prices. *)
Theorem short_history_estimate :
  forall (ex : Exchange) (k : list Q -> Z -> Q) (currency : string)
         (h : list event) (prices : list Q),
    fetched_series (ex_chart ex h (currency ++ "-PERPETUAL") "1D"
                      (Z.max HV_WINDOW_LONG 30 + 10)) = Some prices ->
    (List.length prices <= 7)%nat ->
    exists v : Q,
      fst (calculate_weighted_historical_volatility ex k currency h) = Some v
      /\ (v == 0.73)%Q.
Proof.
  intros ex k currency h prices F L.
  rewrite (calculate_weighted_run ex k currency h). cbv zeta. cbn [fst]. rewrite F.
  rewrite !short_series by (unfold HV_WINDOW_SHORT, HV_WINDOW_MEDIUM, HV_WINDOW_LONG; lia).
  eexists. split; [reflexivity |]. reflexivity.
Qed.

Lemma short_history_estimate_witness :
  exists v : Q,
    fst (calculate_weighted_historical_volatility Cases.thin Scenario.steady "BTC" [])
    = Some v
    /\ (v == 0.73)%Q.
Proof.
  apply (short_history_estimate Cases.thin Scenario.steady "BTC" []
           [30000; 30500; 29800]%Q eq_refl).
  simpl. lia.
Defined.

(** ** What the scan returns *)

Section SortPermutation.

Variable A : Type.
Variable key : A -> ratio.

Lemma insert_perm (x : A) (l : list A) : Permutation (insert key x l) (x :: l).
Proof.
  induction l as [| y l IH]; simpl; [reflexivity |].
  destruct (rltb (key y) (key x)); [| reflexivity].
  rewrite IH. apply perm_swap.
Qed.

Lemma sort_perm (l : list A) : Permutation (sort key l) l.
Proof.
  induction l as [| x l IH]; simpl; [reflexivity |].
  rewrite insert_perm. constructor. exact IH.
Qed.

Lemma sorted_perm (l : list A) (reverse : bool) : Permutation (sorted key l reverse) l.
Proof.
  unfold sorted. destruct reverse; [| apply sort_perm].
  rewrite <- Permutation_rev, sort_perm, <- Permutation_rev. reflexivity.
Qed.

End SortPermutation.

Lemma classified_kind (op : Opportunity) :
  classified op -> op_type op = "sell" \/ op_type op = "buy".
Proof.
  unfold classified, classify. intro C.
  destruct (rgtb _ _); [left; congruence |].
  destruct (rltb _ _); [right; congruence | discriminate C].
Qed.

Lemma sells_and_buys_perm (l : list Opportunity) :
  Forall classified l ->
  Permutation (filter (fun op => String.eqb (op_type op) "sell") l
               ++ filter (fun op => String.eqb (op_type op) "buy") l) l.
Proof.
  induction 1 as [| op l C Cl IH]; simpl; [reflexivity |].
  destruct (classified_kind op C) as [T | T]; rewrite T; simpl.
  - constructor. exact IH.
  - rewrite <- Permutation_middle. constructor. exact IH.
Qed.

Lemma find_opportunities_unfold (ex : Exchange) (k : list Q -> Z -> Q)
    (currency : string) (h : list event) (hv : Q) :
  let c := ex_chart ex h (currency ++ "-PERPETUAL") "1D" (Z.max HV_WINDOW_LONG 30 + 10) in
  let h1 := h ++ [EvChart (currency ++ "-PERPETUAL") "1D"
                    (Z.max HV_WINDOW_LONG 30 + 10) c] in
  let r := ex_instruments ex h1 currency in
  let h2 := h1 ++ [EvInstruments currency r] in
  let run := scan_options ex hv (listing r) [] h2 in
  fst (calculate_weighted_historical_volatility ex k currency h) = Some hv ->
  find_volatility_arbitrage_opportunities ex k currency h
  = (sorted op_iv_hv_ratio
       (filter (fun op => String.eqb (op_type op) "sell") (fst run)) true
     ++ sorted op_iv_hv_ratio
          (filter (fun op => String.eqb (op_type op) "buy") (fst run)) false,
     EvChart (currency ++ "-PERPETUAL") "1D" (Z.max HV_WINDOW_LONG 30 + 10) c
     :: EvInstruments currency r :: snd run).
Proof.
  cbv zeta. intro W. unfold find_volatility_arbitrage_opportunities.
  rewrite bind_unfold. rewrite W.
  rewrite (calculate_weighted_run ex k currency h). cbv zeta. cbn [snd].
  rewrite bind_unfold, get_available_options_run. cbn [fst snd].
  rewrite bind_unfold. unfold ret. cbn [fst snd app]. rewrite app_nil_r. reflexivity.
Qed.

(** X16. The ranking loses and repeats nothing: the list returned is a
    rearrangement of the list the loop over the listed options has built. *)
Theorem scan_keeps_everything :
  forall (ex : Exchange) (k : list Q -> Z -> Q) (currency : string)
         (h : list event) (hv : Q),
    let c := ex_chart ex h (currency ++ "-PERPETUAL") "1D"
               (Z.max HV_WINDOW_LONG 30 + 10) in
    let h1 := h ++ [EvChart (currency ++ "-PERPETUAL") "1D"
                      (Z.max HV_WINDOW_LONG 30 + 10) c] in
    let r := ex_instruments ex h1 currency in
    let h2 := h1 ++ [EvInstruments currency r] in
    fst (calculate_weighted_historical_volatility ex k currency h) = Some hv ->
    Permutation (fst (find_volatility_arbitrage_opportunities ex k currency h))
                (fst (scan_options ex hv (listing r) [] h2)).
Proof.
  intros ex k currency h hv c h1 r h2 W.
  rewrite (find_opportunities_unfold ex k currency h hv W). cbn [fst].
  fold c. fold h1. fold r. fold h2.
  rewrite !sorted_perm. apply sells_and_buys_perm.
  apply scan_options_classified. constructor.
Qed.

Lemma scan_keeps_everything_witness :
  List.length (fst (find_volatility_arbitrage_opportunities Scenario.market
                      Scenario.steady "BTC" []))
  = 3%nat.
Proof.
  rewrite (Permutation_length
             (scan_keeps_everything Scenario.market Scenario.steady "BTC" []
                (blend 60 60 60) eq_refl)).
  vm_compute. reflexivity.
Defined.

Lemma quoted_more (evs more : list event) (name : string) (iv : Q) :
  quoted evs name iv -> quoted (more ++ evs) name iv.
Proof.
  intros (b & I & M). exists b. split; [apply in_or_app; right; exact I | exact M].
Qed.

Lemma scan_options_sound (ex : Exchange) (hv : Q) (all : list OptionInfo)
    (options : list OptionInfo) :
  incl options all ->
  forall (opportunities : list Opportunity) (h : list event) (op : Opportunity),
    In op (fst (scan_options ex hv options opportunities h)) ->
    In op opportunities
    \/ ((MIN_DAYS_TO_EXPIRY <= op_days_to_expiry op <= MAX_DAYS_TO_EXPIRY)%Z
        /\ op_hv op = hv
        /\ op_iv_hv_ratio op = np_div (op_iv op) hv
        /\ listed_as all op
        /\ quoted (snd (scan_options ex hv options opportunities h))
                  (op_instrument op) (op_iv op)).
Proof.
  induction options as [| option rest IH]; intros Incl opportunities h op I.
  - left. exact I.
  - assert (Incl' : incl rest all) by (intros x X; apply Incl; right; exact X).
    assert (Here : In option all) by (apply Incl; left; reflexivity).
    specialize (IH Incl'). revert I. simpl. rewrite bind_unfold.
    change (now ex h) with (ex_clock ex h, @nil event). cbn [fst snd app].
    rewrite app_nil_r.
    destruct ((MIN_DAYS_TO_EXPIRY <=? _)%Z && (_ <=? MAX_DAYS_TO_EXPIRY)%Z) eqn:D;
      [| apply IH].
    rewrite bind_unfold, get_option_volatility_run. cbn [fst snd].
    set (e := EvOrderBook (opt_instrument_name option) 1
                (ex_order_book ex h (opt_instrument_name option) 1)).
    assert (More : forall acc,
               In op (fst (scan_options ex hv rest acc (h ++ [e]))) ->
               In op acc
               \/ ((MIN_DAYS_TO_EXPIRY <= op_days_to_expiry op <= MAX_DAYS_TO_EXPIRY)%Z
                   /\ op_hv op = hv
                   /\ op_iv_hv_ratio op = np_div (op_iv op) hv
                   /\ listed_as all op
                   /\ quoted ([e] ++ snd (scan_options ex hv rest acc (h ++ [e])))
                             (op_instrument op) (op_iv op))).
    { intros acc I. destruct (IH acc (h ++ [e]) op I) as [L | (R1 & R2 & R3 & R4 & R5)];
        [left; exact L | right].
      repeat split; try assumption; try apply R1. apply quoted_more. exact R5. }
    destruct (result_or empty_book (ex_order_book ex h (opt_instrument_name option) 1))
      as [b |] eqn:RB; [| apply More].
    destruct (mark_iv b) as [iv |] eqn:IV; [| apply More].
    destruct (classify (np_div iv hv)) as [ty |] eqn:C; [| apply More].
    intro I. destruct (More _ I) as [L | R]; [| right; exact R].
    apply in_app_or in L as [L | [L | []]]; [left; exact L | right]. subst op. simpl.
    apply andb_prop in D as [D1 D2]. apply Z.leb_le in D1, D2.
    repeat split; try assumption.
    + exists option. auto.
    + exists b. split; [| exact IV]. left. unfold e. f_equal.
      destruct (ex_order_book ex h (opt_instrument_name option) 1) as [| [b' |]];
        simpl in RB; inversion RB; subst; [reflexivity | discriminate IV].
Qed.

(** X17. Every opportunity the scan returns stands for a listed option whose
    expiry is [MIN_DAYS_TO_EXPIRY] to [MAX_DAYS_TO_EXPIRY] days away, with
    the implied volatility read in its order book, the blended historical
    volatility of this scan, and their quotient as ratio. *)
Theorem scan_sound :
  forall (ex : Exchange) (k : list Q -> Z -> Q) (currency : string)
         (h : list event) (op : Opportunity),
    In op (fst (find_volatility_arbitrage_opportunities ex k currency h)) ->
    let c := ex_chart ex h (currency ++ "-PERPETUAL") "1D"
               (Z.max HV_WINDOW_LONG 30 + 10) in
    let h1 := h ++ [EvChart (currency ++ "-PERPETUAL") "1D"
                      (Z.max HV_WINDOW_LONG 30 + 10) c] in
    (MIN_DAYS_TO_EXPIRY <= op_days_to_expiry op <= MAX_DAYS_TO_EXPIRY)%Z
    /\ fst (calculate_weighted_historical_volatility ex k currency h) = Some (op_hv op)
    /\ op_iv_hv_ratio op = np_div (op_iv op) (op_hv op)
    /\ listed_as (listing (ex_instruments ex h1 currency)) op
    /\ quoted (snd (find_volatility_arbitrage_opportunities ex k currency h))
              (op_instrument op) (op_iv op).
Proof.
  intros ex k currency h op I c h1.
  destruct (fst (calculate_weighted_historical_volatility ex k currency h))
    as [hv |] eqn:W.
  - pose proof (find_opportunities_unfold ex k currency h hv W) as F. cbv zeta in F.
    fold c in F. fold h1 in F. rewrite F in I |- *. cbn [fst snd] in I |- *.
    apply in_app_or in I.
    assert (I' : In op (fst (scan_options ex hv (listing (ex_instruments ex h1 currency))
                               [] (h1 ++ [EvInstruments currency
                                            (ex_instruments ex h1 currency)])))).
    { destruct I as [I | I];
        apply (Permutation_in _ (sorted_perm _ _ _ _)) in I;
        apply filter_In in I; tauto. }
    destruct (scan_options_sound ex hv _ _ (incl_refl _) [] _ op I')
      as [[] | (R1 & R2 & R3 & R4 & R5)].
    rewrite R2. repeat split; try assumption; try apply R1.
    apply (quoted_more _ [_; _]). exact R5.
  - exfalso. revert I. unfold find_volatility_arbitrage_opportunities.
    rewrite bind_unfold, W. simpl. tauto.
Qed.

Lemma scan_sound_witness :
  (MIN_DAYS_TO_EXPIRY
   <= op_days_to_expiry
        {| op_type := "buy"; op_instrument := "BTC-30JUN23-24000-P";
           op_iv := 30; op_hv := blend 60 60 60; op_iv_hv_ratio := np_div 30 (blend 60 60 60);
           op_days_to_expiry := 9; op_strike := 24000; op_option_type := "put" |}
   <= MAX_DAYS_TO_EXPIRY)%Z.
Proof.
  refine (proj1 (scan_sound Scenario.market Scenario.steady "BTC" [] _ _)).
  vm_compute. right; right; left. reflexivity.
Defined.

(** ** The volatility skew *)

Import Skew.

Lemma py_div_none (a b : Q) : py_div a b = None -> (b == 0)%Q.
Proof.
  unfold py_div. destruct (Qeq_bool b 0) eqn:E; [| discriminate].
  intros _. apply Qeq_bool_iff. exact E.
Qed.

Lemma py_div_defined (a b : Q) : ~ (b == 0)%Q -> py_div a b = Some (a / b)%Q.
Proof.
  intro N. unfold py_div. destruct (Qeq_bool b 0) eqn:E; [| reflexivity].
  apply Qeq_bool_iff in E. contradiction.
Qed.

Lemma fold_total (f : SkewPoint -> Q) (l : list SkewPoint) :
  forall a : Q, (fold_left (fun acc x => acc + f x) l a == a + total f l)%Q.
Proof.
  unfold total. induction l as [| x l IH]; intro a; simpl.
  - ring.
  - rewrite (IH (a + f x)%Q), (IH (0 + f x)%Q). ring.
Qed.

Lemma total_cons (f : SkewPoint -> Q) (x : SkewPoint) (l : list SkewPoint) :
  (total f (x :: l) == f x + total f l)%Q.
Proof.
  unfold total at 1. simpl. rewrite fold_total. ring.
Qed.

Lemma count_succ (n : nat) :
  (inject_Z (Z.of_nat (S n)) == inject_Z (Z.of_nat n) + 1)%Q.
Proof.
  rewrite Nat2Z.inj_succ. unfold Z.succ. rewrite inject_Z_plus. reflexivity.
Qed.

Lemma count_pos (n : nat) : (0 < inject_Z (Z.of_nat (S n)))%Q.
Proof.
  change 0%Q with (inject_Z 0). rewrite <- Zlt_Qlt. lia.
Qed.

Lemma total_ge (f : SkewPoint -> Q) (lo : Q) (l : list SkewPoint) :
  Forall (fun x => lo <= f x)%Q l ->
  (lo * inject_Z (Z.of_nat (List.length l)) <= total f l)%Q.
Proof.
  induction 1 as [| x l Hx Hl IH].
  - unfold total. simpl. change (inject_Z 0) with 0%Q. lra.
  - rewrite total_cons. cbn [List.length]. rewrite count_succ.
    apply Qle_trans with (lo * inject_Z (Z.of_nat (List.length l)) + lo)%Q;
      [apply Qle_lteq; right; ring |].
    lra.
Qed.

Lemma total_le (f : SkewPoint -> Q) (hi : Q) (l : list SkewPoint) :
  Forall (fun x => f x <= hi)%Q l ->
  (total f l <= hi * inject_Z (Z.of_nat (List.length l)))%Q.
Proof.
  induction 1 as [| x l Hx Hl IH].
  - unfold total. simpl. change (inject_Z 0) with 0%Q. lra.
  - rewrite total_cons. cbn [List.length]. rewrite count_succ.
    apply Qle_trans with (hi * inject_Z (Z.of_nat (List.length l)) + hi)%Q;
      [lra | apply Qle_lteq; right; ring].
Qed.

(** The average of a list that is not empty is defined and lies within the
    bounds of its members. *)
Lemma average_defined (f : SkewPoint -> Q) (x : SkewPoint) (l : list SkewPoint) :
  average f (x :: l)
  = Some (total f (x :: l) / inject_Z (Z.of_nat (List.length (x :: l))))%Q.
Proof.
  unfold average. apply py_div_defined.
  pose proof (count_pos (List.length l)) as P. cbn [List.length]. lra.
Qed.

Lemma average_ge (f : SkewPoint -> Q) (lo : Q) (x : SkewPoint) (l : list SkewPoint) :
  Forall (fun x => lo <= f x)%Q (x :: l) ->
  (lo <= total f (x :: l) / inject_Z (Z.of_nat (List.length (x :: l))))%Q.
Proof.
  intro F. apply Qle_shift_div_l; [apply count_pos |].
  apply total_ge. exact F.
Qed.

Lemma average_le (f : SkewPoint -> Q) (hi : Q) (x : SkewPoint) (l : list SkewPoint) :
  Forall (fun x => f x <= hi)%Q (x :: l) ->
  (total f (x :: l) / inject_Z (Z.of_nat (List.length (x :: l))) <= hi)%Q.
Proof.
  intro F. apply Qle_shift_div_r; [apply count_pos |].
  apply total_le. exact F.
Qed.

(** The two groups of a slope are apart, so the division that gives the
    slope is defined. *)
Lemma slope_defined (skew atm otm : list SkewPoint) :
  (Forall (fun p => sk_moneyness p <= 1.05)%Q atm
   /\ Forall (fun p => 1.1 <= sk_moneyness p)%Q otm)
  \/ (Forall (fun p => 0.95 <= sk_moneyness p)%Q atm
      /\ Forall (fun p => sk_moneyness p <= 0.9)%Q otm) ->
  slope skew atm otm <> None.
Proof.
  intro H. unfold slope.
  destruct (3 <=? List.length skew)%nat; [| discriminate].
  destruct atm as [| a atm]; [discriminate |].
  destruct otm as [| o otm]; [discriminate |].
  rewrite !average_defined.
  rewrite py_div_defined; [discriminate |].
  destruct H as [[A O] | [A O]].
  - pose proof (average_le sk_moneyness _ _ _ A).
    pose proof (average_ge sk_moneyness _ _ _ O).
    lra.
  - pose proof (average_ge sk_moneyness _ _ _ A).
    pose proof (average_le sk_moneyness _ _ _ O).
    lra.
Qed.

Lemma call_slope_defined (skew : list SkewPoint) :
  slope skew (filter at_the_money skew) (filter call_out_of_the_money skew) <> None.
Proof.
  apply slope_defined. left. split; apply Forall_forall; intros p P;
    apply filter_In in P; destruct P as [_ P].
  - unfold at_the_money in P. apply andb_true_iff in P. destruct P as [_ P].
    apply Qle_bool_iff in P. exact P.
  - unfold call_out_of_the_money, Qgtb in P. apply Qltb_true in P. lra.
Qed.

Lemma put_slope_defined (skew : list SkewPoint) :
  slope skew (filter at_the_money skew) (filter put_out_of_the_money skew) <> None.
Proof.
  apply slope_defined. right. split; apply Forall_forall; intros p P;
    apply filter_In in P; destruct P as [_ P].
  - unfold at_the_money in P. apply andb_true_iff in P. destruct P as [P _].
    apply Qle_bool_iff in P. exact P.
  - unfold put_out_of_the_money in P. apply Qltb_true in P. lra.
Qed.

Lemma skew_points_step (ex : Exchange) (index_price : Q) (option : OptionInfo)
    (rest : list OptionInfo) (skew : list SkewPoint) (h : list event) :
  let r := ex_order_book ex h (opt_instrument_name option) 1 in
  let e := EvOrderBook (opt_instrument_name option) 1 r in
  let iv := match result_or empty_book r with
            | Some b => mark_iv b
            | None => None
            end in
  skew_points ex index_price (option :: rest) skew h
  = match iv with
    | None =>
        (fst (skew_points ex index_price rest skew (h ++ [e])),
         e :: snd (skew_points ex index_price rest skew (h ++ [e])))
    | Some iv =>
        match py_div (opt_strike option) index_price with
        | None => (None, [e])
        | Some moneyness =>
            let skew' := (skew ++ [{| sk_strike := opt_strike option;
                                      sk_moneyness := moneyness;
                                      sk_iv := iv |}])%list in
            (fst (skew_points ex index_price rest skew' (h ++ [e])),
             e :: snd (skew_points ex index_price rest skew' (h ++ [e])))
        end
    end.
Proof.
  intros r e iv. cbn [skew_points].
  rewrite bind_unfold, get_option_volatility_run. cbn [fst snd].
  fold r. fold e. fold iv.
  destruct iv as [v |]; [| reflexivity].
  destruct (py_div (opt_strike option) index_price); reflexivity.
Qed.

(** The loop raises only on an index price of zero. *)
Lemma skew_points_raises (ex : Exchange) (index_price : Q) (options : list OptionInfo) :
  forall (skew : list SkewPoint) (h : list event),
    fst (skew_points ex index_price options skew h) = None -> (index_price == 0)%Q.
Proof.
  induction options as [| option rest IH]; intros skew h.
  - discriminate.
  - rewrite skew_points_step. cbv zeta.
    destruct (match result_or empty_book _ with Some b => mark_iv b | None => None end)
      as [iv |]; [| apply IH].
    destruct (py_div (opt_strike option) index_price) eqn:D; [apply IH |].
    intros _. exact (py_div_none _ _ D).
Qed.

Lemma point_of_more (known : list OptionInfo) (index_price : Q)
    (evs evs' : list event) (p : SkewPoint) :
  incl evs evs' -> point_of known index_price evs p -> point_of known index_price evs' p.
Proof.
  intros I (o & K & S & M & b & B & V).
  exists o. repeat split; try assumption. exists b. split; [apply I, B | exact V].
Qed.

(** Every point the loop adds stands for the option of its turn, with the
    volatility read in the order book of that turn. *)
Lemma skew_points_sound (ex : Exchange) (index_price : Q) (known : list OptionInfo)
    (options : list OptionInfo) :
  forall (skew res : list SkewPoint) (h evs : list event),
    incl options known ->
    incl (snd (skew_points ex index_price options skew h)) evs ->
    Forall (point_of known index_price evs) skew ->
    fst (skew_points ex index_price options skew h) = Some res ->
    Forall (point_of known index_price evs) res.
Proof.
  induction options as [| option rest IH]; intros skew res h evs K E F.
  - cbn. intro R. injection R as <-. exact F.
  - revert E. rewrite skew_points_step. cbv zeta.
    assert (K' : incl rest known) by (intros o O; apply K; right; exact O).
    destruct (result_or empty_book _) as [b |] eqn:B; [destruct (mark_iv b) as [iv |] eqn:V |].
    + destruct (py_div (opt_strike option) index_price) as [m |] eqn:D;
        [| discriminate].
      cbn [fst snd]. intros E R.
      apply (IH _ res _ evs K') in R; [exact R | |].
      * intros e I. apply E. right. exact I.
      * apply Forall_app. split; [exact F |].
        constructor; [| constructor].
        exists option. cbn. repeat split.
        -- apply K. left. reflexivity.
        -- unfold py_div in D. destruct (Qeq_bool index_price 0); [discriminate |].
           injection D as <-. reflexivity.
        -- destruct (ex_order_book ex h (opt_instrument_name option) 1) as [| [b' |]] eqn:O;
             cbn in B; try discriminate.
           ++ injection B as ->. exists b. split; [apply E; left; reflexivity | exact V].
           ++ injection B as <-. discriminate.
    + cbn [fst snd]. intros E R.
      apply (IH _ res _ evs K') in R; [exact R | | exact F].
      intros e I. apply E. right. exact I.
    + cbn [fst snd]. intros E R.
      apply (IH _ res _ evs K') in R; [exact R | | exact F].
      intros e I. apply E. right. exact I.
Qed.

(** Over options in the order of their strikes, the loop gives points in
    the order of their strikes. *)
Lemma skew_points_sorted (ex : Exchange) (index_price : Q) (options : list OptionInfo) :
  forall (skew res : list SkewPoint) (h : list event),
    StronglySorted (key_le by_strike) options ->
    StronglySorted strike_le skew ->
    Forall (fun p => Forall (fun o => sk_strike p <= opt_strike o)%Q options) skew ->
    fst (skew_points ex index_price options skew h) = Some res ->
    StronglySorted strike_le res.
Proof.
  induction options as [| option rest IH]; intros skew res h O S B.
  - cbn. intro R. injection R as <-. exact S.
  - rewrite skew_points_step. cbv zeta.
    inversion O as [| ? ? O' L]; subst.
    assert (B' : Forall (fun p => Forall (fun o => sk_strike p <= opt_strike o)%Q rest) skew).
    { eapply Forall_impl; [| exact B]. intros p P. inversion P; assumption. }
    destruct (match result_or empty_book _ with Some b => mark_iv b | None => None end)
      as [iv |]; [| cbn [fst]; apply IH; assumption].
    destruct (py_div (opt_strike option) index_price) as [m |]; [| discriminate].
    cbn [fst]. apply IH; [exact O' | |].
    + apply StronglySorted_snoc; [exact S |].
      eapply Forall_impl; [| exact B]. intros p P. inversion P; assumption.
    + apply Forall_app. split; [exact B' |].
      constructor; [| constructor]. cbn.
      eapply Forall_impl; [| exact L]. intros o Ho.
      unfold key_le, by_strike in Ho. cbn in Ho. apply Qle_bool_iff in Ho. exact Ho.
Qed.

Lemma by_strike_number (options : list OptionInfo) :
  Forall (key_number by_strike) options.
Proof.
  apply Forall_forall. intros o _. unfold key_number, by_strike. discriminate.
Qed.

Lemma sorted_incl (options : list OptionInfo) :
  incl (sorted by_strike options false) options.
Proof.
  intros o O. eapply Permutation_in; [| exact O].
  apply sorted_perm.
Qed.

Lemma analyze_volatility_skew_unfold (ex : Exchange)
    (index_price_key : list event -> string -> option Q)
    (currency expiry_date : string) (h : list event) :
  let r := ex_instruments ex h currency in
  let h1 := (h ++ [EvInstruments currency r])%list in
  let calls := side expiry_date "call" (listing r) in
  let puts := side expiry_date "put" (listing r) in
  analyze_volatility_skew ex index_price_key currency expiry_date h
  = match filter (fun opt => contains expiry_date (opt_instrument_name opt)) (listing r) with
    | [] => (SkewReturned None, [EvInstruments currency r])
    | _ :: _ =>
        match calls with
        | [] => (SkewReturned None, [EvInstruments currency r])
        | first :: _ =>
            let b := ex_order_book ex h1 (opt_instrument_name first) 1 in
            let e := EvOrderBook (opt_instrument_name first) 1 b in
            let h2 := (h1 ++ [e])%list in
            match (match b with
                   | ApiResult None => None
                   | _ => index_price_key h1 (opt_instrument_name first)
                   end) with
            | None => (SkewReturned None, [EvInstruments currency r; e])
            | Some index_price =>
                let c := skew_points ex index_price (sorted by_strike calls false) [] h2 in
                match fst c with
                | None => (ZeroDivisionError, EvInstruments currency r :: e :: snd c)
                | Some call_skew =>
                    let p := skew_points ex index_price (sorted by_strike puts false) []
                               (h2 ++ snd c) in
                    let evs := (EvInstruments currency r :: e :: snd c ++ snd p)%list in
                    match fst p with
                    | None => (ZeroDivisionError, evs)
                    | Some put_skew =>
                        match slope call_skew (filter at_the_money call_skew)
                                    (filter call_out_of_the_money call_skew),
                              slope put_skew (filter at_the_money put_skew)
                                    (filter put_out_of_the_money put_skew) with
                        | Some call_skew_slope, Some put_skew_slope =>
                            (SkewReturned
                               (Some {| sm_currency := currency;
                                        sm_expiry := expiry_date;
                                        sm_index_price := index_price;
                                        sm_call_skew := call_skew;
                                        sm_put_skew := put_skew;
                                        sm_call_skew_slope := call_skew_slope;
                                        sm_put_skew_slope := put_skew_slope |}),
                             evs)
                        | _, _ => (ZeroDivisionError, evs)
                        end
                    end
                end
            end
        end
    end.
Proof.
  intros r h1 calls puts. unfold analyze_volatility_skew.
  rewrite bind_unfold, get_available_options_run. cbn [fst snd]. fold r. fold h1.
  unfold calls, puts, side.
  destruct (filter (fun opt => contains expiry_date (opt_instrument_name opt)) (listing r))
    as [| x expiry_options]; [reflexivity |].
  set (all := x :: expiry_options).
  destruct (filter (fun opt => (lower (opt_option_type opt) =? "call")%string) all)
    as [| first others]; [reflexivity |].
  rewrite bind_unfold.
  change (get_index_price ex index_price_key (opt_instrument_name first) h1)
    with (match ex_order_book ex h1 (opt_instrument_name first) 1 with
          | ApiResult None => None
          | _ => index_price_key h1 (opt_instrument_name first)
          end,
          [EvOrderBook (opt_instrument_name first) 1
             (ex_order_book ex h1 (opt_instrument_name first) 1)]).
  cbn [fst snd]. cbv zeta.
  destruct (match ex_order_book ex h1 (opt_instrument_name first) 1 with
            | ApiResult None => None
            | _ => index_price_key h1 (opt_instrument_name first)
            end) as [index_price |]; [| reflexivity].
  rewrite bind_unfold.
  destruct (fst (skew_points ex index_price _ [] _)) as [call_skew |];
    [| unfold ret; cbn [fst snd]; rewrite app_nil_r; reflexivity].
  rewrite bind_unfold.
  destruct (fst (skew_points ex index_price (sorted by_strike (filter _ all) false) [] _))
    as [put_skew |];
    [| unfold ret; cbn [fst snd]; rewrite app_nil_r; reflexivity].
  destruct (slope call_skew _ _); [destruct (slope put_skew _ _) |];
    unfold ret; cbn [fst snd]; rewrite app_nil_r; reflexivity.
Qed.

(** X18. The skew of an expiry is analysed only when a call of that expiry is
    listed: with puts alone, or nothing, the analysis returns nothing after
    the request for the instruments and reads no order book. *)
Theorem skew_needs_a_call :
  forall (ex : Exchange) (index_price_key : list event -> string -> option Q)
         (currency expiry_date : string) (h : list event),
    let r := ex_instruments ex h currency in
    side expiry_date "call" (listing r) = [] ->
    analyze_volatility_skew ex index_price_key currency expiry_date h
    = (SkewReturned None, [EvInstruments currency r]).
Proof.
  intros ex ipk currency expiry_date h r C.
  rewrite analyze_volatility_skew_unfold. cbv zeta. fold r. rewrite C.
  destruct (filter _ (listing r)); reflexivity.
Qed.

Lemma skew_needs_a_call_witness :
  side "28JUL23" "put" (listing (ex_instruments Cases.puts_only [] "BTC")) <> []
  /\ fst (analyze_volatility_skew Cases.puts_only Cases.index_25000 "BTC" "28JUL23" [])
     = SkewReturned None.
Proof.
  split; [vm_compute; discriminate |].
  rewrite (skew_needs_a_call Cases.puts_only Cases.index_25000 "BTC" "28JUL23" [] eq_refl).
  reflexivity.
Defined.

(** X19. The analysis raises [ZeroDivisionError] only when the index price read
    in the order book of the first listed call is zero; the averages and the
    slopes never divide by zero. *)
Theorem skew_raises_on_zero_index_only :
  forall (ex : Exchange) (index_price_key : list event -> string -> option Q)
         (currency expiry_date : string) (h : list event),
    let r := ex_instruments ex h currency in
    fst (analyze_volatility_skew ex index_price_key currency expiry_date h)
    = ZeroDivisionError ->
    exists (first : OptionInfo) (index_price : Q),
      hd_error (side expiry_date "call" (listing r)) = Some first
      /\ index_price_key (h ++ [EvInstruments currency r]) (opt_instrument_name first)
         = Some index_price
      /\ (index_price == 0)%Q.
Proof.
  intros ex ipk currency expiry_date h r.
  rewrite analyze_volatility_skew_unfold. cbv zeta. fold r.
  destruct (filter _ (listing r)); [discriminate |].
  destruct (side expiry_date "call" (listing r)) as [| first others]; [discriminate |].
  set (h1 := (h ++ [EvInstruments currency r])%list).
  destruct (ex_order_book ex h1 (opt_instrument_name first) 1) as [| [b |]] eqn:B;
    try discriminate;
    (destruct (ipk h1 (opt_instrument_name first)) as [index_price |] eqn:I;
     [| discriminate]);
    (destruct (fst (skew_points ex index_price _ [] _)) as [call_skew |] eqn:C;
     [| intros _; exists first, index_price; repeat split; try assumption;
        exact (skew_points_raises _ _ _ _ _ C)]);
    (destruct (fst (skew_points ex index_price (sorted by_strike (side expiry_date "put" _) false) [] _))
       as [put_skew |] eqn:P;
     [| intros _; exists first, index_price; repeat split; try assumption;
        exact (skew_points_raises _ _ _ _ _ P)]);
    pose proof (call_slope_defined call_skew) as SC;
    pose proof (put_slope_defined put_skew) as SP;
    (destruct (slope call_skew _ _); [| congruence]);
    (destruct (slope put_skew _ _); [discriminate | congruence]).
Qed.

Lemma skew_raises_on_zero_index_only_witness :
  exists (first : OptionInfo) (index_price : Q),
    hd_error (side "30JUN23" "call" (listing (ex_instruments Scenario.market [] "BTC")))
    = Some first
    /\ Cases.index_zero ([] ++ [EvInstruments "BTC" (ex_instruments Scenario.market [] "BTC")])
                        (opt_instrument_name first)
       = Some index_price
    /\ (index_price == 0)%Q.
Proof.
  apply (skew_raises_on_zero_index_only Scenario.market Cases.index_zero "BTC" "30JUN23" []).
  vm_compute. reflexivity.
Defined.

(** X20. What the analysis returns: the index price is the one read in the order
    book of the first listed call; every point of the call skew stands for a
    listed call of the expiry and every point of the put skew for a listed
    put, with the strike of the option, the strike over the index price and
    a volatility read in an order book; the points of each skew follow each
    other by increasing strike. *)
Theorem skew_points_of_listing :
  forall (ex : Exchange) (index_price_key : list event -> string -> option Q)
         (currency expiry_date : string) (h : list event) (m : SkewMetrics),
    let r := ex_instruments ex h currency in
    let run := analyze_volatility_skew ex index_price_key currency expiry_date h in
    fst run = SkewReturned (Some m) ->
    (exists first : OptionInfo,
        hd_error (side expiry_date "call" (listing r)) = Some first
        /\ index_price_key (h ++ [EvInstruments currency r]) (opt_instrument_name first)
           = Some (sm_index_price m))
    /\ Forall (point_of (side expiry_date "call" (listing r)) (sm_index_price m) (snd run))
              (sm_call_skew m)
    /\ Forall (point_of (side expiry_date "put" (listing r)) (sm_index_price m) (snd run))
              (sm_put_skew m)
    /\ StronglySorted strike_le (sm_call_skew m)
    /\ StronglySorted strike_le (sm_put_skew m).
Proof.
  intros ex ipk currency expiry_date h m r run. unfold run.
  rewrite analyze_volatility_skew_unfold. cbv zeta. fold r.
  destruct (filter _ (listing r)); [discriminate |].
  destruct (side expiry_date "call" (listing r)) as [| first others] eqn:Calls;
    [discriminate |].
  rewrite <- Calls.
  set (h1 := (h ++ [EvInstruments currency r])%list).
  set (b := ex_order_book ex h1 (opt_instrument_name first) 1).
  destruct (match b with
            | ApiResult None => None
            | _ => ipk h1 (opt_instrument_name first)
            end) as [index_price |] eqn:I; [| discriminate].
  assert (I' : ipk h1 (opt_instrument_name first) = Some index_price)
    by (destruct b as [| [? |]]; [exact I | exact I | discriminate]).
  destruct (fst (skew_points ex index_price _ [] _)) as [call_skew |] eqn:C;
    [| discriminate].
  destruct (fst (skew_points ex index_price (sorted by_strike (side expiry_date "put" _) false) [] _))
    as [put_skew |] eqn:P; [| discriminate].
  destruct (slope call_skew _ _) as [cs |]; [| discriminate].
  destruct (slope put_skew _ _) as [ps |]; [| discriminate].
  cbn [fst snd]. intro R. injection R as <-. cbn.
  split; [exists first; rewrite Calls; split; [reflexivity | exact I'] |].
  split; [| split; [| split]].
  - eapply skew_points_sound; [apply sorted_incl | | constructor | exact C].
    intros e E. right. right. apply in_or_app. left. exact E.
  - eapply skew_points_sound; [apply sorted_incl | | constructor | exact P].
    intros e E. right. right. apply in_or_app. right. exact E.
  - eapply skew_points_sorted; [| constructor | constructor | exact C].
    apply sorted_ascending, by_strike_number.
  - eapply skew_points_sorted; [| constructor | constructor | exact P].
    apply sorted_ascending, by_strike_number.
Qed.

Lemma skew_points_of_listing_witness :
  exists m : SkewMetrics,
    fst (analyze_volatility_skew Scenario.market Cases.index_25000 "BTC" "30JUN23" [])
    = SkewReturned (Some m)
    /\ map sk_strike (sm_call_skew m) = [25000%Q; 26000%Q; 27000%Q]
    /\ StronglySorted strike_le (sm_call_skew m).
Proof.
  eexists. split; [vm_compute; reflexivity |]. split; [reflexivity |].
  refine (proj1 (proj2 (proj2 (proj2
            (skew_points_of_listing Scenario.market Cases.index_25000 "BTC" "30JUN23" []
               _ _))))).
  vm_compute. reflexivity.
Defined.

(** ** The HTTP client *)

Import Client.

Lemma create_session_run (P A : Type) (self : DeribitClient) (h : list (http_event P A)) :
  exists s : Session,
    @create_session P A self h = (s, opened self, [])
    /\ session (opened self) = Some s
    /\ closed s = false.
Proof.
  unfold create_session, opened, Client.bind, get_self, modify, Client.ret.
  destruct (session self) as [s |] eqn:S.
  - destruct (closed s) eqn:K.
    + exists ClientSession. repeat split.
    + exists s. repeat split; assumption.
  - exists ClientSession. repeat split.
Qed.

Lemma store_tokens_run (P A : Type) (net : Network P A) (result : option Tokens)
    (self : DeribitClient) (h : list (http_event P A)) :
  store_tokens net result self h
  = (true, granted result (net_time net h) self, [Time (net_time net h)]).
Proof.
  unfold store_tokens, Client.bind, modify, time, get_self, Client.ret.
  cbn [app]. rewrite !app_nil_r. reflexivity.
Qed.

Lemma authenticate_run (P A : Type) (net : Network P A) (self : DeribitClient)
    (h : list (http_event P A)) :
  let t0 := net_time net h in
  let h1 := (h ++ [Time t0])%list in
  let body := ClientCredentials API_KEY API_SECRET in
  let a := net_auth net h1 body (header (opened self)) in
  let sent := [Time t0; PostAuth body (header (opened self)) a] in
  authenticate net self h
  = match a with
    | Json (ApiResult result) =>
        let t1 := net_time net (h ++ sent)%list in
        (true, granted result t1 (opened self), (sent ++ [Time t1])%list)
    | _ => (false, opened self, sent)
    end.
Proof.
  intros t0 h1 body a sent. unfold authenticate.
  destruct (create_session_run P A self h) as (s & R & _ & _).
  unfold Client.bind at 1. rewrite R. rewrite app_nil_r.
  unfold Client.bind, time, post_auth. cbn [app].
  fold t0. fold h1. fold body. fold a.
  destruct a as [message | [| result]]; try reflexivity.
  rewrite store_tokens_run. cbn [app]. unfold sent, h1.
  rewrite <- app_assoc. reflexivity.
Qed.

Lemma consistent_opened (self : DeribitClient) :
  consistent self -> consistent (opened self).
Proof.
  unfold consistent, opened, header.
  destruct (session self) as [s |] eqn:S; [| intros _; exact I].
  destruct (closed s); [intros _; exact I |].
  rewrite S. auto.
Qed.

Lemma consistent_granted (result : option Tokens) (now : Q) (self : DeribitClient) :
  consistent (granted result now self).
Proof.
  unfold consistent, granted, header, update_authorization. cbn.
  destruct (session self) as [s |] eqn:S; cbn; [reflexivity |].
  rewrite S. exact I.
Qed.

Lemma bodies_app (P A : Type) (l l' : list (http_event P A)) :
  bodies (l ++ l') = (bodies l ++ bodies l')%list.
Proof.
  unfold bodies. apply flat_map_app.
Qed.

Lemma calls_app (P A : Type) (l l' : list (http_event P A)) :
  filter is_call (l ++ l') = (filter is_call l ++ filter is_call l')%list.
Proof.
  apply filter_app.
Qed.

(** [authenticate] posts the credentials once and calls no other end
    point; it leaves the header in step with the token. *)
Lemma authenticate_facts (P A : Type) (net : Network P A) (self : DeribitClient)
    (h : list (http_event P A)) :
  let run := authenticate net self h in
  bodies (events run) = [ClientCredentials API_KEY API_SECRET]
  /\ filter is_call (events run) = []
  /\ (consistent self -> consistent (after run)).
Proof.
  intro run. unfold run. rewrite authenticate_run. cbv zeta.
  destruct (net_auth net _ _ _) as [message | [| result]];
    (split; [reflexivity | split; [reflexivity |]]); intro K; unfold after; cbn [fst snd];
    try (apply consistent_opened; exact K).
  apply consistent_granted.
Qed.

Lemma refresh_auth_run (P A : Type) (net : Network P A) (self : DeribitClient)
    (h : list (http_event P A)) :
  refresh_auth net self h
  = match refresh_token self with
    | None => authenticate net self h
    | Some token =>
        if String.eqb token "" then authenticate net self h
        else
          let a := net_auth net h (RefreshToken token) (header (opened self)) in
          let e := PostAuth (RefreshToken token) (header (opened self)) a in
          match a with
          | Json (ApiResult result) =>
              let t := net_time net (h ++ [e])%list in
              (true, granted result t (opened self), [e; Time t])
          | _ =>
              let run := authenticate net (opened self) (h ++ [e])%list in
              (returned run, after run, e :: events run)
          end
    end.
Proof.
  unfold refresh_auth. unfold Client.bind at 1. unfold get_self at 1.
  destruct (refresh_token self) as [token |]; cbn [app].
  - destruct (String.eqb token "").
    + rewrite app_nil_r. destruct (authenticate net self h) as [[ok self'] evs]. reflexivity.
    + destruct (create_session_run P A self (h ++ [])%list) as (s & R & _ & _).
      unfold Client.bind at 1. rewrite R. rewrite !app_nil_r.
      unfold Client.bind at 1. unfold post_auth at 1. cbv zeta.
      destruct (net_auth net h (RefreshToken token) (header (opened self)))
        as [message | [| result]].
      * unfold returned, after, events.
        destruct (authenticate net (opened self) _) as [[ok self'] evs]. reflexivity.
      * unfold returned, after, events.
        destruct (authenticate net (opened self) _) as [[ok self'] evs]. reflexivity.
      * rewrite store_tokens_run. reflexivity.
  - rewrite app_nil_r. destruct (authenticate net self h) as [[ok self'] evs]. reflexivity.
Qed.

Lemma refresh_auth_facts (P A : Type) (net : Network P A) (self : DeribitClient)
    (h : list (http_event P A)) :
  let run := refresh_auth net self h in
  renewal self (bodies (events run))
  /\ filter is_call (events run) = []
  /\ (consistent self -> consistent (after run)).
Proof.
  intro run. unfold run. rewrite refresh_auth_run.
  pose proof (authenticate_facts P A net self h) as (B & C & K).
  destruct (refresh_token self) as [token |] eqn:T;
    [destruct (String.eqb token "") eqn:E |];
    try (split; [left; exact B | split; [exact C | exact K]]).
  assert (N : token <> "") by (apply String.eqb_neq; exact E).
  cbv zeta.
  destruct (net_auth net h (RefreshToken token) (header (opened self)))
    as [message | [| result]].
  - pose proof (authenticate_facts P A net (opened self)
                  (h ++ [PostAuth (RefreshToken token) (header (opened self)) (Raises message)]))
      as (B' & C' & K').
    unfold events, after in *. cbn [fst snd]. split; [| split].
    + right. exists token. repeat split; try assumption. right.
      change (bodies (?e :: ?l)) with (bodies [e] ++ bodies l)%list.
      rewrite B'. reflexivity.
    + cbn [filter is_call]. exact C'.
    + intro S. apply K', consistent_opened, S.
  - pose proof (authenticate_facts P A net (opened self)
                  (h ++ [PostAuth (RefreshToken token) (header (opened self)) (Json ApiError)]))
      as (B' & C' & K').
    unfold events, after in *. cbn [fst snd]. split; [| split].
    + right. exists token. repeat split; try assumption. right.
      change (bodies (?e :: ?l)) with (bodies [e] ++ bodies l)%list.
      rewrite B'. reflexivity.
    + cbn [filter is_call]. exact C'.
    + intro S. apply K', consistent_opened, S.
  - unfold events, after. cbn [fst snd]. split; [| split].
    + right. exists token. repeat split; try assumption. left. reflexivity.
    + reflexivity.
    + intros _. apply consistent_granted.
Qed.

Lemma check_auth_run (P A : Type) (net : Network P A) (self : DeribitClient)
    (h : list (http_event P A)) :
  let t := net_time net h in
  check_auth net self h
  = if truthy_str (access_token self) then
      if Qgtb t (token_expiry self) then
        if truthy_str (refresh_token self) then
          let t' := net_time net (h ++ [Time t])%list in
          let run := (if Qle_bool t' (token_expiry self + 3600)
                      then refresh_auth net self (h ++ [Time t; Time t'])%list
                      else authenticate net self (h ++ [Time t; Time t'])%list) in
          (returned run, after run, Time t :: Time t' :: events run)
        else
          let run := authenticate net self (h ++ [Time t])%list in
          (returned run, after run, Time t :: events run)
      else (true, self, [Time t])
    else
      if truthy_str (refresh_token self) then
        let t' := net_time net h in
        let run := (if Qle_bool t' (token_expiry self + 3600)
                    then refresh_auth net self (h ++ [Time t'])%list
                    else authenticate net self (h ++ [Time t'])%list) in
        (returned run, after run, Time t' :: events run)
      else authenticate net self h.
Proof.
  intro t. unfold check_auth, returned, after, events.
  unfold Client.bind, get_self, time, Client.ret. cbn [app negb].
  destruct (truthy_str (access_token self)); cbn [negb app].
  - rewrite ?app_nil_r. fold t.
    destruct (Qgtb t (token_expiry self)); [| reflexivity].
    destruct (truthy_str (refresh_token self)).
    + cbn [app]. rewrite ?app_nil_r.
      replace ((h ++ [Time t]) ++ [Time (net_time net (h ++ [Time t]))])%list
        with (h ++ [Time t; Time (net_time net (h ++ [Time t]))])%list
        by (rewrite <- app_assoc; reflexivity).
      destruct (Qle_bool _ _).
      * destruct (refresh_auth net self _) as [[ok self'] evs]. reflexivity.
      * destruct (authenticate net self _) as [[ok self'] evs]. reflexivity.
    + cbn [app]. rewrite ?app_nil_r.
      destruct (authenticate net self _) as [[ok self'] evs]. reflexivity.
  - rewrite ?app_nil_r.
    destruct (truthy_str (refresh_token self)).
    + cbn [app]. rewrite ?app_nil_r.
      destruct (Qle_bool _ _).
      * destruct (refresh_auth net self _) as [[ok self'] evs]. reflexivity.
      * destruct (authenticate net self _) as [[ok self'] evs]. reflexivity.
    + cbn [app]. rewrite ?app_nil_r.
      destruct (authenticate net self h) as [[ok self'] evs]. reflexivity.
Qed.

Lemma bodies_time (P A : Type) (t : Q) (l : list (http_event P A)) :
  bodies (Time t :: l) = bodies l.
Proof.
  reflexivity.
Qed.

Lemma calls_time (P A : Type) (t : Q) (l : list (http_event P A)) :
  filter is_call (Time t :: l) = filter is_call l.
Proof.
  reflexivity.
Qed.

Lemma check_auth_facts (P A : Type) (net : Network P A) (self : DeribitClient)
    (h : list (http_event P A)) :
  let run := check_auth net self h in
  (bodies (events run) = [] \/ renewal self (bodies (events run)))
  /\ filter is_call (events run) = []
  /\ (consistent self -> consistent (after run)).
Proof.
  intro run. unfold run. rewrite check_auth_run. cbv zeta.
  destruct (truthy_str (access_token self));
    [destruct (Qgtb _ _) |];
    try (destruct (truthy_str (refresh_token self)); [destruct (Qle_bool _ _) |]);
    unfold events, after, returned; cbn [fst snd];
    repeat match goal with
    | |- context [refresh_auth net self ?hh] =>
        let B := fresh "B" in let C := fresh "C" in let K := fresh "K" in
        pose proof (refresh_auth_facts P A net self hh) as (B & C & K);
        unfold events, after in B, C, K;
        destruct (refresh_auth net self hh) as [[ok self'] evs]
    | |- context [authenticate net self ?hh] =>
        let B := fresh "B" in let C := fresh "C" in let K := fresh "K" in
        pose proof (authenticate_facts P A net self hh) as (B & C & K);
        unfold events, after in B, C, K;
        destruct (authenticate net self hh) as [[ok self'] evs]
    end;
    cbn [fst snd] in *; rewrite ?bodies_time, ?calls_time;
    try (split; [right; first [exact B | left; exact B] | split; [assumption | exact K]]).
  split; [left; reflexivity | split; [reflexivity | auto]].
Qed.

Lemma request_run (P A : Type) (net : Network P A) (method endpoint : string)
    (params : P) (is_private : bool) (self : DeribitClient) (h : list (http_event P A)) :
  let pre := if is_private then check_auth net self h else (true, self, []) in
  let self1 := opened (after pre) in
  let h1 := (h ++ events pre)%list in
  let url := (API_URL ++ endpoint)%string in
  request net method endpoint params is_private self h
  = if is_private && negb (returned pre) then
      (Refused "Authentication failed", after pre, events pre)
    else if String.eqb (upper method) "GET" then
      let a := net_get net h1 url params (header self1) in
      (received a, self1, (events pre ++ [Get url params (header self1) a])%list)
    else if String.eqb (upper method) "POST" then
      let a := net_post net h1 url params (header self1) in
      (received a, self1, (events pre ++ [Post url params (header self1) a])%list)
    else (Refused ("Unsupported HTTP method: " ++ method)%string, self1, events pre).
Proof.
  intros pre self1 h1 url. unfold request.
  unfold Client.bind at 1.
  assert (E : (if is_private then check_auth net else Client.ret true) self h = pre)
    by (unfold pre; destruct is_private; reflexivity).
  rewrite E. unfold self1, h1, returned, after, events.
  destruct pre as [[ok self'] evs]. cbn [fst snd].
  destruct (is_private && negb ok); [unfold Client.ret; rewrite app_nil_r; reflexivity |].
  destruct (create_session_run P A self' (h ++ evs)%list) as (s & R & _ & _).
  unfold Client.bind at 1. rewrite R. rewrite app_nil_r. cbn [app].
  fold url.
  destruct (String.eqb (upper method) "GET").
  - unfold Client.bind, session_get, Client.ret. cbv zeta.
    destruct (net_get net (h ++ evs) url params (header (opened self'))); reflexivity.
  - destruct (String.eqb (upper method) "POST").
    + unfold Client.bind, session_post, Client.ret. cbv zeta.
      destruct (net_post net (h ++ evs) url params (header (opened self'))); reflexivity.
    + unfold Client.ret. rewrite app_nil_r. reflexivity.
Qed.

Lemma check_auth_valid (P A : Type) (net : Network P A) (self : DeribitClient)
    (h : list (http_event P A)) :
  truthy_str (access_token self) = true ->
  (net_time net h <= token_expiry self)%Q ->
  check_auth net self h = (true, self, [Time (net_time net h)]).
Proof.
  intros T E. rewrite check_auth_run. cbv zeta. rewrite T.
  assert (G : Qgtb (net_time net h) (token_expiry self) = false)
    by (unfold Qgtb; apply Qltb_false; exact E).
  rewrite G. reflexivity.
Qed.

(** X21. While the client holds an access token and the clock has not
    passed its expiry, [check_auth] succeeds at once: it reads the clock,
    sends nothing and leaves the client as it is. *)
Theorem valid_token_no_traffic :
  forall (P A : Type) (net : Network P A) (self : DeribitClient)
         (h : list (http_event P A)),
    truthy_str (access_token self) = true ->
    (net_time net h <= token_expiry self)%Q ->
    check_auth net self h = (true, self, [Time (net_time net h)]).
Proof.
  intros P A net self h T E. apply check_auth_valid; assumption.
Qed.

Lemma valid_token_no_traffic_witness :
  check_auth Cases.online (Cases.holding false) []
  = (true, Cases.holding false, [Time 1000%Q]).
Proof.
  apply (valid_token_no_traffic unit unit Cases.online (Cases.holding false) []).
  - reflexivity.
  - vm_compute. discriminate.
Defined.

(** X22. A private request whose authentication fails is answered by the
    client itself with the error "Authentication failed": nothing is sent to
    the end point, whatever the method. *)
Theorem private_request_needs_auth :
  forall (P A : Type) (net : Network P A) (method endpoint : string) (params : P)
         (self : DeribitClient) (h : list (http_event P A)),
    returned (check_auth net self h) = false ->
    let run := request net method endpoint params true self h in
    returned run = Refused "Authentication failed"
    /\ events run = events (check_auth net self h)
    /\ filter is_call (events run) = [].
Proof.
  intros P A net method endpoint params self h F run. unfold run.
  rewrite request_run. cbv zeta. rewrite F. cbn [andb negb].
  unfold returned, events. cbn [fst snd].
  split; [reflexivity | split; [reflexivity |]].
  apply (check_auth_facts P A net self h).
Qed.

Lemma private_request_needs_auth_witness :
  returned (post_private Cases.offline "private/buy" tt init [])
  = Refused "Authentication failed".
Proof.
  apply (private_request_needs_auth unit unit Cases.offline "POST" "private/buy" tt init []).
  reflexivity.
Defined.

(** X23. The header follows the token: if the [Authorization] header of
    the session, when it has one, is the bearer of the access token the
    client holds, then this is still so after any method of the client. *)
Theorem authorization_follows_token :
  forall (P A : Type) (net : Network P A) (self : DeribitClient)
         (h : list (http_event P A)),
    consistent self ->
    consistent (after (@create_session P A self h))
    /\ consistent (after (@close_session P A self h))
    /\ consistent (after (authenticate net self h))
    /\ consistent (after (refresh_auth net self h))
    /\ consistent (after (check_auth net self h))
    /\ forall (method endpoint : string) (params : P) (is_private : bool),
         consistent (after (request net method endpoint params is_private self h)).
Proof.
  intros P A net self h K.
  split; [| split; [| split; [| split; [| split]]]].
  - destruct (create_session_run P A self h) as (s & R & _ & _). rewrite R.
    apply consistent_opened, K.
  - revert K. unfold close_session, Client.bind, get_self, modify, Client.ret, after,
      consistent, header.
    destruct (session self) as [s |] eqn:S; cbn; [| rewrite S; auto].
    destruct (closed s); cbn; [rewrite S |]; auto.
  - apply (authenticate_facts P A net self h), K.
  - apply (refresh_auth_facts P A net self h), K.
  - apply (check_auth_facts P A net self h), K.
  - intros method endpoint params is_private. rewrite request_run. cbv zeta.
    assert (K' : consistent (after (if is_private then check_auth net self h
                                    else (true, self, [])))).
    { destruct is_private; [apply (check_auth_facts P A net self h), K | exact K]. }
    destruct (is_private && negb _); [exact K' |].
    destruct (String.eqb (upper method) "GET");
      [| destruct (String.eqb (upper method) "POST")];
      unfold after at 1; cbn [fst snd]; apply consistent_opened, K'.
Qed.

Lemma authorization_follows_token_witness :
  consistent (after (get_private Cases.online "private/get_positions" tt init [])).
Proof.
  apply (authorization_follows_token unit unit Cases.online init [] I).
Defined.

(** X24. [check_auth] never calls an end point, and what it posts to
    [public/auth] is nothing, the credentials alone, the refresh token the
    client holds alone, or that refresh token followed by the credentials. *)
Theorem check_auth_traffic :
  forall (P A : Type) (net : Network P A) (self : DeribitClient)
         (h : list (http_event P A)),
    let run := check_auth net self h in
    filter is_call (events run) = []
    /\ (bodies (events run) = [] \/ renewal self (bodies (events run))).
Proof.
  intros P A net self h run.
  destruct (check_auth_facts P A net self h) as (B & C & _).
  split; [exact C | exact B].
Qed.

(** X25. An answer of [public/auth] with neither error nor result counts
    as a success: [authenticate] returns [True], the client holds no token,
    its session sends the header "Bearer None", and the expiry is 60 seconds
    before the time read after the answer. *)
Theorem empty_grant_accepted :
  forall (P A : Type) (net : Network P A) (self : DeribitClient)
         (h : list (http_event P A)),
    let t0 := net_time net h in
    let body := ClientCredentials API_KEY API_SECRET in
    let sent := [Time t0; PostAuth body (header (opened self)) (Json (ApiResult None))] in
    net_auth net (h ++ [Time t0]) body (header (opened self)) = Json (ApiResult None) ->
    let run := authenticate net self h in
    returned run = true
    /\ access_token (after run) = None
    /\ refresh_token (after run) = None
    /\ header (after run) = Some "Bearer None"
    /\ (token_expiry (after run) == net_time net (h ++ sent) - 60)%Q.
Proof.
  intros P A net self h t0 body sent E run. unfold run.
  rewrite authenticate_run. cbv zeta. fold t0. fold body. rewrite E.
  unfold returned, after. cbn [fst snd].
  destruct (create_session_run P A self h) as (s & _ & S & _).
  unfold granted, update_authorization, header. cbn. rewrite S. cbn.
  split; [reflexivity | split; [reflexivity | split; [reflexivity | split; [reflexivity |]]]].
  unfold sent, header. rewrite S. ring.
Qed.

Lemma empty_grant_accepted_witness :
  returned (authenticate Cases.hollow init []) = true
  /\ header (after (authenticate Cases.hollow init [])) = Some "Bearer None".
Proof.
  destruct (empty_grant_accepted unit unit Cases.hollow init [] eq_refl)
    as (R & _ & _ & H & _).
  split; [exact R | exact H].
Defined.

(** X26. A session that was closed is replaced by a new one without
    header, and a token that is still good is not posted again: the private
    request that follows goes out without [Authorization]. *)
Theorem reopened_session_sends_no_token :
  forall (P A : Type) (net : Network P A) (endpoint : string) (params : P)
         (self : DeribitClient) (s : Session) (h : list (http_event P A)),
    session self = Some s ->
    closed s = true ->
    truthy_str (access_token self) = true ->
    (net_time net h <= token_expiry self)%Q ->
    let t := net_time net h in
    let url := (API_URL ++ endpoint)%string in
    let a := net_get net (h ++ [Time t]) url params None in
    get_private net endpoint params self h
    = (received a, set_session ClientSession self, [Time t; Get url params None a]).
Proof.
  intros P A net endpoint params self s h S K T E t url a.
  unfold get_private. rewrite request_run. cbv zeta.
  rewrite (check_auth_valid P A net self h T E).
  unfold returned, after, events. cbn [fst snd andb negb].
  assert (O : opened self = set_session ClientSession self)
    by (unfold opened; rewrite S, K; reflexivity).
  rewrite O. reflexivity.
Qed.

Lemma reopened_session_sends_no_token_witness :
  events (get_private Cases.online "private/get_positions" tt (Cases.holding true) [])
  = [Time 1000%Q;
     Get (API_URL ++ "private/get_positions")%string tt None (Json (ApiResult (Some tt)))].
Proof.
  rewrite (reopened_session_sends_no_token unit unit Cases.online "private/get_positions" tt
             (Cases.holding true) _ [] eq_refl eq_refl eq_refl).
  - reflexivity.
  - vm_compute. discriminate.
Defined.
